(** * The MIDI writer of QuattroPlay-midi (src/lib/vgm.c)

    A shallow embedding of the single-track Standard MIDI File writer:
    the growable byte buffer ([write_u8], [write_bytes]), the big-endian
    and variable-length encoders, the delay accumulator and the public
    entry points [vgm_open], [vgm_write], [vgm_delay], [vgm_write_tag],
    [vgm_close] and the stubs kept for the old VGM interface.

    The C code works on global variables and raw pointers into a buffer
    obtained from [malloc] and grown with [realloc].  The model keeps the
    globals in a record, represents a pointer as a block identifier and an
    offset, and threads the record through a state monad whose failure
    case stands for undefined behaviour (a store through a null, dangling
    or out-of-range pointer).  Integer widths are those of an LP64
    platform: [uint32_t] arithmetic wraps modulo 2^32, [size_t] and
    [ptrdiff_t] are 64 bits wide and never wrap on the values met here. *)

From Stdlib Require Import ZArith NArith List String Ascii Bool Lia.
Import ListNotations.
Local Open Scope Z_scope.

(** ** Machine integers *)

(** Reduction to [uint32_t], [uint16_t] and [uint8_t]: the conversion an
    argument undergoes when it is passed to a parameter of that type. *)
Definition u32 (x : Z) : Z := x mod 2 ^ 32.

Definition u16 (x : Z) : Z := x mod 2 ^ 16.

Definition u8 (x : Z) : Z := x mod 2 ^ 8.

(** [#define MIDI_BUFFER 50000000] *)
Definition MIDI_BUFFER : Z := 50000000.

(** ** Memory *)

(** A pointer is null or designates an offset in an allocated block. *)
Inductive ptr : Type :=
| Null
| Ptr (b : nat) (ofs : Z).

(** An allocated block: its size in bytes and its contents. *)
Record block : Type := mkBlock {
  blk_size : Z;
  blk_bytes : Z -> Z
}.

(** What the allocator answers to a request: no memory, the block resized
    where it is ([realloc] only), or a block at a new address. *)
Inductive reply : Type :=
| AllocFail
| AllocSame
| AllocMove.

(** The ways in which the C code can leave defined behaviour. *)
Inductive fault : Type :=
| NullPointer        (* access through NULL *)
| Dangling           (* access to a block that was freed *)
| OutOfBounds        (* access outside the block *)
| PointerDifference  (* difference of pointers into different objects *)
| BadRealloc         (* realloc of a non-block pointer or with size 0 *)
| BadFree            (* free of a pointer malloc did not return *)
| ArrayOverrun.      (* index outside a local array *)

(** The global variables of vgm.c, followed by the part of the
    environment the code acts upon: the heap, the allocator (its answers,
    numbered by request, and the indeterminate contents of the memory it
    hands out) and the files written so far. *)
Record state : Type := mkState {
  buffer_size : Z;                       (* uint32_t buffer_size *)
  delayq : Z;                            (* uint32_t delayq *)
  vgmdata : ptr;                         (* uint8_t* vgmdata *)
  data : ptr;                            (* uint8_t* data *)
  filename : option string;              (* char* filename, None for NULL *)
  track_len_ptr : ptr;                   (* uint8_t* track_len_ptr *)
  track_start_ptr : ptr;                 (* uint8_t* track_start_ptr *)
  heap : nat -> option block;
  allocs : nat;
  alloc_reply : nat -> reply;
  alloc_junk : nat -> Z -> Z;
  files : list (string * list Z)
}.

Definition set_buffer_size (v : Z) (s : state) : state :=
  mkState v (delayq s) (vgmdata s) (data s) (filename s) (track_len_ptr s)
          (track_start_ptr s) (heap s) (allocs s) (alloc_reply s)
          (alloc_junk s) (files s).

Definition set_delayq (v : Z) (s : state) : state :=
  mkState (buffer_size s) v (vgmdata s) (data s) (filename s)
          (track_len_ptr s) (track_start_ptr s) (heap s) (allocs s)
          (alloc_reply s) (alloc_junk s) (files s).

Definition set_vgmdata (p : ptr) (s : state) : state :=
  mkState (buffer_size s) (delayq s) p (data s) (filename s)
          (track_len_ptr s) (track_start_ptr s) (heap s) (allocs s)
          (alloc_reply s) (alloc_junk s) (files s).

Definition set_data (p : ptr) (s : state) : state :=
  mkState (buffer_size s) (delayq s) (vgmdata s) p (filename s)
          (track_len_ptr s) (track_start_ptr s) (heap s) (allocs s)
          (alloc_reply s) (alloc_junk s) (files s).

Definition set_filename (f : option string) (s : state) : state :=
  mkState (buffer_size s) (delayq s) (vgmdata s) (data s) f
          (track_len_ptr s) (track_start_ptr s) (heap s) (allocs s)
          (alloc_reply s) (alloc_junk s) (files s).

Definition set_track_len_ptr (p : ptr) (s : state) : state :=
  mkState (buffer_size s) (delayq s) (vgmdata s) (data s) (filename s) p
          (track_start_ptr s) (heap s) (allocs s) (alloc_reply s)
          (alloc_junk s) (files s).

Definition set_track_start_ptr (p : ptr) (s : state) : state :=
  mkState (buffer_size s) (delayq s) (vgmdata s) (data s) (filename s)
          (track_len_ptr s) p (heap s) (allocs s) (alloc_reply s)
          (alloc_junk s) (files s).

Definition set_heap (h : nat -> option block) (s : state) : state :=
  mkState (buffer_size s) (delayq s) (vgmdata s) (data s) (filename s)
          (track_len_ptr s) (track_start_ptr s) h (allocs s) (alloc_reply s)
          (alloc_junk s) (files s).

Definition set_allocs (n : nat) (s : state) : state :=
  mkState (buffer_size s) (delayq s) (vgmdata s) (data s) (filename s)
          (track_len_ptr s) (track_start_ptr s) (heap s) n (alloc_reply s)
          (alloc_junk s) (files s).

Definition set_files (l : list (string * list Z)) (s : state) : state :=
  mkState (buffer_size s) (delayq s) (vgmdata s) (data s) (filename s)
          (track_len_ptr s) (track_start_ptr s) (heap s) (allocs s)
          (alloc_reply s) (alloc_junk s) l.

(** Contents of memory: one byte, a run of bytes, a filled range. *)
Definition mem_set (m : Z -> Z) (a v : Z) : Z -> Z :=
  fun a' => if a' =? a then v else m a'.

Fixpoint mem_write (m : Z -> Z) (a : Z) (l : list Z) : Z -> Z :=
  match l with
  | [] => m
  | v :: l' => mem_write (mem_set m a v) (a + 1) l'
  end.

Definition mem_fill (m : Z -> Z) (a n v : Z) : Z -> Z :=
  fun a' => if (a <=? a') && (a' <? a + n) then v else m a'.

Definition mem_read (m : Z -> Z) (a n : Z) : list Z :=
  map (fun i => m (a + Z.of_nat i)) (seq 0 (Z.to_nat n)).

(** The first [n] bytes of [m], the rest taken from [junk]: what a block
    holds after [realloc] kept [n] of its bytes. *)
Definition mem_keep (m junk : Z -> Z) (n : Z) : Z -> Z :=
  fun a => if a <? n then m a else junk a.

Definition heap_set (h : nat -> option block) (b : nat) (o : option block)
  : nat -> option block :=
  fun b' => if Nat.eqb b' b then o else h b'.

(** ** The monad: state, and a fault where C has no defined behaviour *)

Inductive outcome (A : Type) : Type :=
| Ok (a : A) (s : state)
| Fault (f : fault) (s : state).

Arguments Ok {A} a s.
Arguments Fault {A} f s.

Definition M (A : Type) : Type := state -> outcome A.

Definition ret {A : Type} (a : A) : M A := fun s => Ok a s.

Definition bind {A B : Type} (m : M A) (k : A -> M B) : M B :=
  fun s => match m s with
           | Ok a s' => k a s'
           | Fault f s' => Fault f s'
           end.

Definition get : M state := fun s => Ok s s.

Definition modify (f : state -> state) : M unit := fun s => Ok tt (f s).

Definition fail {A : Type} (f : fault) : M A := fun s => Fault f s.

Declare Scope vgm_scope.
Delimit Scope vgm_scope with vgm.

Notation "x <- m ;; k" := (bind m (fun x => k))
  (at level 100, m at next level, right associativity) : vgm_scope.
Notation "m ;; k" := (bind m (fun _ => k))
  (at level 100, right associativity) : vgm_scope.

Local Open Scope vgm_scope.

(** ** Pointer operations *)

Definition ptr_add (p : ptr) (n : Z) : ptr :=
  match p with
  | Null => Null
  | Ptr b o => Ptr b (o + n)
  end.

(** [p - q]: defined for two pointers into the same object. *)
Definition ptr_diff (p q : ptr) : M Z :=
  match p, q with
  | Ptr b o, Ptr b' o' =>
      if Nat.eqb b b' then ret (o - o') else fail PointerDifference
  | _, _ => fail PointerDifference
  end.

(** [*p = v] *)
Definition store (p : ptr) (v : Z) : M unit :=
  fun s =>
    match p with
    | Null => Fault NullPointer s
    | Ptr b o =>
        match heap s b with
        | None => Fault Dangling s
        | Some blk =>
            if (0 <=? o) && (o <? blk_size blk)
            then Ok tt (set_heap
                   (heap_set (heap s) b
                      (Some (mkBlock (blk_size blk)
                                     (mem_set (blk_bytes blk) o v)))) s)
            else Fault OutOfBounds s
        end
    end.

(** [memcpy(p, src, len)] with [src] given by its [len] bytes. *)
Definition memcpy (p : ptr) (src : list Z) : M unit :=
  fun s =>
    match p with
    | Null => Fault NullPointer s
    | Ptr b o =>
        match heap s b with
        | None => Fault Dangling s
        | Some blk =>
            if (0 <=? o) && (o + Z.of_nat (List.length src) <=? blk_size blk)
            then Ok tt (set_heap
                   (heap_set (heap s) b
                      (Some (mkBlock (blk_size blk)
                                     (mem_write (blk_bytes blk) o src)))) s)
            else Fault OutOfBounds s
        end
    end.

(** [memset(p, v, n)] *)
Definition memset (p : ptr) (v n : Z) : M unit :=
  fun s =>
    match p with
    | Null => Fault NullPointer s
    | Ptr b o =>
        match heap s b with
        | None => Fault Dangling s
        | Some blk =>
            if (0 <=? o) && (o + n <=? blk_size blk)
            then Ok tt (set_heap
                   (heap_set (heap s) b
                      (Some (mkBlock (blk_size blk)
                                     (mem_fill (blk_bytes blk) o n v)))) s)
            else Fault OutOfBounds s
        end
    end.

(** [malloc(size)]: the allocator's next answer decides; a new block gets
    the number of the request and indeterminate contents. *)
Definition malloc (size : Z) : M ptr :=
  fun s =>
    let k := allocs s in
    match alloc_reply s k with
    | AllocFail => Ok Null (set_allocs (S k) s)
    | _ =>
        Ok (Ptr k 0)
           (set_allocs (S k)
              (set_heap (heap_set (heap s) k
                           (Some (mkBlock size (alloc_junk s k)))) s))
    end.

(** [realloc(p, size)] for a block [p] and a non-zero size: on failure
    the block is left as it is and NULL is returned; on success the bytes
    below the smaller of the two sizes are kept, and when the block moves
    the old one is freed. *)
Definition realloc (p : ptr) (size : Z) : M ptr :=
  fun s =>
    let k := allocs s in
    match p with
    | Ptr b 0 =>
        match heap s b with
        | None => Fault Dangling s
        | Some blk =>
            if size =? 0 then Fault BadRealloc s else
            let kept := mkBlock size
                          (mem_keep (blk_bytes blk) (alloc_junk s k)
                                    (Z.min (blk_size blk) size)) in
            match alloc_reply s k with
            | AllocFail => Ok Null (set_allocs (S k) s)
            | AllocSame =>
                Ok (Ptr b 0)
                   (set_allocs (S k)
                      (set_heap (heap_set (heap s) b (Some kept)) s))
            | AllocMove =>
                Ok (Ptr k 0)
                   (set_allocs (S k)
                      (set_heap (heap_set (heap_set (heap s) b None) k
                                          (Some kept)) s))
            end
        end
    | _ => Fault BadRealloc s
    end.

(** [free(p)] *)
Definition free (p : ptr) : M unit :=
  fun s =>
    match p with
    | Null => Ok tt s
    | Ptr b 0 =>
        match heap s b with
        | None => Fault BadFree s
        | Some _ => Ok tt (set_heap (heap_set (heap s) b None) s)
        end
    | Ptr _ _ => Fault BadFree s
    end.

(** Modelled from the spec: [write_file] of fileio.h, which is not part of
    the sources at hand.  The spec describes it as the persistence
    primitive that stores the finished buffer under the given name; the
    model reads [size] bytes at [p] and records them under [name]. *)
Definition write_file (name : option string) (p : ptr) (size : Z) : M unit :=
  fun s =>
    match name, p with
    | Some n, Ptr b o =>
        match heap s b with
        | None => Fault Dangling s
        | Some blk =>
            if (0 <=? o) && (0 <=? size) && (o + size <=? blk_size blk)
            then Ok tt (set_files
                          ((n, mem_read (blk_bytes blk) o size) :: files s) s)
            else Fault OutOfBounds s
        end
    | _, _ => Fault NullPointer s
    end.

(** ** Internal helpers of vgm.c *)

(** [static inline void write_u8(uint8_t v)] *)
Definition write_u8 (v : Z) : M unit :=
  s <- get ;;
  store (data s) v ;;
  modify (set_data (ptr_add (data s) 1)) ;;
  s <- get ;;
  used <- ptr_diff (data s) (vgmdata s) ;;
  if buffer_size s - used <? 1024 then
    temp <- realloc (vgmdata s) (u32 (buffer_size s * 2)) ;;
    match temp with
    | Null => ret tt
    | Ptr _ _ =>
        offset <- ptr_diff (data s) (vgmdata s) ;;
        modify (set_buffer_size (u32 (buffer_size s * 2))) ;;
        modify (set_vgmdata temp) ;;
        modify (set_data (ptr_add temp offset))
    end
  else ret tt.

(** [static inline void write_bytes(const uint8_t* src, size_t len)] *)
Definition write_bytes (src : list Z) : M unit :=
  s <- get ;;
  memcpy (data s) src ;;
  modify (set_data (ptr_add (data s) (Z.of_nat (List.length src)))) ;;
  s <- get ;;
  used <- ptr_diff (data s) (vgmdata s) ;;
  if buffer_size s - used <? 1024 then
    offset <- ptr_diff (data s) (vgmdata s) ;;
    temp <- realloc (vgmdata s) (u32 (buffer_size s * 2)) ;;
    match temp with
    | Null => ret tt
    | Ptr _ _ =>
        modify (set_buffer_size (u32 (buffer_size s * 2))) ;;
        modify (set_vgmdata temp) ;;
        modify (set_data (ptr_add temp offset))
    end
  else ret tt.

(** [static inline void write_be32(uint32_t v)] *)
Definition write_be32 (v : Z) : M unit :=
  write_u8 (Z.land (Z.shiftr v 24) 0xFF) ;;
  write_u8 (Z.land (Z.shiftr v 16) 0xFF) ;;
  write_u8 (Z.land (Z.shiftr v 8) 0xFF) ;;
  write_u8 (Z.land (Z.shiftr v 0) 0xFF).

(** [static inline void write_be16(uint16_t v)] *)
Definition write_be16 (v : Z) : M unit :=
  write_u8 (Z.land (Z.shiftr v 8) 0xFF) ;;
  write_u8 (Z.land (Z.shiftr v 0) 0xFF).

(** The [while (value)] loop of [write_varlen]: [buffer] holds the bytes
    collected so far (its length is [idx]) and [slots] counts the free
    entries of [uint8_t buffer[5]]; storing past the last one is an
    overrun of the array. *)
Fixpoint varlen_loop (slots : nat) (value : Z) (buffer : list Z)
  : option (list Z) :=
  if value =? 0 then Some buffer
  else match slots with
       | O => None
       | S slots' =>
           varlen_loop slots' (Z.shiftr value 7)
             (buffer ++ [Z.lor 0x80 (Z.land value 0x7F)])
       end.

(** [for (int i = idx - 1; i >= 0; --i) write_u8(buffer[i]);] *)
Fixpoint write_down (buffer : list Z) (idx : nat) : M unit :=
  match idx with
  | O => ret tt
  | S i => write_u8 (nth i buffer 0) ;; write_down buffer i
  end.

(** [static void write_varlen(uint32_t value)] *)
Definition write_varlen (value : Z) : M unit :=
  match varlen_loop 4 (Z.shiftr value 7) [Z.land value 0x7F] with
  | None => fail ArrayOverrun
  | Some buffer => write_down buffer (List.length buffer)
  end.

(** [static inline uint32_t flush_delay_get_ticks()] *)
Definition flush_delay_get_ticks : M Z :=
  s <- get ;;
  let ticks := delayq s / 10 in
  modify (set_delayq 0) ;;
  ret ticks.

(** ** Text *)

Definition bytes_of_string (t : string) : list Z :=
  map (fun c => Z.of_nat (nat_of_ascii c)) (list_ascii_of_string t).

(** [flen < 4 || strcmp(filename + flen - 4, ".mid") != 0] decides
    whether [strcat(filename, ".mid")] runs. *)
Definition with_mid_extension (fname : string) : string :=
  let flen := String.length fname in
  if (Nat.ltb flen 4
      || negb (String.eqb (substring (flen - 4) 4 fname) ".mid"))%bool
  then (fname ++ ".mid")%string
  else fname.

(** One lower-case hexadecimal digit, as [%x] prints it. *)
Definition hex_digit (d : Z) : Z :=
  if d <? 10 then 48 + d else 87 + d.

(** [%03x] applied to a value below 0x1000. *)
Definition hex3 (n : Z) : list Z :=
  [hex_digit (Z.land (Z.shiftr n 8) 0xF);
   hex_digit (Z.land (Z.shiftr n 4) 0xF);
   hex_digit (Z.land n 0xF)].

(** The separator of the tag text: a space, an em dash in UTF-8 and a
    space. *)
Definition tag_dash : list Z := [0x20; 0xE2; 0x80; 0x94; 0x20].

(** [snprintf(buf, size, ...)] keeps at most [size - 1] bytes. *)
Definition snprintf (size : nat) (text : list Z) : list Z :=
  firstn (size - 1) text.

(** [strlen]: the bytes before the first zero. *)
Fixpoint strlen (l : list Z) : nat :=
  match l with
  | [] => O
  | c :: l' => if c =? 0 then O else S (strlen l')
  end.

(** The text [vgm_write_tag] builds in [buf]; [ts] is what [strftime]
    produced for the current time. *)
Definition tag_text (gamename : option string) (songid : Z) (ts : string)
  : list Z :=
  let name := match gamename with
              | Some g => bytes_of_string g
              | None => []
              end in
  if 0 <=? songid then
    snprintf 512
      (name ++ tag_dash ++ bytes_of_string "Song ID: "
            ++ hex3 (Z.land songid 0x7FF) ++ tag_dash
            ++ bytes_of_string "Generated: " ++ bytes_of_string ts)
  else
    snprintf 512
      (name ++ tag_dash ++ bytes_of_string "Generated: "
            ++ bytes_of_string ts).

(** ** Public interface *)

(** [void vgm_open(char* fname)] *)
Definition vgm_open (fname : string) : M unit :=
  name <- malloc (Z.of_nat (String.length fname) + 8) ;;
  match name with
  | Null => modify (set_filename None)
  | Ptr _ _ =>
      modify (set_filename (Some (with_mid_extension fname))) ;;
      modify (set_delayq 0) ;;
      buf <- malloc MIDI_BUFFER ;;
      modify (set_vgmdata buf) ;;
      match buf with
      | Null => ret tt
      | Ptr _ _ =>
          modify (set_data buf) ;;
          modify (set_buffer_size MIDI_BUFFER) ;;
          memset buf 0 MIDI_BUFFER ;;
          write_bytes (bytes_of_string "MThd") ;;
          write_be32 6 ;;
          write_be16 0 ;;
          write_be16 1 ;;
          write_be16 480 ;;
          write_bytes (bytes_of_string "MTrk") ;;
          s <- get ;;
          modify (set_track_len_ptr (data s)) ;;
          write_be32 0 ;;
          s <- get ;;
          modify (set_track_start_ptr (data s))
      end
  end.

(** [void vgm_write(uint8_t command, uint8_t port, uint16_t reg,
    uint16_t value)]; the arguments are converted to the types of the
    parameters. *)
Definition vgm_write (command port reg value : Z) : M unit :=
  let command := u8 command in
  let port := u8 port in
  let reg := u16 reg in
  let value := u16 value in
  s <- get ;;
  (if 10 <=? delayq s then
     ticks <- flush_delay_get_ticks ;;
     write_varlen ticks
   else
     write_varlen 0) ;;
  let status := Z.land command 0xF0 in
  let channel := Z.land port 0x0F in
  if status =? 0x90 then
    write_u8 (Z.lor 0x90 channel) ;;
    write_u8 (Z.land reg 0x7F) ;;
    write_u8 (Z.land value 0x7F)
  else if status =? 0x80 then
    write_u8 (Z.lor 0x80 channel) ;;
    write_u8 (Z.land reg 0x7F) ;;
    write_u8 (Z.land value 0x7F)
  else if status =? 0xB0 then
    write_u8 (Z.lor 0xB0 channel) ;;
    write_u8 (Z.land reg 0x7F) ;;
    write_u8 (Z.land value 0x7F)
  else if status =? 0xC0 then
    write_u8 (Z.lor 0xC0 channel) ;;
    write_u8 (Z.land value 0x7F)
  else if status =? 0xE0 then
    let bend := Z.land value 0x3FFF in
    let lsb := Z.land bend 0x7F in
    let msb := Z.land (Z.shiftr bend 7) 0x7F in
    write_u8 (Z.lor 0xE0 channel) ;;
    write_u8 lsb ;;
    write_u8 msb
  else if command =? 0xFF then
    let meta_type := Z.land reg 0xFF in
    if meta_type =? 0x2F then
      write_u8 0xFF ;;
      write_u8 0x2F ;;
      write_u8 0x00
    else ret tt
  else if (command =? 0xF0) || (command =? 0xF7) then
    ret tt
  else
    ret tt.

(** [void vgm_delay(uint32_t delay)] *)
Definition vgm_delay (delay : Z) : M unit :=
  s <- get ;;
  modify (set_delayq (u32 (delayq s + delay))).

(** [void vgm_poke32(int32_t offset, uint32_t d)] *)
Definition vgm_poke32 (offset d : Z) : M unit := ret tt.

(** [void vgm_poke8(int32_t offset, uint8_t d)] *)
Definition vgm_poke8 (offset d : Z) : M unit := ret tt.

(** [void vgm_datablock(uint8_t dbtype, uint32_t dbsize,
    uint8_t* datablock, uint32_t maxsize, uint32_t mask, int32_t flags)] *)
Definition vgm_datablock (dbtype dbsize : Z) (datablock : ptr)
                         (maxsize mask flags : Z) : M unit := ret tt.

(** [void vgm_setloop()] *)
Definition vgm_setloop : M unit := ret tt.

(** [void vgm_write_tag(char* gamename, int songid)]; the third argument
    is the time stamp [strftime] writes into [ts]. *)
Definition vgm_write_tag (gamename : option string) (songid : Z)
                         (ts : string) : M unit :=
  s <- get ;;
  (if 10 <=? delayq s then
     ticks <- flush_delay_get_ticks ;;
     write_varlen ticks
   else
     write_varlen 0) ;;
  let buf := tag_text gamename songid ts in
  let len := strlen buf in
  write_u8 0xFF ;;
  write_u8 0x01 ;;
  write_varlen (u32 (Z.of_nat len)) ;;
  write_bytes (firstn len buf).

(** [void vgm_close()] *)
Definition vgm_close : M unit :=
  s <- get ;;
  (if 10 <=? delayq s then
     ticks <- flush_delay_get_ticks ;;
     write_varlen ticks
   else
     write_varlen 0) ;;
  write_u8 0xFF ;;
  write_u8 0x2F ;;
  write_u8 0x00 ;;
  s <- get ;;
  (match track_len_ptr s, track_start_ptr s with
   | Ptr _ _, Ptr _ _ =>
       d <- ptr_diff (data s) (track_start_ptr s) ;;
       let track_length := u32 d in
       store (ptr_add (track_len_ptr s) 0)
             (Z.land (Z.shiftr track_length 24) 0xFF) ;;
       store (ptr_add (track_len_ptr s) 1)
             (Z.land (Z.shiftr track_length 16) 0xFF) ;;
       store (ptr_add (track_len_ptr s) 2)
             (Z.land (Z.shiftr track_length 8) 0xFF) ;;
       store (ptr_add (track_len_ptr s) 3)
             (Z.land (Z.shiftr track_length 0) 0xFF)
   | _, _ => ret tt
   end) ;;
  s <- get ;;
  total_size <- ptr_diff (data s) (vgmdata s) ;;
  write_file (filename s) (vgmdata s) total_size ;;
  free (vgmdata s) ;;
  (* free(filename) *)
  modify (set_vgmdata Null) ;;
  modify (set_data Null) ;;
  modify (set_filename None).

(** ** Programs over the interface *)

(** One call of the public interface. *)
Inductive call : Type :=
| Open (fname : string)
| Write (command port reg value : Z)
| Delay (delay : Z)
| WriteTag (gamename : option string) (songid : Z) (ts : string)
| Close
| Poke32 (offset d : Z)
| Poke8 (offset d : Z)
| Datablock (dbtype dbsize : Z) (datablock : ptr) (maxsize mask flags : Z)
| Setloop.

Definition exec (c : call) : M unit :=
  match c with
  | Open fname => vgm_open fname
  | Write command port reg value => vgm_write command port reg value
  | Delay delay => vgm_delay delay
  | WriteTag gamename songid ts => vgm_write_tag gamename songid ts
  | Close => vgm_close
  | Poke32 offset d => vgm_poke32 offset d
  | Poke8 offset d => vgm_poke8 offset d
  | Datablock t sz p mx mk fl => vgm_datablock t sz p mx mk fl
  | Setloop => vgm_setloop
  end.

Fixpoint run (cs : list call) : M unit :=
  match cs with
  | [] => ret tt
  | c :: cs' => exec c ;; run cs'
  end.

(** [n] times the same computation. *)
Definition times (n : N) (m : M unit) : M unit :=
  fun s => N.iter n (fun o => match o with
                              | Ok _ s' => m s'
                              | Fault f s' => Fault f s'
                              end) (Ok tt s).

(** The state a program starts in: the globals hold zero, nothing is
    allocated, no file has been written. *)
Definition boot (replies : nat -> reply) (junk : nat -> Z -> Z) : state :=
  mkState 0 0 Null Null None Null Null (fun _ => None) O replies junk [].

(** ** Observations on a state *)

(** Offset of the write cursor [data] in its block. *)
Definition cursor (s : state) : Z :=
  match data s with
  | Ptr _ o => o
  | Null => 0
  end.

(** The block [vgmdata] points to, when it is allocated. *)
Definition buffer_block (s : state) : option block :=
  match vgmdata s with
  | Ptr b _ => heap s b
  | Null => None
  end.

(** The bytes of the buffer. *)
Definition contents (s : state) : Z -> Z :=
  match buffer_block s with
  | Some blk => blk_bytes blk
  | None => fun _ => 0
  end.

(** The allocated size of the buffer. *)
Definition capacity (s : state) : Z :=
  match buffer_block s with
  | Some blk => blk_size blk
  | None => 0
  end.

(** [buffer_size - (data - vgmdata)], the quantity both writers compare
    with the low-water mark. *)
Definition headroom (s : state) : Z := buffer_size s - cursor s.

(** The bytes found in [s'] between the cursor of [s] and the cursor of
    [s']: what was appended on the way from [s] to [s']. *)
Definition emitted (s s' : state) : list Z :=
  mem_read (contents s') (cursor s) (cursor s' - cursor s).

(** The buffer is allocated: [vgmdata] is the start of block [b], whose
    size is [buffer_size] (a [uint32_t]), and [data] is at offset [c] of
    that block. *)
Definition open_buffer (s : state) (b : nat) (c : Z) : Prop :=
  vgmdata s = Ptr b 0 /\
  data s = Ptr b c /\
  option_map blk_size (heap s b) = Some (buffer_size s) /\
  0 <= c /\
  buffer_size s < 2 ^ 32.

(** [r] more bytes can be appended, in pieces, without leaving the buffer
    whatever the allocator answers: either no append reaches the low-water
    mark, or doubling the capacity does not wrap and is enough. *)
Definition budget (s : state) (r : Z) : Prop :=
  (exists b c, open_buffer s b c) /\
  0 <= r <= headroom s /\
  (1024 + r <= headroom s \/
   (2 * buffer_size s < 2 ^ 32 /\ 1024 + r <= buffer_size s + headroom s)).

(** The states in which an event, a tag or the end of the track can be
    written: the buffer is allocated, the low-water mark of 1024 bytes is
    respected, and the capacity can still be doubled in 32 bits unless
    2048 bytes are free anyway. *)
Definition ready (s : state) : Prop :=
  (exists b c, open_buffer s b c) /\
  0 <= delayq s < 2 ^ 32 /\
  1024 <= headroom s /\
  (2 * buffer_size s < 2 ^ 32 \/ 2048 <= headroom s).

(** The buffer does not change address while [vgm_close] appends its (at
    most 8) bytes: no growth is due, or the allocator never answers
    [AllocMove]. *)
Definition stays_put (s : state) : Prop :=
  1032 <= headroom s \/
  forall k, (allocs s <= k)%nat -> alloc_reply s k <> AllocMove.

(** The stream is open as [vgm_open] left it: the two track pointers
    designate offsets 18 and 22 of the buffer, the cursor is not before
    the track data, and the file has a name. *)
Definition streaming (s : state) : Prop :=
  exists b c,
    open_buffer s b c /\ 22 <= c /\
    track_len_ptr s = Ptr b 18 /\ track_start_ptr s = Ptr b 22 /\
    filename s <> None.

(** [s'] is [s] with the bytes [l] appended to the buffer: the cursor
    moved by their number, the bytes below the old cursor are the same,
    the new ones are [l], and everything else but the heap and the count
    of allocation requests is as it was.  The buffer is at the same
    address unless the allocator answered [AllocMove] in between, the
    allocator is not even asked when 1024 bytes stay free, and fewer than
    1024 bytes are free afterwards only if that was so before or the
    allocator answered [AllocFail]. *)
Record appended (l : list Z) (s s' : state) : Prop := mkAppended {
  ap_delayq : delayq s' = delayq s;
  ap_filename : filename s' = filename s;
  ap_files : files s' = files s;
  ap_track_len : track_len_ptr s' = track_len_ptr s;
  ap_track_start : track_start_ptr s' = track_start_ptr s;
  ap_reply : alloc_reply s' = alloc_reply s;
  ap_junk : alloc_junk s' = alloc_junk s;
  ap_allocs : (allocs s <= allocs s')%nat;
  ap_cursor : cursor s' = cursor s + Z.of_nat (List.length l);
  ap_old : forall i, i < cursor s -> contents s' i = contents s i;
  ap_new : forall i, (i < List.length l)%nat ->
             contents s' (cursor s + Z.of_nat i) = nth i l 0;
  ap_size : buffer_size s <= buffer_size s';
  ap_place : vgmdata s' = vgmdata s \/
             exists k, (allocs s <= k < allocs s')%nat /\
                       alloc_reply s k = AllocMove;
  ap_quiet : 1024 + Z.of_nat (List.length l) <= headroom s ->
             vgmdata s' = vgmdata s /\ allocs s' = allocs s /\
             buffer_size s' = buffer_size s;
  ap_low : headroom s' < 1024 ->
           headroom s < 1024 \/
           exists k, (allocs s <= k < allocs s')%nat /\
                     alloc_reply s k = AllocFail
}.

(** [m] appends exactly the bytes [l], whenever the budget allows it. *)
Definition emits (m : M unit) (l : list Z) : Prop :=
  forall s r, budget s r -> Z.of_nat (List.length l) <= r ->
    exists s', m s = Ok tt s' /\ appended l s s' /\
               budget s' (r - Z.of_nat (List.length l)).

(** [m] keeps the property [P] of the state whenever it returns. *)
Definition preserves {A : Type} (P : state -> Prop) (m : M A) : Prop :=
  forall s a s', P s -> m s = Ok a s' -> P s'.

(** ** The byte sequences of the format *)

(** The bytes [write_varlen] appends for [value], in the order in which
    they are appended. *)
Definition varlen_bytes (value : Z) : list Z :=
  match varlen_loop 4 (Z.shiftr value 7) [Z.land value 0x7F] with
  | Some buffer => rev buffer
  | None => []
  end.

(** Modelled from the spec: the decoder of variable-length quantities.
    vgm.c only encodes; the spec describes decoding as reading bytes until
    one without the continuation bit 0x80, accumulating the 7-bit groups
    most significant first.  The result is the value and the bytes that
    follow it. *)
Fixpoint varlen_decode_from (acc : Z) (l : list Z) : option (Z * list Z) :=
  match l with
  | [] => None
  | b :: l' =>
      let acc' := Z.lor (Z.shiftl acc 7) (Z.land b 0x7F) in
      if Z.land b 0x80 =? 0 then Some (acc', l')
      else varlen_decode_from acc' l'
  end.

Definition varlen_decode (l : list Z) : option (Z * list Z) :=
  varlen_decode_from 0 l.

(** Big-endian bytes of a 32-bit and of a 16-bit value, as [write_be32]
    and [write_be16] append them. *)
Definition be32_bytes (v : Z) : list Z :=
  [Z.land (Z.shiftr v 24) 0xFF; Z.land (Z.shiftr v 16) 0xFF;
   Z.land (Z.shiftr v 8) 0xFF; Z.land (Z.shiftr v 0) 0xFF].

Definition be16_bytes (v : Z) : list Z :=
  [Z.land (Z.shiftr v 8) 0xFF; Z.land (Z.shiftr v 0) 0xFF].

(** The value of four big-endian bytes. *)
Definition be32_value (l : list Z) : Z :=
  nth 0 l 0 * 2 ^ 24 + nth 1 l 0 * 2 ^ 16 + nth 2 l 0 * 2 ^ 8 + nth 3 l 0.

(** The 14 bytes of the header chunk: "MThd", length 6, format 0, one
    track, division 480. *)
Definition header_chunk : list Z :=
  bytes_of_string "MThd" ++ be32_bytes 6 ++ be16_bytes 0 ++ be16_bytes 1
                  ++ be16_bytes 480.

(** The 22 bytes [vgm_open] appends: the header chunk, "MTrk" and the
    placeholder of the track length. *)
Definition open_bytes : list Z :=
  header_chunk ++ bytes_of_string "MTrk" ++ be32_bytes 0.

(** The end-of-track meta event. *)
Definition end_of_track : list Z := [0xFF; 0x2F; 0x00].

(** The message bytes [vgm_write] appends after the delta time, as a
    table on the arguments; [command] is compared with 0xFF as the
    [uint8_t] it is passed as. *)
Definition event_bytes (command port reg value : Z) : list Z :=
  let status := Z.land command 0xF0 in
  let channel := Z.land port 0x0F in
  if status =? 0x90 then
    [Z.lor 0x90 channel; Z.land reg 0x7F; Z.land value 0x7F]
  else if status =? 0x80 then
    [Z.lor 0x80 channel; Z.land reg 0x7F; Z.land value 0x7F]
  else if status =? 0xB0 then
    [Z.lor 0xB0 channel; Z.land reg 0x7F; Z.land value 0x7F]
  else if status =? 0xC0 then
    [Z.lor 0xC0 channel; Z.land value 0x7F]
  else if status =? 0xE0 then
    [Z.lor 0xE0 channel; Z.land (Z.land value 0x3FFF) 0x7F;
     Z.land (Z.shiftr (Z.land value 0x3FFF) 7) 0x7F]
  else if (u8 command =? 0xFF) && (Z.land reg 0xFF =? 0x2F) then
    end_of_track
  else [].

(** The bytes [vgm_write_tag] appends after the delta time. *)
Definition tag_bytes (gamename : option string) (songid : Z) (ts : string)
  : list Z :=
  let buf := tag_text gamename songid ts in
  let len := strlen buf in
  [0xFF; 0x01] ++ varlen_bytes (u32 (Z.of_nat len)) ++ firstn len buf.

(** What the three flushing operations leave in [delayq] when it held
    [d]: the test [delayq >= 10] guards the reset. *)
Definition delay_after_flush (d : Z) : Z :=
  if 10 <=? d then 0 else d.

(** The calls made between [vgm_open] and [vgm_close]: the three that
    feed the stream, and the stubs. *)
Definition stream_call (c : call) : Prop :=
  match c with
  | Open _ | Close => False
  | _ => True
  end.

(** Memory [m] starts with the bytes [l]. *)
Definition starts_with (m : Z -> Z) (l : list Z) : Prop :=
  forall k, (k < List.length l)%nat -> m (Z.of_nat k) = nth k l 0.

(** What every call between [vgm_open] and [vgm_close] keeps true, for
    every answer of the allocator and even past the point where the
    capacity wraps: the cursor is behind the track length field, the
    buffer starts with the header chunk unless its recorded size has
    fallen below 14 (no byte can be appended then), [track_len_ptr]
    designates offset 18 of the buffer or of a block that has been freed,
    and the files written are [fs]. *)
Definition header_kept (fs : list (string * list Z)) (s : state) : Prop :=
  exists b c m,
    vgmdata s = Ptr b 0 /\ data s = Ptr b c /\
    heap s b = Some (mkBlock (buffer_size s) m) /\
    22 <= c /\ (b < allocs s)%nat /\
    (exists bt, track_len_ptr s = Ptr bt 18 /\ (bt < allocs s)%nat /\
                (bt = b \/ heap s bt = None)) /\
    (starts_with m header_chunk \/ buffer_size s < 14) /\
    files s = fs.

(** The file [vgm_close] has just written: its name and bytes. *)
Definition last_file (s : state) : option (string * list Z) :=
  match files s with
  | f :: _ => Some f
  | [] => None
  end.

(** The part of [header_kept] that matters once the track length has
    been patched. *)
Definition header_in_buffer (fs : list (string * list Z)) (s : state)
  : Prop :=
  exists b c m,
    vgmdata s = Ptr b 0 /\ data s = Ptr b c /\
    heap s b = Some (mkBlock (buffer_size s) m) /\
    22 <= c /\
    (starts_with m header_chunk \/ buffer_size s < 14) /\
    files s = fs.

(** The state in which a computation ended: the state reached, or the
    state at the fault. *)
Definition final_state {A : Type} (o : outcome A) : state :=
  match o with
  | Ok _ s => s
  | Fault _ s => s
  end.

Definition is_ok {A : Type} (o : outcome A) : bool :=
  match o with
  | Ok _ _ => true
  | Fault _ _ => false
  end.

Definition fault_of {A : Type} (o : outcome A) : option fault :=
  match o with
  | Ok _ _ => None
  | Fault f _ => Some f
  end.

(** The computation returned to its caller. *)
Definition returns {A : Type} (o : outcome A) : Prop :=
  exists a s, o = Ok a s.

(** An allocator that always gives the same answer, and memory that
    holds 0xAA when handed out. *)
Definition always (r : reply) : nat -> reply := fun _ => r.

Definition junk_AA : nat -> Z -> Z := fun _ _ => 0xAA.

(** The state a list of calls leads to from the initial state, with the
    allocator that resizes in place. *)
Definition started (cs : list call) : state :=
  final_state (run cs (boot (always AllocSame) junk_AA)).

(** In a finished file: the track length stored at offset 18 and the
    track data from offset 22 on. *)
Definition track_length_field (bytes : list Z) : Z :=
  be32_value (firstn 4 (skipn 18 bytes)).

Definition track_payload (bytes : list Z) : list Z := skipn 22 bytes.

(** The scenario of the spec: a note on, and the note off 50 delay units
    later. *)
Definition scenario : list call :=
  [Open "song"; Write 0x90 0 60 100; Delay 50; Write 0x80 0 60 0; Close].

(** A stream just opened, and one in which 5 delay units are pending,
    less than one tick. *)
Definition fresh_stream : state := started [Open "song"].

Definition sub_tick_stream : state := started [Open "song"; Delay 5].

(** A stream opened under the name "song" and fed [n] events that have
    no message: each appends the single byte of a zero delta time. *)
Definition long_stream (n : N) : M unit :=
  vgm_open "song" ;; times n (vgm_write 0xA0 0 0 0).

(** The states such a stream goes through: the buffer is block [b] of
    size [B] with the cursor at [c], [a] requests have been made to an
    allocator that always answers [r], no delay is pending and the track
    pointers are those of a buffer opened as block 1. *)
Definition filling (r : reply) (s : state) (b : nat) (c B : Z) (a : nat)
  : Prop :=
  open_buffer s b c /\ buffer_size s = B /\ allocs s = a /\
  delayq s = 0 /\ alloc_reply s = always r /\
  track_len_ptr s = Ptr 1 18 /\ track_start_ptr s = Ptr 1 22 /\
  filename s <> None.

(** The words of the spec, kept apart from the model of the code. *)
Module Spec.

(** The mapping table of the event encoder as the spec gives it: the
    end-of-track row is selected by [data1 == 0x2F]. *)
Definition event_bytes (command port reg value : Z) : list Z :=
  let status := Z.land command 0xF0 in
  let channel := Z.land port 0x0F in
  if status =? 0x90 then
    [Z.lor 0x90 channel; Z.land reg 0x7F; Z.land value 0x7F]
  else if status =? 0x80 then
    [Z.lor 0x80 channel; Z.land reg 0x7F; Z.land value 0x7F]
  else if status =? 0xB0 then
    [Z.lor 0xB0 channel; Z.land reg 0x7F; Z.land value 0x7F]
  else if status =? 0xC0 then
    [Z.lor 0xC0 channel; Z.land value 0x7F]
  else if status =? 0xE0 then
    [Z.lor 0xE0 channel; Z.land value 0x7F;
     Z.land (Z.shiftr value 7) 0x7F]
  else if (command =? 0xFF) && (reg =? 0x2F) then
    [0xFF; 0x2F; 0x00]
  else [].

(** A command the spec counts as unsupported: its row of the table is
    empty. *)
Definition unsupported (command reg : Z) : Prop :=
  event_bytes command 0 reg 0 = [].

(** [flush_to_ticks] of the spec: the ticks and a counter reset to 0. *)
Definition flush_to_ticks (counter : Z) : Z * Z := (counter / 10, 0).

End Spec.

(** ** Further observations *)

(** The value of two big-endian bytes. *)
Definition be16_value (l : list Z) : Z := nth 0 l 0 * 2 ^ 8 + nth 1 l 0.

(** A value that fits in a [uint8_t]. *)
Definition is_byte (b : Z) : Prop := 0 <= b < 256.

(** A status byte (bit 7 set) and a data byte (bit 7 clear) of a MIDI
    message. *)
Definition is_status (b : Z) : Prop := 0x80 <= b <= 0xFF.

Definition is_data (b : Z) : Prop := 0 <= b <= 0x7F.

(** The test of [vgm_open] on the file name, negated: the name has at
    least four characters and the last four are ".mid". *)
Definition has_mid_extension (fname : string) : bool :=
  let flen := String.length fname in
  negb (Nat.ltb flen 4
        || negb (String.eqb (substring (flen - 4) 4 fname) ".mid")).

(** The number of 7-bit groups of a value below 2^32. *)
Definition varlen_size (x : Z) : nat :=
  if x <? 2 ^ 7 then 1
  else if x <? 2 ^ 14 then 2
  else if x <? 2 ^ 21 then 3
  else if x <? 2 ^ 28 then 4
  else 5.

(** The sum of the arguments of a run of [vgm_delay] calls. *)
Definition total_delay (ds : list Z) : Z := fold_right Z.add 0 ds.

(** The buffer is block [b] of size [B] with the cursor at [c], and the
    allocator has no memory left: every request from now on fails. *)
Definition starved (s : state) (b : nat) (c B : Z) : Prop :=
  open_buffer s b c /\ buffer_size s = B /\
  forall k, (allocs s <= k)%nat -> alloc_reply s k = AllocFail.


(** A MIDI message as it stands in a track: nothing, or a status byte
    followed by at most two data bytes. *)
Definition framed (l : list Z) : Prop :=
  l = [] \/
  exists st operands,
    l = st :: operands /\ is_status st /\ Forall is_data operands /\
    (List.length operands <= 2)%nat.

(** A buffer of 2048 bytes with the cursor 8 bytes before its end, and an
    allocator without memory. *)
Definition starved_stream : state :=
  mkState 2048 0 (Ptr 0 0) (Ptr 0 2040) (Some "song.mid"%string)
          (Ptr 0 18) (Ptr 0 22)
          (fun b => if Nat.eqb b 0
                    then Some (mkBlock 2048 (fun _ => 0))
                    else None)
          1 (always AllocFail) junk_AA [].

(** The state of a program that has not opened a stream yet and whose
    allocator has no memory. *)
Definition boot_no_memory : state := boot (always AllocFail) junk_AA.

(** The initial state with an allocator that serves the first request
    (the file name) and fails from the second on (the buffer). *)
Definition boot_name_only : state :=
  boot (fun k => if Nat.eqb k 0 then AllocSame else AllocFail) junk_AA.

(** A stream that can take [n] more calls without asking the allocator:
    the buffer is as [vgm_open] left it but for the cursor, with room for
    [n] calls of at most 523 bytes each and for the 8 bytes of the close
    above the low-water mark; the file name is [name] and the files
    written are [fs]. *)
Definition within (n : Z) (name : string) (fs : list (string * list Z))
                  (s : state) : Prop :=
  ready s /\ streaming s /\ 2 * buffer_size s < 2 ^ 32 /\
  1032 + 523 * n <= headroom s /\
  (forall k, (k < 18)%nat -> contents s (Z.of_nat k) = nth k open_bytes 0) /\
  filename s = Some name /\ files s = fs.

(** * Properties *)

(** ** Arithmetic and memory *)

Lemma u32_small x : 0 <= x < 2 ^ 32 -> u32 x = x.
Proof. intros; unfold u32; apply Z.mod_small; assumption. Qed.

Lemma u32_range x : 0 <= u32 x < 2 ^ 32.
Proof. unfold u32; apply Z.mod_pos_bound; lia. Qed.

Lemma heap_set_same h b o : heap_set h b o b = o.
Proof. unfold heap_set. now rewrite Nat.eqb_refl. Qed.

Lemma heap_set_other h b o b' : b' <> b -> heap_set h b o b' = h b'.
Proof.
  intros Hne; unfold heap_set.
  destruct (Nat.eqb_spec b' b); [contradiction | reflexivity].
Qed.

Lemma mem_write_outside l : forall m a i,
  i < a \/ a + Z.of_nat (List.length l) <= i -> mem_write m a l i = m i.
Proof.
  induction l as [|v l IH]; intros m a i Hi; cbn [mem_write]; [reflexivity |].
  cbn [List.length] in Hi.
  rewrite IH by lia.
  unfold mem_set; destruct (Z.eqb_spec i a); [lia | reflexivity].
Qed.

Lemma mem_write_inside l : forall m a k,
  (k < List.length l)%nat -> mem_write m a l (a + Z.of_nat k) = nth k l 0.
Proof.
  induction l as [|v l IH]; intros m a k Hk; cbn [List.length] in Hk; [lia |].
  cbn [mem_write]. destruct k as [|k]; cbn [nth].
  - rewrite mem_write_outside by lia.
    unfold mem_set; destruct (Z.eqb_spec (a + Z.of_nat 0) a); [reflexivity | lia].
  - replace (a + Z.of_nat (S k)) with (a + 1 + Z.of_nat k) by lia.
    apply IH; lia.
Qed.

Lemma mem_read_length m a n : List.length (mem_read m a n) = Z.to_nat n.
Proof. unfold mem_read; now rewrite length_map, length_seq. Qed.

Lemma mem_read_nth m a n k :
  (k < Z.to_nat n)%nat -> nth k (mem_read m a n) 0 = m (a + Z.of_nat k).
Proof.
  intros Hk; unfold mem_read.
  set (f := fun i => m (a + Z.of_nat i)).
  transitivity (nth k (map f (seq 0 (Z.to_nat n))) (f O)).
  - apply nth_indep. rewrite length_map, length_seq; exact Hk.
  - rewrite (map_nth f), seq_nth by exact Hk. reflexivity.
Qed.

(** Two lists of the same length that agree at every index are equal. *)
Lemma list_eq_nth (l l' : list Z) :
  List.length l = List.length l' ->
  (forall k, (k < List.length l)%nat -> nth k l 0 = nth k l' 0) -> l = l'.
Proof.
  revert l'; induction l as [|x l IH]; intros [|y l'] Hlen Hnth;
    cbn [List.length] in *; try discriminate; [reflexivity |].
  f_equal.
  - apply (Hnth O); lia.
  - apply IH; [lia |]. intros k Hk. apply (Hnth (S k)); lia.
Qed.

Lemma sized_block (h : nat -> option block) b sz :
  option_map blk_size (h b) = Some sz ->
  exists m, h b = Some (mkBlock sz m).
Proof.
  destruct (h b) as [[sz' m] |]; cbn [option_map blk_size];
    [| discriminate].
  intros [= ->]. now exists m.
Qed.

(** ** Simplification of states *)

Ltac st :=
  unfold headroom, cursor, contents, capacity, buffer_block, bind, get,
         modify, ret, fail, set_buffer_size, set_delayq, set_vgmdata,
         set_data, set_filename, set_track_len_ptr, set_track_start_ptr,
         set_heap, set_allocs, set_files in *;
  cbn [buffer_size delayq vgmdata data filename track_len_ptr
       track_start_ptr heap allocs alloc_reply alloc_junk files
       ptr_add blk_size blk_bytes] in *;
  cbv beta in *;
  cbn [buffer_size delayq vgmdata data filename track_len_ptr
       track_start_ptr heap allocs alloc_reply alloc_junk files
       ptr_add blk_size blk_bytes] in *.

Ltac look :=
  repeat (rewrite heap_set_same; st);
  repeat match goal with
         | H : ?h ?b = Some _ |- context [?h ?b] => rewrite H; st
         end.

Ltac mem :=
  look; unfold mem_keep, mem_set;
  repeat match goal with
  | |- context [if ?a <? ?b then _ else _] =>
      destruct (Z.ltb_spec a b); try lia
  | |- context [if ?a =? ?b then _ else _] =>
      destruct (Z.eqb_spec a b); try lia
  end; try reflexivity.

Ltac one_byte c :=
  let i := fresh "i" in
  let Hi := fresh "Hi" in
  intros [|i] Hi; [| cbn in Hi; lia];
  cbn [nth]; replace (c + Z.of_nat 0) with c by lia; mem.

Ltac open_at b c :=
  exists b, c; unfold open_buffer; st;
  repeat split; try lia; try (f_equal; lia); look;
  try (cbn [option_map blk_size]; reflexivity); eauto.

Ltac fields tac :=
  constructor; st; cbn [List.length]; try reflexivity; try lia;
  try lazymatch goal with
  | |- forall i, i < _ -> _ =>
      let i := fresh "i" in
      let Hi := fresh "Hi" in
      intros i Hi; mem; try (rewrite mem_write_outside by lia; mem)
  | |- forall i, (i < _)%nat -> _ => tac
  | |- _ = _ \/ _ => try (left; reflexivity)
  | |- _ <= _ -> _ /\ _ =>
      let Hq := fresh "Hq" in
      intros Hq; repeat split; try reflexivity; lia
  | |- _ < _ -> _ \/ _ =>
      let Hq := fresh "Hq" in
      intros Hq;
      first [ left; lia
            | right; eexists; split; [| eassumption]; lia ]
  end.

(** ** The growable byte sink *)

(** [write_u8] appends its byte. *)
Lemma write_u8_emits v : emits (write_u8 v) [v].
Proof.
  intros s r [[b [c [Hv [Hd [Hsz [Hc H32]]]]]] [Hr Hb]] Hlen.
  destruct (sized_block _ _ _ Hsz) as [m Hh]; clear Hsz.
  destruct s as [B dq vd d fn tl ts h n rp jk fs]; st; subst.
  cbn [List.length] in *.
  unfold write_u8, store, ptr_diff, realloc; st.
  rewrite Hh; st.
  assert (Hin : (0 <=? c) && (c <? B) = true).
  { apply andb_true_iff; split; [apply Z.leb_le | apply Z.ltb_lt]; lia. }
  rewrite Hin; st. rewrite Nat.eqb_refl; st.
  destruct (Z.ltb_spec (B - (c + 1 - 0)) 1024) as [Hlow | Hhigh].
  - destruct Hb as [Hb | [Hw Hb]]; [lia |]. st.
    rewrite heap_set_same.
    rewrite (u32_small (B * 2)) by lia.
    destruct (Z.eqb_spec (B * 2) 0); [lia |].
    destruct (rp n) eqn:Hrp; st; rewrite ?Nat.eqb_refl;
      (eexists; split; [reflexivity |]; split; [fields ltac:(one_byte c) | ]).
    + split; [open_at b (c + 1) | split; st; [lia | right; lia]].
    + split; [open_at b (0 + (c + 1 - 0)) | split; st; [lia | left; lia]].
    + right; exists n; split; [lia | assumption].
    + split; [open_at n (0 + (c + 1 - 0)) | split; st; [lia | left; lia]].
  - eexists; split; [reflexivity |]; split; [fields ltac:(one_byte c) | ].
    split; [open_at b (c + 1)
           | split; st; [lia | destruct Hb; [left | right]; lia]].
Qed.

(** [write_bytes] appends the bytes it is given. *)
Lemma write_bytes_emits l : emits (write_bytes l) l.
Proof.
  intros s r [[b [c [Hv [Hd [Hsz [Hc H32]]]]]] [Hr Hb]] Hlen.
  destruct (sized_block _ _ _ Hsz) as [m Hh]; clear Hsz.
  destruct s as [B dq vd d fn tl ts h n rp jk fs]; st; subst.
  unfold write_bytes, memcpy, ptr_diff, realloc; st.
  rewrite Hh; st.
  set (len := Z.of_nat (List.length l)) in *.
  assert (Hin : (0 <=? c) && (c + len <=? B) = true).
  { apply andb_true_iff; split; apply Z.leb_le; lia. }
  rewrite Hin; st. rewrite Nat.eqb_refl; st.
  assert (Hnew : forall i, (i < List.length l)%nat ->
            mem_write m c l (c + Z.of_nat i) = nth i l 0).
  { intros i Hi; now apply mem_write_inside. }
  destruct (Z.ltb_spec (B - (c + len - 0)) 1024) as [Hlow | Hhigh].
  - destruct Hb as [Hb | [Hw Hb]]; [lia |]. st.
    rewrite heap_set_same.
    rewrite (u32_small (B * 2)) by lia.
    destruct (Z.eqb_spec (B * 2) 0); [lia |].
    pose proof (Zle_0_nat (List.length l)) as Hpos. fold len in Hpos.
    destruct (rp n) eqn:Hrp; st; rewrite ?Nat.eqb_refl;
      (eexists; split; [reflexivity |]; split;
       [fields ltac:(intros i Hi; mem; try (apply Hnew; exact Hi);
                     pose proof (Nat2Z.inj_lt _ _ Hi); lia) | ]).
    + split; [open_at b (c + len) | split; st; [lia | right; lia]].
    + split; [open_at b (0 + (c + len - 0)) | split; st; [lia | left; lia]].
    + right; exists n; split; [lia | assumption].
    + split; [open_at n (0 + (c + len - 0)) | split; st; [lia | left; lia]].
  - pose proof (Zle_0_nat (List.length l)) as Hpos. fold len in Hpos.
    eexists; split; [reflexivity |]; split;
      [fields ltac:(intros i Hi; mem; apply Hnew; exact Hi) | ].
    split; [open_at b (c + len)
           | split; st; [lia | destruct Hb; [left | right]; lia]].
Qed.

(** ** Composition of appends *)

Lemma appended_nil s : appended [] s s.
Proof.
  constructor; try reflexivity; try lia.
  - cbn [List.length]; lia.
  - intros i Hi; cbn [List.length] in Hi; lia.
  - now left.
  - now intros _.
Qed.

Lemma appended_app l1 l2 s s' s'' :
  appended l1 s s' -> appended l2 s' s'' -> appended (l1 ++ l2) s s''.
Proof.
  intros H1 H2.
  pose proof (ap_cursor _ _ _ H1) as Hc1.
  constructor.
  - rewrite (ap_delayq _ _ _ H2); apply H1.
  - rewrite (ap_filename _ _ _ H2); apply H1.
  - rewrite (ap_files _ _ _ H2); apply H1.
  - rewrite (ap_track_len _ _ _ H2); apply H1.
  - rewrite (ap_track_start _ _ _ H2); apply H1.
  - rewrite (ap_reply _ _ _ H2); apply H1.
  - rewrite (ap_junk _ _ _ H2); apply H1.
  - pose proof (ap_allocs _ _ _ H1); pose proof (ap_allocs _ _ _ H2); lia.
  - rewrite (ap_cursor _ _ _ H2), Hc1, length_app; lia.
  - intros i Hi. rewrite (ap_old _ _ _ H2) by lia. now apply (ap_old _ _ _ H1).
  - intros i Hi. rewrite length_app in Hi.
    destruct (Nat.lt_ge_cases i (List.length l1)) as [Hlt | Hge].
    + rewrite app_nth1 by exact Hlt.
      rewrite (ap_old _ _ _ H2) by lia. now apply (ap_new _ _ _ H1).
    + rewrite app_nth2 by exact Hge.
      rewrite <- (ap_new _ _ _ H2) by lia.
      f_equal. rewrite Hc1. lia.
  - pose proof (ap_size _ _ _ H1); pose proof (ap_size _ _ _ H2); lia.
  - pose proof (ap_allocs _ _ _ H1) as Ha1.
    pose proof (ap_allocs _ _ _ H2) as Ha2.
    destruct (ap_place _ _ _ H1) as [E1 | [k [Hk Hm]]].
    + destruct (ap_place _ _ _ H2) as [E2 | [k [Hk Hm]]].
      * left; congruence.
      * right; exists k; split; [lia |].
        now rewrite <- (ap_reply _ _ _ H1).
    + right; exists k; split; [lia | assumption].
  - intros Hq. rewrite length_app in Hq.
    destruct (ap_quiet _ _ _ H1) as [Ev [Ea Eb]]; [lia |].
    destruct (ap_quiet _ _ _ H2) as [Ev' [Ea' Eb']].
    { unfold headroom in *. rewrite Eb, Hc1. lia. }
    repeat split; congruence.
  - intros Hq.
    pose proof (ap_allocs _ _ _ H1) as Ha1.
    pose proof (ap_allocs _ _ _ H2) as Ha2.
    destruct (ap_low _ _ _ H2 Hq) as [Hq' | [k [Hk Hf]]].
    + destruct (ap_low _ _ _ H1 Hq') as [Hq0 | [k [Hk Hf]]]; [now left |].
      right; exists k; split; [lia | assumption].
    + right; exists k; split; [lia |].
      now rewrite <- (ap_reply _ _ _ H1).
Qed.

(** The appended bytes can be read back. *)
Lemma appended_emitted l s s' : appended l s s' -> emitted s s' = l.
Proof.
  intros H. unfold emitted.
  rewrite (ap_cursor _ _ _ H).
  replace (cursor s + Z.of_nat (List.length l) - cursor s)
    with (Z.of_nat (List.length l)) by lia.
  apply list_eq_nth.
  - now rewrite mem_read_length, Nat2Z.id.
  - intros k Hk. rewrite mem_read_length, Nat2Z.id in Hk.
    rewrite mem_read_nth by (now rewrite Nat2Z.id).
    now apply (ap_new _ _ _ H).
Qed.

Lemma emits_ret : emits (ret tt) [].
Proof.
  intros s r Hb _. exists s. split; [reflexivity |].
  split; [apply appended_nil |].
  cbn [List.length]. now replace (r - Z.of_nat 0) with r by lia.
Qed.

Lemma emits_bind m1 m2 l1 l2 :
  emits m1 l1 -> emits m2 l2 -> emits (m1 ;; m2) (l1 ++ l2).
Proof.
  intros E1 E2 s r Hb Hlen. rewrite length_app in Hlen.
  destruct (E1 s r Hb) as [s' [R1 [A1 B1]]]; [lia |].
  destruct (E2 s' _ B1) as [s'' [R2 [A2 B2]]]; [lia |].
  exists s''. unfold bind. rewrite R1. split; [exact R2 |].
  split; [now apply appended_app with s' |].
  rewrite length_app.
  replace (r - Z.of_nat (List.length l1 + List.length l2))
    with (r - Z.of_nat (List.length l1) - Z.of_nat (List.length l2)) by lia.
  exact B2.
Qed.

Lemma emits_eq m l l' : emits m l -> l = l' -> emits m l'.
Proof. now intros H <-. Qed.

(** ** Big-endian scalars *)

Lemma write_be32_emits v : emits (write_be32 v) (be32_bytes v).
Proof.
  unfold write_be32, be32_bytes.
  repeat (apply (emits_bind _ _ [_]); [apply write_u8_emits |]).
  apply write_u8_emits.
Qed.

Lemma write_be16_emits v : emits (write_be16 v) (be16_bytes v).
Proof.
  unfold write_be16, be16_bytes.
  apply (emits_bind _ _ [_]); apply write_u8_emits.
Qed.

(** ** Variable-length quantities *)

Lemma firstn_snoc (l : list Z) i :
  (i < List.length l)%nat -> firstn (S i) l = firstn i l ++ [nth i l 0].
Proof.
  revert i; induction l as [|x l IH]; intros i Hi; cbn [List.length] in Hi;
    [lia |].
  destruct i as [|i]; [reflexivity |].
  cbn [firstn nth app]. f_equal. apply IH; lia.
Qed.

(** The downward loop appends the collected bytes last to first. *)
Lemma write_down_emits buffer : forall idx,
  (idx <= List.length buffer)%nat ->
  emits (write_down buffer idx) (rev (firstn idx buffer)).
Proof.
  induction idx as [|i IH]; intros Hi.
  - apply emits_ret.
  - cbn [write_down]. rewrite firstn_snoc by lia.
    rewrite rev_app_distr. cbn [rev app].
    apply (emits_bind _ _ [_]); [apply write_u8_emits | apply IH; lia].
Qed.

(** The loop never leaves [buffer[5]] on a value that has at most 7 bits
    for each free slot. *)
Lemma varlen_loop_some : forall slots value buffer,
  0 <= value < 2 ^ (7 * Z.of_nat slots) ->
  exists res, varlen_loop slots value buffer = Some res.
Proof.
  induction slots as [|n IH]; intros value buffer Hv; cbn [varlen_loop].
  - destruct (Z.eqb_spec value 0); [eauto |].
    change (2 ^ (7 * Z.of_nat 0)) with 1 in Hv. lia.
  - destruct (Z.eqb_spec value 0); [eauto |].
    apply IH. rewrite Z.shiftr_div_pow2 by lia.
    replace (7 * Z.of_nat (S n)) with (7 + 7 * Z.of_nat n) in Hv by lia.
    rewrite Z.pow_add_r in Hv by lia.
    split; [apply Z.div_pos; lia |].
    apply Z.div_lt_upper_bound; lia.
Qed.

Lemma varlen_loop_length : forall slots value buffer res,
  varlen_loop slots value buffer = Some res ->
  (List.length buffer <= List.length res <= List.length buffer + slots)%nat.
Proof.
  induction slots as [|n IH]; intros value buffer res; cbn [varlen_loop].
  - destruct (value =? 0); [| discriminate].
    intros [= <-]; lia.
  - destruct (value =? 0).
    + intros [= <-]; lia.
    + intros H. apply IH in H. rewrite length_app in H.
      cbn [List.length] in H. lia.
Qed.

Lemma varlen_start_some value :
  0 <= value < 2 ^ 32 ->
  exists res,
    varlen_loop 4 (Z.shiftr value 7) [Z.land value 0x7F] = Some res.
Proof.
  intros Hv. apply varlen_loop_some.
  rewrite Z.shiftr_div_pow2 by lia.
  split; [apply Z.div_pos; lia |].
  apply Z.div_lt_upper_bound; [lia |].
  change (2 ^ 7 * 2 ^ (7 * Z.of_nat 4)) with (2 ^ 35). lia.
Qed.

(** [write_varlen] appends [varlen_bytes]. *)
Lemma write_varlen_emits value :
  0 <= value < 2 ^ 32 -> emits (write_varlen value) (varlen_bytes value).
Proof.
  intros Hv. destruct (varlen_start_some value Hv) as [res Hres].
  unfold write_varlen, varlen_bytes. rewrite Hres.
  apply emits_eq with (rev (firstn (List.length res) res)).
  - apply write_down_emits. lia.
  - now rewrite firstn_all.
Qed.

Lemma varlen_bytes_length value :
  0 <= value < 2 ^ 32 ->
  (1 <= List.length (varlen_bytes value) <= 5)%nat.
Proof.
  intros Hv. destruct (varlen_start_some value Hv) as [res Hres].
  unfold varlen_bytes. rewrite Hres, length_rev.
  apply varlen_loop_length in Hres. cbn [List.length] in Hres. lia.
Qed.

(** ** Decoding what [write_varlen] appends *)

Lemma testbit_128 n : 0 <= n -> Z.testbit 0x80 n = (n =? 7).
Proof.
  intros Hn. change 0x80 with (2 ^ 7).
  rewrite Z.pow2_bits_eqb by lia. apply Z.eqb_sym.
Qed.

Lemma testbit_127 n : 0 <= n -> Z.testbit 0x7F n = (n <? 7).
Proof.
  intros Hn. change 0x7F with (Z.ones 7).
  destruct (Z.ltb_spec n 7).
  - apply Z.ones_spec_low; lia.
  - apply Z.ones_spec_high; lia.
Qed.

(** The low seven bits and the rest give the value back. *)
Lemma group_join x :
  Z.lor (Z.shiftl (Z.shiftr x 7) 7) (Z.land x 0x7F) = x.
Proof.
  apply Z.bits_inj'; intros n Hn.
  rewrite Z.lor_spec, Z.land_spec, testbit_127 by exact Hn.
  destruct (Z.ltb_spec n 7).
  - rewrite Z.shiftl_spec_low by lia. cbn [orb]. apply andb_true_r.
  - rewrite Z.shiftl_spec, Z.shiftr_spec by lia.
    replace (n - 7 + 7) with n by lia.
    rewrite andb_false_r. apply orb_false_r.
Qed.

(** A byte made by the loop carries the continuation bit ... *)
Lemma continuation_set y : (Z.land (Z.lor 0x80 y) 0x80 =? 0) = false.
Proof.
  apply Z.eqb_neq; intros H.
  assert (Hb : Z.testbit (Z.land (Z.lor 0x80 y) 0x80) 7 = true).
  { rewrite Z.land_spec, Z.lor_spec, testbit_128 by lia. reflexivity. }
  rewrite H, Z.bits_0 in Hb. discriminate.
Qed.

(** ... and the seven bits of its group; the first byte collected does
    not carry the bit. *)
Lemma continuation_group x :
  Z.land (Z.lor 0x80 (Z.land x 0x7F)) 0x7F = Z.land x 0x7F.
Proof.
  apply Z.bits_inj'; intros n Hn.
  repeat (rewrite Z.land_spec || rewrite Z.lor_spec).
  rewrite testbit_127, testbit_128 by exact Hn.
  destruct (Z.ltb_spec n 7); destruct (Z.eqb_spec n 7); try lia;
    rewrite ?andb_false_r, ?andb_true_r; reflexivity.
Qed.

Lemma continuation_clear x : (Z.land (Z.land x 0x7F) 0x80 =? 0) = true.
Proof.
  apply Z.eqb_eq. apply Z.bits_inj'; intros n Hn.
  rewrite !Z.land_spec, testbit_127, testbit_128, Z.bits_0 by exact Hn.
  destruct (Z.ltb_spec n 7); destruct (Z.eqb_spec n 7); try lia;
    rewrite ?andb_false_r; reflexivity.
Qed.

Lemma low_group_idem x : Z.land (Z.land x 0x7F) 0x7F = Z.land x 0x7F.
Proof.
  rewrite <- Z.land_assoc. f_equal.
Qed.

(** Decoding the bytes collected by the loop, last to first, amounts to
    decoding the first ones with the value still to encode as the
    accumulator. *)
Lemma varlen_loop_decode : forall slots value buffer res rest,
  varlen_loop slots value buffer = Some res ->
  varlen_decode_from 0 (rev res ++ rest)
  = varlen_decode_from value (rev buffer ++ rest).
Proof.
  induction slots as [|n IH]; intros value buffer res rest;
    cbn [varlen_loop]; destruct (Z.eqb_spec value 0) as [-> | Hnz];
    try discriminate; try (intros [= <-]; reflexivity).
  intros H. rewrite (IH _ _ _ rest H).
  rewrite rev_app_distr. cbn [rev app varlen_decode_from].
  rewrite continuation_set, continuation_group, group_join.
  reflexivity.
Qed.

(** Round trip, for every 32-bit value and whatever follows its bytes. *)
Lemma varlen_round_trip value rest :
  0 <= value < 2 ^ 32 ->
  varlen_decode (varlen_bytes value ++ rest) = Some (value, rest).
Proof.
  intros Hv. destruct (varlen_start_some value Hv) as [res Hres].
  unfold varlen_decode, varlen_bytes. rewrite Hres.
  rewrite (varlen_loop_decode _ _ _ _ rest Hres).
  cbn [rev app varlen_decode_from].
  now rewrite continuation_clear, low_group_idem, group_join.
Qed.

(** The canonical encodings the spec lists. *)
Lemma varlen_bytes_canonical :
  varlen_bytes 0 = [0x00] /\ varlen_bytes 127 = [0x7F] /\
  varlen_bytes 128 = [0x81; 0x00].
Proof. repeat split; reflexivity. Qed.

(** ** The delay accumulator *)

Lemma set_delayq_same s : set_delayq (delayq s) s = s.
Proof. now destruct s. Qed.

Lemma bind_assoc {A B C : Type} (m : M A) (f : A -> M B) (g : B -> M C) s :
  bind (bind m f) g s = bind m (fun x => bind (f x) g) s.
Proof. unfold bind. now destruct (m s). Qed.

(** The opening lines of [vgm_write], [vgm_write_tag] and [vgm_close]:
    they append the delta time [delayq / 10] and leave
    [delay_after_flush] in [delayq]. *)
Lemma flush_prologue (k : M unit) s :
  0 <= delayq s ->
  (s0 <- get ;;
   (if 10 <=? delayq s0 then
      ticks <- flush_delay_get_ticks ;; write_varlen ticks
    else write_varlen 0) ;; k) s
  = (write_varlen (delayq s / 10) ;; k)
      (set_delayq (delay_after_flush (delayq s)) s).
Proof.
  intros Hd. unfold delay_after_flush.
  unfold bind at 1, get. cbv beta.
  destruct (Z.leb_spec 10 (delayq s)) as [Hge | Hlt].
  - unfold flush_delay_get_ticks, bind, get, modify, ret. reflexivity.
  - rewrite set_delayq_same, Z.div_small by lia. reflexivity.
Qed.

Lemma budget_set_delayq d s r : budget s r -> budget (set_delayq d s) r.
Proof. intros H; exact H. Qed.

Lemma open_buffer_room s b c : open_buffer s b c -> cursor s = c.
Proof. intros [_ [Hd _]]. unfold cursor. now rewrite Hd. Qed.

Lemma ready_budget s : ready s -> budget s 1024.
Proof.
  intros [[b [c Ho]] [_ [Hr Hw]]].
  pose proof (open_buffer_room _ _ _ Ho) as Hc.
  assert (Hpos : 0 <= c) by apply Ho.
  split; [now exists b, c |].
  unfold headroom in *. rewrite Hc in *.
  split; [lia |]. destruct Hw; [right | left]; lia.
Qed.

(** In a stream that is ready, [write_varlen] returns, and the bytes it
    has put between the old and the new cursor are [varlen_bytes]. *)
Lemma write_varlen_ready x s :
  0 <= x < 2 ^ 32 -> ready s ->
  exists s',
    write_varlen x s = Ok tt s' /\
    emitted s s' = varlen_bytes x /\
    cursor s' = cursor s + Z.of_nat (List.length (varlen_bytes x)).
Proof.
  intros Hx Hr.
  pose proof (varlen_bytes_length _ Hx) as Hl.
  destruct (write_varlen_emits x Hx s 1024 (ready_budget s Hr))
    as (s' & R & A & _); [lia |].
  exists s'. split; [exact R |].
  split; [now apply appended_emitted | apply (ap_cursor _ _ _ A)].
Qed.

(** ** What the writing operations append *)

Ltac emit_bytes :=
  repeat (apply (emits_bind _ _ [_]); [apply write_u8_emits |]);
  apply write_u8_emits.

(** Masking makes the conversion of the arguments invisible. *)
Lemma land_mod_low x n m :
  0 <= n -> 0 <= m < 2 ^ n -> Z.land (x mod 2 ^ n) m = Z.land x m.
Proof.
  intros Hn Hm. rewrite <- Z.land_ones by exact Hn.
  rewrite <- Z.land_assoc. f_equal.
  rewrite Z.land_comm, Z.land_ones by exact Hn.
  now apply Z.mod_small.
Qed.

Lemma land_u8 x m : 0 <= m < 256 -> Z.land (u8 x) m = Z.land x m.
Proof. intros Hm. unfold u8. apply land_mod_low; lia. Qed.

Lemma land_u16 x m : 0 <= m < 65536 -> Z.land (u16 x) m = Z.land x m.
Proof. intros Hm. unfold u16. apply land_mod_low; lia. Qed.

Lemma u8_idem x : u8 (u8 x) = u8 x.
Proof. unfold u8. apply Z.mod_mod. lia. Qed.

Lemma u8_small x : 0 <= x < 256 -> u8 x = x.
Proof. intros H. unfold u8. now apply Z.mod_small. Qed.

Lemma u16_small x : 0 <= x < 65536 -> u16 x = x.
Proof. intros H. unfold u16. now apply Z.mod_small. Qed.

Lemma event_bytes_length command port reg value :
  (List.length (event_bytes command port reg value) <= 3)%nat.
Proof.
  unfold event_bytes, end_of_track.
  repeat match goal with
         | |- context [if ?c then _ else _] => destruct c
         end; cbn [List.length]; lia.
Qed.

(** The dispatch of [vgm_write], on arguments of the parameter types. *)
Lemma dispatch_emits t command port reg value :
  0 <= t < 2 ^ 32 ->
  emits
    (write_varlen t ;;
     (let status := Z.land command 0xF0 in
      let channel := Z.land port 0x0F in
      if status =? 0x90 then
        write_u8 (Z.lor 0x90 channel) ;;
        write_u8 (Z.land reg 0x7F) ;; write_u8 (Z.land value 0x7F)
      else if status =? 0x80 then
        write_u8 (Z.lor 0x80 channel) ;;
        write_u8 (Z.land reg 0x7F) ;; write_u8 (Z.land value 0x7F)
      else if status =? 0xB0 then
        write_u8 (Z.lor 0xB0 channel) ;;
        write_u8 (Z.land reg 0x7F) ;; write_u8 (Z.land value 0x7F)
      else if status =? 0xC0 then
        write_u8 (Z.lor 0xC0 channel) ;; write_u8 (Z.land value 0x7F)
      else if status =? 0xE0 then
        let bend := Z.land value 0x3FFF in
        let lsb := Z.land bend 0x7F in
        let msb := Z.land (Z.shiftr bend 7) 0x7F in
        write_u8 (Z.lor 0xE0 channel) ;; write_u8 lsb ;; write_u8 msb
      else if command =? 0xFF then
        let meta_type := Z.land reg 0xFF in
        if meta_type =? 0x2F then
          write_u8 0xFF ;; write_u8 0x2F ;; write_u8 0x00
        else ret tt
      else if (command =? 0xF0) || (command =? 0xF7) then ret tt
      else ret tt))
    (varlen_bytes t
       ++ (let status := Z.land command 0xF0 in
           let channel := Z.land port 0x0F in
           if status =? 0x90 then
             [Z.lor 0x90 channel; Z.land reg 0x7F; Z.land value 0x7F]
           else if status =? 0x80 then
             [Z.lor 0x80 channel; Z.land reg 0x7F; Z.land value 0x7F]
           else if status =? 0xB0 then
             [Z.lor 0xB0 channel; Z.land reg 0x7F; Z.land value 0x7F]
           else if status =? 0xC0 then
             [Z.lor 0xC0 channel; Z.land value 0x7F]
           else if status =? 0xE0 then
             [Z.lor 0xE0 channel; Z.land (Z.land value 0x3FFF) 0x7F;
              Z.land (Z.shiftr (Z.land value 0x3FFF) 7) 0x7F]
           else if (command =? 0xFF) && (Z.land reg 0xFF =? 0x2F) then
             end_of_track
           else [])).
Proof.
  intros Ht. apply emits_bind; [now apply write_varlen_emits |].
  unfold end_of_track. cbv zeta.
  repeat match goal with
         | |- emits (if ?c then _ else _) _ =>
             destruct c; cbn [andb]; try emit_bytes; try apply emits_ret
         end.
Qed.

(** The dispatch of [vgm_write] follows the table [event_bytes]. *)
Lemma vgm_write_appends command port reg value s :
  ready s ->
  exists s',
    vgm_write command port reg value s = Ok tt s' /\
    appended (varlen_bytes (delayq s / 10)
                ++ event_bytes command port reg value)
             (set_delayq (delay_after_flush (delayq s)) s) s' /\
    budget s' (1024 - Z.of_nat (List.length
                 (varlen_bytes (delayq s / 10)
                    ++ event_bytes command port reg value))).
Proof.
  intros Hr.
  assert (Hd : 0 <= delayq s < 2 ^ 32) by apply Hr.
  assert (Ht : 0 <= delayq s / 10 < 2 ^ 32).
  { split; [apply Z.div_pos; lia | apply Z.div_lt_upper_bound; lia]. }
  unfold vgm_write. cbv zeta. rewrite flush_prologue by lia.
  pose proof (dispatch_emits (delayq s / 10) (u8 command) (u8 port)
                (u16 reg) (u16 value) Ht) as E.
  cbv zeta in E.
  match type of E with
  | emits _ (_ ++ ?l) =>
      assert (Heq : l = event_bytes command port reg value)
  end.
  { unfold event_bytes.
    rewrite !land_u8 by lia. rewrite !land_u16 by lia. reflexivity. }
  rewrite Heq in E.
  apply E.
  - apply budget_set_delayq, ready_budget, Hr.
  - rewrite length_app.
    pose proof (varlen_bytes_length _ Ht).
    pose proof (event_bytes_length command port reg value).
    lia.
Qed.

Lemma strlen_le l : (strlen l <= List.length l)%nat.
Proof.
  induction l as [|c l IH]; cbn [strlen List.length]; [lia |].
  destruct (c =? 0); lia.
Qed.

Lemma tag_text_length gamename songid ts :
  (List.length (tag_text gamename songid ts) <= 511)%nat.
Proof.
  unfold tag_text, snprintf.
  destruct (0 <=? songid); rewrite length_firstn; lia.
Qed.

Lemma tag_bytes_length gamename songid ts :
  (List.length (tag_bytes gamename songid ts) <= 518)%nat.
Proof.
  unfold tag_bytes.
  pose proof (tag_text_length gamename songid ts) as Ht.
  pose proof (strlen_le (tag_text gamename songid ts)) as Hs.
  pose proof (varlen_bytes_length _
                (u32_range (Z.of_nat (strlen (tag_text gamename songid ts)))))
    as Hv.
  rewrite !length_app, length_firstn. cbn [List.length]. lia.
Qed.

(** [vgm_write_tag] appends a text meta event after the delta time. *)
Lemma vgm_write_tag_appends gamename songid ts s :
  ready s ->
  exists s',
    vgm_write_tag gamename songid ts s = Ok tt s' /\
    appended (varlen_bytes (delayq s / 10) ++ tag_bytes gamename songid ts)
             (set_delayq (delay_after_flush (delayq s)) s) s' /\
    budget s' (1024 - Z.of_nat (List.length
                 (varlen_bytes (delayq s / 10)
                    ++ tag_bytes gamename songid ts))).
Proof.
  intros Hr.
  assert (Hd : 0 <= delayq s < 2 ^ 32) by apply Hr.
  assert (Ht : 0 <= delayq s / 10 < 2 ^ 32).
  { split; [apply Z.div_pos; lia | apply Z.div_lt_upper_bound; lia]. }
  unfold vgm_write_tag. rewrite flush_prologue by lia.
  assert (E : emits
    (write_varlen (delayq s / 10) ;;
     (let buf := tag_text gamename songid ts in
      let len := strlen buf in
      write_u8 0xFF ;; write_u8 0x01 ;;
      write_varlen (u32 (Z.of_nat len)) ;; write_bytes (firstn len buf)))
    (varlen_bytes (delayq s / 10) ++ tag_bytes gamename songid ts)).
  { apply emits_bind; [now apply write_varlen_emits |].
    unfold tag_bytes. cbv zeta.
    apply (emits_bind _ _ [_]); [apply write_u8_emits |].
    apply (emits_bind _ _ [_]); [apply write_u8_emits |].
    apply emits_bind; [apply write_varlen_emits, u32_range |].
    apply write_bytes_emits. }
  apply E.
  - apply budget_set_delayq, ready_budget, Hr.
  - rewrite length_app.
    pose proof (varlen_bytes_length _ Ht).
    pose proof (tag_bytes_length gamename songid ts).
    lia.
Qed.

(** The appending part of [vgm_close]. *)
Lemma close_head_emits t :
  0 <= t < 2 ^ 32 ->
  emits (write_varlen t ;; write_u8 0xFF ;; write_u8 0x2F ;; write_u8 0x00)
        (varlen_bytes t ++ end_of_track).
Proof.
  intros Ht. apply emits_bind; [now apply write_varlen_emits |].
  unfold end_of_track. emit_bytes.
Qed.

Lemma close_head_assoc t (k : M unit) s :
  (write_varlen t ;; write_u8 0xFF ;; write_u8 0x2F ;; write_u8 0x00 ;; k) s
  = ((write_varlen t ;; write_u8 0xFF ;; write_u8 0x2F ;; write_u8 0x00)
     ;; k) s.
Proof.
  unfold bind.
  destruct (write_varlen t s) as [[] s1 |]; [| reflexivity].
  destruct (write_u8 0xFF s1) as [[] s2 |]; [| reflexivity].
  destruct (write_u8 0x2F s2) as [[] s3 |]; [| reflexivity].
  destruct (write_u8 0x00 s3) as [[] s4 |]; reflexivity.
Qed.

(** ** Closing the stream *)

Ltac in_bounds :=
  match goal with
  | |- context [(0 <=? ?a) && (?a <? ?b)] =>
      replace ((0 <=? a) && (a <? b)) with true
        by (symmetry; apply andb_true_iff; split;
            [apply Z.leb_le | apply Z.ltb_lt]; lia)
  end.

(** With the buffer in place, [vgm_close] appends the last delta time and
    the end of the track, patches the length and writes the file: byte [k]
    of the file is a byte of the patched length at offsets 18 to 21, the
    byte the buffer held below the old cursor, and a byte of the closing
    sequence from there on. *)
Lemma vgm_close_runs_freeing s :
  ready s -> streaming s -> stays_put s ->
  let tail := varlen_bytes (delayq s / 10) ++ end_of_track in
  let total := cursor s + Z.of_nat (List.length tail) in
  exists s' name bytes,
    vgm_close s = Ok tt s' /\
    filename s = Some name /\
    files s' = (name, bytes) :: files s /\
    delayq s' = delay_after_flush (delayq s) /\
    vgmdata s' = Null /\ data s' = Null /\ filename s' = None /\
    (forall b o, vgmdata s = Ptr b o -> heap s' b = None) /\
    Z.of_nat (List.length bytes) = total /\
    forall k, (k < List.length bytes)%nat ->
      nth k bytes 0 =
      if (18 <=? Z.of_nat k) && (Z.of_nat k <? 22)
      then nth (k - 18) (be32_bytes (total - 22)) 0
      else if Z.of_nat k <? cursor s then contents s (Z.of_nat k)
      else nth (k - Z.to_nat (cursor s)) tail 0.
Proof.
  intros Hr [b [c [Ho [Hc22 [Htl [Hts Hfn]]]]]] Hput tail total.
  assert (Hd : 0 <= delayq s < 2 ^ 32) by apply Hr.
  assert (Ht : 0 <= delayq s / 10 < 2 ^ 32).
  { split; [apply Z.div_pos; lia | apply Z.div_lt_upper_bound; lia]. }
  pose proof (open_buffer_room _ _ _ Ho) as Hc.
  assert (Hlen : (List.length tail <= 8)%nat).
  { unfold tail. rewrite length_app.
    pose proof (varlen_bytes_length _ Ht). cbn [List.length end_of_track]. lia. }
  unfold vgm_close. rewrite flush_prologue by lia.
  rewrite close_head_assoc.
  set (s0 := set_delayq (delay_after_flush (delayq s)) s).
  destruct (close_head_emits _ Ht s0 1024) as [s4 [R [A B4]]];
    [apply budget_set_delayq, ready_budget, Hr | fold tail; lia |].
  fold tail in A, B4.
  unfold bind at 1. rewrite R.
  (* the buffer did not move *)
  assert (Hv4 : vgmdata s4 = Ptr b 0).
  { destruct Ho as [Hv _]. destruct Hput as [Hroom | Hnm].
    - destruct (ap_quiet _ _ _ A) as [E _]; [| now rewrite E].
      change (headroom s0) with (headroom s). lia.
    - destruct (ap_place _ _ _ A) as [E | [k [Hk Hm]]]; [now rewrite E |].
      exfalso. apply (Hnm k); [apply Hk | exact Hm]. }
  destruct B4 as [[b4 [c4 [Hv' [Hd4 [Hsz4 [Hc4 H32]]]]]] [Hroom4 _]].
  destruct (sized_block _ _ _ Hsz4) as [m4 Hh4]; clear Hsz4.
  rewrite Hv4 in Hv'. injection Hv' as <-.
  pose proof (ap_cursor _ _ _ A) as Hcur.
  pose proof (ap_old _ _ _ A) as Hold.
  pose proof (ap_new _ _ _ A) as Hnew.
  pose proof (ap_track_len _ _ _ A) as Htl4.
  pose proof (ap_track_start _ _ _ A) as Hts4.
  pose proof (ap_filename _ _ _ A) as Hfn4.
  pose proof (ap_files _ _ _ A) as Hfs4.
  pose proof (ap_delayq _ _ _ A) as Hdq4.
  change (cursor s0) with (cursor s) in *.
  change (contents s0) with (contents s) in *.
  change (track_len_ptr s0) with (track_len_ptr s) in *.
  change (track_start_ptr s0) with (track_start_ptr s) in *.
  change (filename s0) with (filename s) in *.
  change (files s0) with (files s) in *.
  change (delayq s0) with (delay_after_flush (delayq s)) in *.
  clearbody s0. clear R A.
  destruct (filename s) as [name |] eqn:Hname; [| contradiction].
  rewrite Htl, Hts, Hc in *.
  assert (Hcur4 : c4 = total).
  { unfold total. rewrite ?Hc. rewrite <- Hcur. unfold cursor. now rewrite Hd4. }
  assert (Hcont4 : contents s4 = m4).
  { unfold contents, buffer_block. now rewrite Hv4, Hh4. }
  rewrite Hcont4 in *.
  unfold headroom, cursor in Hroom4. rewrite Hd4 in Hroom4.
  destruct s4 as [B4 dq4 vd4 d4 fn4 tl4 ts4 h4 n4 rp4 jk4 fs4].
  st; subst vd4 d4 fn4 tl4 ts4 dq4 fs4.
  unfold ptr_diff, store, write_file, free; st.
  rewrite Nat.eqb_refl; st.
  rewrite (u32_small (c4 - 22)) by lia.
  rewrite Hh4; st.
  change (18 + 0) with 18; change (18 + 1) with 19;
    change (18 + 2) with 20; change (18 + 3) with 21.
  in_bounds; st. rewrite heap_set_same; st.
  in_bounds; st. rewrite heap_set_same; st.
  in_bounds; st. rewrite heap_set_same; st.
  in_bounds; st. rewrite Nat.eqb_refl; st. rewrite heap_set_same; st.
  replace ((0 <=? 0) && (0 <=? c4 - 0) && (0 + (c4 - 0) <=? B4)) with true
    by (symmetry; rewrite !andb_true_iff; repeat split; apply Z.leb_le; lia).
  st. rewrite heap_set_same.
  eexists; exists name; eexists.
  split; [reflexivity |]. st.
  split; [reflexivity |]. split; [reflexivity |].
  split; [reflexivity |]. split; [reflexivity |].
  split; [reflexivity |]. split; [reflexivity |].
  split.
  { intros b0 o0 Hb0. destruct Ho as [Hvs _]. rewrite Hvs in Hb0.
    injection Hb0 as <- _. apply heap_set_same. }
  rewrite mem_read_length.
  split; [lia |].
  intros k Hk.
  rewrite mem_read_nth by exact Hk.
  replace (0 + Z.of_nat k) with (Z.of_nat k) by lia.
  assert (Hkz : Z.of_nat k < c4) by lia.
  rewrite <- Hcur4.
  unfold be32_bytes, mem_set.
  destruct (Z.eqb_spec (Z.of_nat k) 21) as [E | N21].
  { replace k with 21%nat by lia. reflexivity. }
  destruct (Z.eqb_spec (Z.of_nat k) 20) as [E | N20].
  { replace k with 20%nat by lia. reflexivity. }
  destruct (Z.eqb_spec (Z.of_nat k) 19) as [E | N19].
  { replace k with 19%nat by lia. reflexivity. }
  destruct (Z.eqb_spec (Z.of_nat k) 18) as [E | N18].
  { replace k with 18%nat by lia. reflexivity. }
  replace ((18 <=? Z.of_nat k) && (Z.of_nat k <? 22)) with false.
  2: { symmetry. apply andb_false_iff.
       destruct (Z.leb_spec 18 (Z.of_nat k)); [right | now left].
       apply Z.ltb_ge. lia. }
  destruct (Z.ltb_spec (Z.of_nat k) c) as [Hlt | Hge].
  - now apply Hold.
  - rewrite <- Hnew by lia. f_equal. lia.
Qed.

Lemma vgm_close_runs s :
  ready s -> streaming s -> stays_put s ->
  let tail := varlen_bytes (delayq s / 10) ++ end_of_track in
  let total := cursor s + Z.of_nat (List.length tail) in
  exists s' name bytes,
    vgm_close s = Ok tt s' /\
    filename s = Some name /\
    files s' = (name, bytes) :: files s /\
    delayq s' = delay_after_flush (delayq s) /\
    vgmdata s' = Null /\ data s' = Null /\ filename s' = None /\
    Z.of_nat (List.length bytes) = total /\
    forall k, (k < List.length bytes)%nat ->
      nth k bytes 0 =
      if (18 <=? Z.of_nat k) && (Z.of_nat k <? 22)
      then nth (k - 18) (be32_bytes (total - 22)) 0
      else if Z.of_nat k <? cursor s then contents s (Z.of_nat k)
      else nth (k - Z.to_nat (cursor s)) tail 0.
Proof.
  intros Hr Hs Hp tail total.
  destruct (vgm_close_runs_freeing s Hr Hs Hp)
    as (s' & name & bytes & R & Hn & Hf & Hd & Hv & Hda & Hfn & _ & Hl & Hk).
  exists s', name, bytes. repeat (split; [assumption |]). exact Hk.
Qed.

(** ** Concrete states *)

Ltac concrete := vm_compute; intuition congruence.

Lemma ok_final (o : outcome unit) :
  is_ok o = true -> o = Ok tt (final_state o).
Proof. destruct o as [[] s | f s]; [reflexivity | discriminate]. Qed.

Lemma fresh_stream_ready : ready fresh_stream.
Proof.
  unfold ready, open_buffer, headroom.
  split; [exists 1%nat, 22 |]; concrete.
Qed.

Lemma fresh_stream_streaming : streaming fresh_stream.
Proof. exists 1%nat, 22. unfold open_buffer. concrete. Qed.

Lemma fresh_stream_stays_put : stays_put fresh_stream.
Proof. left. unfold headroom. concrete. Qed.

Lemma sub_tick_stream_ready : ready sub_tick_stream.
Proof.
  unfold ready, open_buffer, headroom.
  split; [exists 1%nat, 22 |]; concrete.
Qed.

(** ** The delta time before every event (C1) *)

Lemma emitted_set_delayq d s s' : emitted (set_delayq d s) s' = emitted s s'.
Proof. reflexivity. Qed.

(** The end of a list that is known index by index. *)
Lemma skipn_by_nth (bytes tail : list Z) (c : nat) :
  List.length bytes = (c + List.length tail)%nat ->
  (forall k, (c <= k < List.length bytes)%nat ->
     nth k bytes 0 = nth (k - c) tail 0) ->
  skipn c bytes = tail.
Proof.
  intros Hlen Hnth. apply list_eq_nth.
  - rewrite length_skipn. lia.
  - intros k Hk. rewrite length_skipn in Hk.
    rewrite nth_skipn, Hnth by lia. f_equal. lia.
Qed.

(** What [vgm_close] writes after the bytes already in the buffer. *)
Lemma vgm_close_tail s :
  ready s -> streaming s -> stays_put s ->
  exists s' name bytes,
    vgm_close s = Ok tt s' /\
    files s' = (name, bytes) :: files s /\
    skipn (Z.to_nat (cursor s)) bytes
    = varlen_bytes (delayq s / 10) ++ end_of_track /\
    delayq s' = delay_after_flush (delayq s).
Proof.
  intros Hr Hs Hp.
  destruct (vgm_close_runs s Hr Hs Hp)
    as [s' [name [bytes [R [_ [Hf [Hd [_ [_ [_ [Hlen Hnth]]]]]]]]]]].
  exists s', name, bytes. repeat split; try assumption.
  destruct Hs as [b [c [Ho [Hc22 _]]]].
  pose proof (open_buffer_room _ _ _ Ho) as Hc. rewrite Hc in *.
  apply skipn_by_nth; [lia |].
  intros k Hk. rewrite Hnth by lia.
  replace ((18 <=? Z.of_nat k) && (Z.of_nat k <? 22)) with false
    by (symmetry; apply andb_false_iff; right; apply Z.ltb_ge; lia).
  destruct (Z.ltb_spec (Z.of_nat k) c); [lia | reflexivity].
Qed.

(** C1, as the code has it: in a stream that is ready for an event,
    [vgm_write] and [vgm_write_tag] each append the variable-length
    encoding of [delayq / 10] (truncating division) once, before anything
    else; so does [vgm_close] when, moreover, the stream is as [vgm_open]
    left it (the track pointers designate offsets 18 and 22 of the buffer
    and the file has a name) and the buffer is not moved while the end of
    the track is appended, the encoding being then the first thing the
    file holds after the bytes already in the buffer.  In each case the
    counter is reset to 0 when it held 10 or more (the remainder below one
    tick is then lost) and is left as it is when it held less than 10, so
    that a delay below one tick is carried over to the next event. *)
Theorem C1_flush_guarded_by_threshold : forall s,
  ready s ->
  (forall command port reg value, exists s',
      vgm_write command port reg value s = Ok tt s' /\
      emitted s s' = varlen_bytes (delayq s / 10)
                       ++ event_bytes command port reg value /\
      delayq s' = delay_after_flush (delayq s)) /\
  (forall gamename songid ts, exists s',
      vgm_write_tag gamename songid ts s = Ok tt s' /\
      emitted s s' = varlen_bytes (delayq s / 10)
                       ++ tag_bytes gamename songid ts /\
      delayq s' = delay_after_flush (delayq s)) /\
  (streaming s -> stays_put s -> exists s' name bytes,
      vgm_close s = Ok tt s' /\
      files s' = (name, bytes) :: files s /\
      skipn (Z.to_nat (cursor s)) bytes
      = varlen_bytes (delayq s / 10) ++ end_of_track /\
      delayq s' = delay_after_flush (delayq s)).
Proof.
  intros s Hr. repeat split.
  - intros command port reg value.
    destruct (vgm_write_appends command port reg value s Hr)
      as [s' [R [A _]]].
    exists s'. split; [exact R |]. split.
    + rewrite <- (emitted_set_delayq (delay_after_flush (delayq s))).
      now apply appended_emitted.
    + apply (ap_delayq _ _ _ A).
  - intros gamename songid ts.
    destruct (vgm_write_tag_appends gamename songid ts s Hr)
      as [s' [R [A _]]].
    exists s'. split; [exact R |]. split.
    + rewrite <- (emitted_set_delayq (delay_after_flush (delayq s))).
      now apply appended_emitted.
    + apply (ap_delayq _ _ _ A).
  - intros Hs Hp. now apply vgm_close_tail.
Qed.

Lemma C1_flush_guarded_by_threshold_witness :
  ready sub_tick_stream /\
  (exists s', vgm_write 0x90 0 60 100 sub_tick_stream = Ok tt s' /\
              delayq s' = delay_after_flush (delayq sub_tick_stream)) /\
  ready fresh_stream /\ streaming fresh_stream /\ stays_put fresh_stream /\
  (exists s' name bytes, vgm_close fresh_stream = Ok tt s' /\
                         files s' = (name, bytes) :: files fresh_stream).
Proof.
  split; [exact sub_tick_stream_ready |].
  split.
  { destruct (C1_flush_guarded_by_threshold sub_tick_stream
                sub_tick_stream_ready) as [Hw _].
    destruct (Hw 0x90 0 60 100) as [s' [R [_ Hd]]].
    exists s'. split; assumption. }
  split; [exact fresh_stream_ready |].
  split; [exact fresh_stream_streaming |].
  split; [exact fresh_stream_stays_put |].
  destruct (C1_flush_guarded_by_threshold fresh_stream fresh_stream_ready)
    as [_ [_ Hc]].
  destruct (Hc fresh_stream_streaming fresh_stream_stays_put)
    as [s' [name [bytes [R [Hf _]]]]].
  exists s', name, bytes. split; assumption.
Defined.

(** C1 as stated fails when fewer than 10 delay units are pending: with
    [delayq = 5], [vgm_write] appends the delta time 0 and the note on, and
    [delayq] is still 5 afterwards, where the spec's [flush_to_ticks]
    resets the counter. *)
Lemma C1_counterexample :
  ready sub_tick_stream /\ delayq sub_tick_stream = 5 /\
  exists s',
    vgm_write 0x90 0 60 100 sub_tick_stream = Ok tt s' /\
    emitted sub_tick_stream s' = [0x00; 0x90; 0x3C; 0x64] /\
    delayq s' = 5 /\
    delayq s' <> snd (Spec.flush_to_ticks 5).
Proof.
  split; [exact sub_tick_stream_ready |].
  split; [reflexivity |].
  exists (final_state (vgm_write 0x90 0 60 100 sub_tick_stream)).
  split; [apply ok_final; vm_compute; reflexivity |].
  split; [vm_compute; reflexivity |].
  split; [vm_compute; reflexivity |].
  vm_compute. discriminate.
Qed.

(** ** The event encoder (C3, C4) *)

(** The 14-bit split of the pitch bend, written on the value itself. *)
Lemma bend_lsb value :
  Z.land (Z.land value 0x3FFF) 0x7F = Z.land value 0x7F.
Proof. now rewrite <- Z.land_assoc. Qed.

Lemma bend_msb value :
  Z.land (Z.shiftr (Z.land value 0x3FFF) 7) 0x7F
  = Z.land (Z.shiftr value 7) 0x7F.
Proof. rewrite Z.shiftr_land, <- Z.land_assoc. reflexivity. Qed.

(** For a command that is a [uint8_t], the table of the code and the
    table of the spec differ only on the meta command 0xFF, and there only
    when [reg] does not fit in a byte. *)
Lemma event_bytes_spec command port reg value :
  0 <= command < 256 ->
  command <> 0xFF \/ 0 <= reg < 256 ->
  event_bytes command port reg value
  = Spec.event_bytes command port reg value.
Proof.
  intros Hc H. unfold event_bytes, Spec.event_bytes, end_of_track.
  rewrite bend_lsb, bend_msb, (u8_small command) by exact Hc.
  assert (E : (command =? 0xFF) && (Z.land reg 0xFF =? 0x2F)
              = (command =? 0xFF) && (reg =? 0x2F)).
  { destruct H as [H | H].
    - destruct (Z.eqb_spec command 0xFF); [contradiction | reflexivity].
    - replace (Z.land reg 0xFF) with reg; [reflexivity |].
      change 0xFF with (Z.ones 8).
      rewrite Z.land_ones, Z.mod_small by lia. reflexivity. }
  rewrite E. reflexivity.
Qed.

(** What [vgm_write] leaves between the old and the new cursor. *)
Lemma vgm_write_emitted command port reg value s :
  ready s ->
  exists s',
    vgm_write command port reg value s = Ok tt s' /\
    emitted s s' = varlen_bytes (delayq s / 10)
                     ++ event_bytes command port reg value /\
    cursor s' = cursor s
                + Z.of_nat (List.length (varlen_bytes (delayq s / 10)))
                + Z.of_nat (List.length
                              (event_bytes command port reg value)) /\
    delayq s' = delay_after_flush (delayq s).
Proof.
  intros Hr.
  destruct (vgm_write_appends command port reg value s Hr) as [s' [R [A _]]].
  exists s'. split; [exact R |]. split; [| split].
  - rewrite <- (emitted_set_delayq (delay_after_flush (delayq s))).
    now apply appended_emitted.
  - rewrite (ap_cursor _ _ _ A), length_app.
    change (cursor (set_delayq (delay_after_flush (delayq s)) s))
      with (cursor s). lia.
  - apply (ap_delayq _ _ _ A).
Qed.

(** C3, as the code has it: in a stream that is ready for an event,
    [vgm_write] appends the delta time and then exactly the bytes of the
    table: [status|channel, reg & 0x7F, value & 0x7F] for 0x90, 0x80 and
    0xB0, [status|channel, value & 0x7F] for 0xC0, [status|channel] and the
    two 7-bit halves of [value & 0x3FFF] for 0xE0, [FF 2F 00] for command
    0xFF when the low byte of [reg] is 0x2F, and nothing otherwise. *)
Theorem C3_event_table : forall command port reg value s,
  ready s ->
  exists s',
    vgm_write command port reg value s = Ok tt s' /\
    emitted s s' = varlen_bytes (delayq s / 10)
                     ++ event_bytes command port reg value /\
    cursor s' = cursor s
                + Z.of_nat (List.length (varlen_bytes (delayq s / 10)))
                + Z.of_nat (List.length
                              (event_bytes command port reg value)).
Proof.
  intros command port reg value s Hr.
  destruct (vgm_write_emitted command port reg value s Hr)
    as (s' & R & E & Hc & _).
  exists s'. split; [exact R |]. split; [exact E | exact Hc].
Qed.

Lemma C3_event_table_witness :
  ready fresh_stream /\
  exists s',
    vgm_write 0xE0 3 0 0x2345 fresh_stream = Ok tt s' /\
    emitted fresh_stream s'
    = varlen_bytes (delayq fresh_stream / 10) ++ event_bytes 0xE0 3 0 0x2345.
Proof.
  split; [exact fresh_stream_ready |].
  destruct (C3_event_table 0xE0 3 0 0x2345 fresh_stream fresh_stream_ready)
    as [s' [R [E _]]].
  exists s'. split; assumption.
Defined.

(** C3 as stated fails for command 0xFF with [reg = 0x12F]: [reg] is
    not 0x2F, so the table of the spec has no bytes for it, but the code
    tests [reg & 0xFF] and appends FF 2F 00. *)
Lemma C3_counterexample :
  ready fresh_stream /\
  Spec.event_bytes 0xFF 0 0x12F 0 = [] /\
  exists s',
    vgm_write 0xFF 0 0x12F 0 fresh_stream = Ok tt s' /\
    emitted fresh_stream s' = [0x00; 0xFF; 0x2F; 0x00] /\
    emitted fresh_stream s'
    <> varlen_bytes (delayq fresh_stream / 10)
         ++ Spec.event_bytes 0xFF 0 0x12F 0.
Proof.
  split; [exact fresh_stream_ready |].
  split; [reflexivity |].
  exists (final_state (vgm_write 0xFF 0 0x12F 0 fresh_stream)).
  split; [apply ok_final; vm_compute; reflexivity |].
  split; [vm_compute; reflexivity |].
  vm_compute. discriminate.
Qed.

(** The commands of the claim that have no message. *)
Lemma unsupported_examples command port reg value :
  Z.land command 0xF0 = 0xA0 \/
  (command = 0xFF /\ Z.land reg 0xFF <> 0x2F) \/
  command = 0xF0 \/ command = 0xF7 ->
  event_bytes command port reg value = [].
Proof.
  unfold event_bytes.
  intros [H | [[-> H] | [-> | ->]]]; try reflexivity.
  - rewrite H. cbn [Z.eqb Pos.eqb].
    destruct (Z.eqb_spec (u8 command) 0xFF) as [E | _]; [| reflexivity].
    exfalso. rewrite <- (land_u8 command 0xF0), E in H by lia.
    discriminate H.
  - change (Z.land 0xFF 0xF0) with 0xF0. change (u8 0xFF) with 0xFF.
    cbn [Z.eqb Pos.eqb andb].
    destruct (Z.eqb_spec (Z.land reg 0xFF) 0x2F); [contradiction |].
    reflexivity.
Qed.

(** C4, as the code has it: when the table has no message for the call
    (for command 0xFF: when the low byte of [reg] is not 0x2F), [vgm_write]
    in a stream that is ready for an event still appends the pending delta
    time, and nothing after it.  With an empty accumulator, [vgm_delay(30)]
    followed by such a call appends the single byte 0x03 and leaves the
    accumulator at 0, so that the next event starts with the delta time
    0. *)
Theorem C4_unsupported_keeps_timing : forall command port reg value s,
  ready s ->
  event_bytes command port reg value = [] ->
  (exists s',
      vgm_write command port reg value s = Ok tt s' /\
      emitted s s' = varlen_bytes (delayq s / 10)) /\
  (delayq s = 0 ->
   exists s1 s2,
     vgm_delay 30 s = Ok tt s1 /\
     vgm_write command port reg value s1 = Ok tt s2 /\
     emitted s1 s2 = [0x03] /\
     delayq s2 = 0 /\
     forall command' port' reg' value',
       ready s2 ->
       exists s3,
         vgm_write command' port' reg' value' s2 = Ok tt s3 /\
         emitted s2 s3 = 0x00 :: event_bytes command' port' reg' value').
Proof.
  intros command port reg value s Hr Hnone. split.
  - destruct (vgm_write_emitted command port reg value s Hr)
      as [s' [R [E _]]].
    exists s'. split; [exact R |].
    now rewrite E, Hnone, app_nil_r.
  - intros Hd.
    set (s1 := set_delayq (u32 (delayq s + 30)) s).
    assert (Hr1 : ready s1).
    { destruct Hr as [Ho [_ Hrest]]. split; [exact Ho |].
      split; [apply u32_range | exact Hrest]. }
    assert (Hd1 : delayq s1 = 30) by (unfold s1; rewrite Hd; reflexivity).
    destruct (vgm_write_appends command port reg value s1 Hr1)
      as [s2 [R [A _]]].
    exists s1, s2. split; [reflexivity |]. split; [exact R |].
    rewrite Hd1, Hnone in A.
    change (varlen_bytes (30 / 10) ++ []) with [0x03] in A.
    change (delay_after_flush 30) with 0 in A.
    split; [now rewrite <- (emitted_set_delayq 0), (appended_emitted _ _ _ A) |].
    assert (Hd2 : delayq s2 = 0) by apply (ap_delayq _ _ _ A).
    split; [exact Hd2 |].
    intros command' port' reg' value' Hr2.
    destruct (vgm_write_emitted command' port' reg' value' s2 Hr2)
      as [s3 [R3 [E3 _]]].
    exists s3. split; [exact R3 |].
    rewrite E3, Hd2. reflexivity.
Qed.

Lemma C4_unsupported_keeps_timing_witness :
  ready fresh_stream /\ event_bytes 0xA0 0 0 0 = [] /\
  delayq fresh_stream = 0 /\
  exists s1 s2,
    vgm_delay 30 fresh_stream = Ok tt s1 /\
    vgm_write 0xA0 0 0 0 s1 = Ok tt s2 /\
    emitted s1 s2 = [0x03] /\ delayq s2 = 0.
Proof.
  split; [exact fresh_stream_ready |].
  split; [reflexivity |].
  split; [reflexivity |].
  destruct (C4_unsupported_keeps_timing 0xA0 0 0 0 fresh_stream
              fresh_stream_ready eq_refl) as [_ H].
  destruct (H eq_refl) as [s1 [s2 [R1 [R2 [E [D _]]]]]].
  exists s1, s2. repeat split; assumption.
Defined.

(** C4 as stated fails for command 0xFF with [reg = 0x22F]: the claim
    counts it as unsupported ([reg] is not 0x2F), yet after the delta time
    03 the code appends the payload FF 2F 00. *)
Lemma C4_counterexample :
  Spec.unsupported 0xFF 0x22F /\
  exists s',
    vgm_write 0xFF 0 0x22F 0 (started [Open "song"; Delay 30]) = Ok tt s' /\
    emitted (started [Open "song"; Delay 30]) s'
    = [0x03; 0xFF; 0x2F; 0x00] /\
    emitted (started [Open "song"; Delay 30]) s' <> [0x03].
Proof.
  split; [reflexivity |].
  exists (final_state
            (vgm_write 0xFF 0 0x22F 0 (started [Open "song"; Delay 30]))).
  split; [apply ok_final; vm_compute; reflexivity |].
  split; [vm_compute; reflexivity |].
  vm_compute. discriminate.
Qed.

(** ** The stubs (C10) *)

(** C10: [vgm_poke32], [vgm_poke8], [vgm_datablock] and [vgm_setloop]
    return with the state they were called in, whatever their arguments:
    buffer, cursor, delay accumulator, track pointers and file name are
    untouched. *)
Theorem C10_stubs_change_nothing :
  forall s offset d dbtype dbsize datablock maxsize mask flags,
    vgm_poke32 offset d s = Ok tt s /\
    vgm_poke8 offset d s = Ok tt s /\
    vgm_datablock dbtype dbsize datablock maxsize mask flags s = Ok tt s /\
    vgm_setloop s = Ok tt s.
Proof. intros; repeat split. Qed.

(** ** The scenario of the spec (C2) *)

(** C2, as the code has it: the scenario returns and writes one file,
    "song.mid", whose track data is 00 90 3C 64, 05 80 3C 00, 00 FF 2F 00;
    the track length patched in at offset 18 is 12, the number of these
    bytes. *)
Theorem C2_scenario_track :
  exists s bytes,
    run scenario (boot (always AllocSame) junk_AA) = Ok tt s /\
    files s = [("song.mid"%string, bytes)] /\
    track_payload bytes
    = [0x00; 0x90; 0x3C; 0x64; 0x05; 0x80; 0x3C; 0x00;
       0x00; 0xFF; 0x2F; 0x00] /\
    track_length_field bytes = 12 /\
    firstn 14 bytes = header_chunk.
Proof.
  exists (started scenario),
         (snd (hd (EmptyString, []) (files (started scenario)))).
  split; [apply ok_final; vm_compute; reflexivity |].
  repeat split; vm_compute; reflexivity.
Qed.

(** C2 as stated fails on the length: the field holds 12, not 11. *)
Lemma C2_counterexample :
  ~ (exists s name bytes,
       run scenario (boot (always AllocSame) junk_AA) = Ok tt s /\
       files s = [(name, bytes)] /\
       track_length_field bytes = 11).
Proof.
  intros [s [name [bytes [R [F L]]]]].
  assert (E : s = started scenario).
  { unfold started. now rewrite R. }
  subst s.
  assert (Hb : bytes = snd (hd (EmptyString, []) (files (started scenario))))
    by (now rewrite F).
  subst bytes. vm_compute in L. discriminate.
Qed.

(** ** Closing twice (C8) *)

Lemma bind_ok {A B : Type} (m : M A) (k : A -> M B) s b s' :
  bind m k s = Ok b s' ->
  exists a s1, m s = Ok a s1 /\ k a s1 = Ok b s'.
Proof.
  unfold bind. destruct (m s) as [a s1 | f s1]; [| discriminate].
  intros H. now exists a, s1.
Qed.

(** After [vgm_close] the globals [vgmdata], [data] and [filename] are
    null. *)
Lemma vgm_close_nulls s s1 :
  vgm_close s = Ok tt s1 ->
  vgmdata s1 = Null /\ data s1 = Null /\ filename s1 = None.
Proof.
  unfold vgm_close. intros H.
  do 11 (apply bind_ok in H; destruct H as [? [? [_ H]]]).
  unfold bind, modify in H. injection H as <-.
  repeat split.
Qed.

Lemma write_u8_null v s : data s = Null -> write_u8 v s = Fault NullPointer s.
Proof.
  intros Hd. unfold write_u8, bind, get, store. now rewrite Hd.
Qed.

Lemma write_varlen_null t s :
  0 <= t < 2 ^ 32 -> data s = Null ->
  write_varlen t s = Fault NullPointer s.
Proof.
  intros Ht Hd. destruct (varlen_start_some t Ht) as [res Hres].
  unfold write_varlen. rewrite Hres.
  apply varlen_loop_length in Hres. cbn [List.length] in Hres.
  destruct (List.length res) as [|i]; [lia |].
  cbn [write_down]. unfold bind. now rewrite write_u8_null.
Qed.

Lemma delay_after_flush_range d :
  0 <= d < 2 ^ 32 -> 0 <= delay_after_flush d < 2 ^ 32.
Proof. unfold delay_after_flush. destruct (10 <=? d); lia. Qed.

(** C8, as the code has it: [vgm_close] has no error to report.  Called
    again after a close that returned, it stores the first byte of the
    delta time through the null [data]: the behaviour is undefined, and in
    the model the call stops there, before the file is written and before
    anything is freed; it does not return. *)
Theorem C8_second_close_faults : forall s s1,
  vgm_close s = Ok tt s1 ->
  0 <= delayq s1 < 2 ^ 32 ->
  exists s2,
    vgm_close s1 = Fault NullPointer s2 /\
    files s2 = files s1 /\ heap s2 = heap s1 /\
    ~ returns (vgm_close s1).
Proof.
  intros s s1 H Hd.
  destruct (vgm_close_nulls _ _ H) as [_ [Hdata _]].
  assert (Ht : 0 <= delayq s1 / 10 < 2 ^ 32).
  { split; [apply Z.div_pos; lia | apply Z.div_lt_upper_bound; lia]. }
  assert (R : vgm_close s1
              = Fault NullPointer
                  (set_delayq (delay_after_flush (delayq s1)) s1)).
  { unfold vgm_close. rewrite flush_prologue by lia.
    unfold bind at 1. now rewrite write_varlen_null. }
  exists (set_delayq (delay_after_flush (delayq s1)) s1).
  split; [exact R |]. split; [reflexivity |]. split; [reflexivity |].
  intros [a [s' E]]. rewrite R in E. discriminate.
Qed.

Lemma C8_second_close_faults_witness :
  vgm_close fresh_stream = Ok tt (final_state (vgm_close fresh_stream)) /\
  0 <= delayq (final_state (vgm_close fresh_stream)) < 2 ^ 32 /\
  exists s2,
    vgm_close (final_state (vgm_close fresh_stream))
    = Fault NullPointer s2 /\
    files s2 = files (final_state (vgm_close fresh_stream)).
Proof.
  assert (H1 : vgm_close fresh_stream
               = Ok tt (final_state (vgm_close fresh_stream)))
    by (apply ok_final; vm_compute; reflexivity).
  assert (H2 : 0 <= delayq (final_state (vgm_close fresh_stream)) < 2 ^ 32)
    by (vm_compute; intuition congruence).
  split; [exact H1 |]. split; [exact H2 |].
  destruct (C8_second_close_faults _ _ H1 H2) as [s2 [R [F _]]].
  exists s2. split; assumption.
Defined.

(** C8 as stated fails: in the program that opens a stream and closes it
    twice, the second [vgm_close] does not return to its caller with an
    error; it ends in a store through a null pointer.  One file has been
    written by then, by the first close. *)
Lemma C8_counterexample :
  ~ returns (run [Open "song"; Close; Close]
                 (boot (always AllocSame) junk_AA)) /\
  fault_of (run [Open "song"; Close; Close]
                (boot (always AllocSame) junk_AA)) = Some NullPointer /\
  List.length (files (started [Open "song"; Close; Close])) = 1%nat.
Proof.
  split.
  - intros [a [s E]].
    assert (F : is_ok (run [Open "song"; Close; Close]
                           (boot (always AllocSame) junk_AA)) = false)
      by (vm_compute; reflexivity).
    rewrite E in F. discriminate.
  - split; vm_compute; reflexivity.
Qed.

(** ** The variable-length quantity (C7) *)

(** C7: for every x in [0, 2^28 - 1], in a stream that is ready for an
    event [write_varlen] returns, and decoding the bytes it has appended
    for x (7-bit groups, most significant first, up to the first byte
    without the bit 0x80) gives x again, with nothing left over; it has
    appended at most 5 bytes. *)
Theorem C7_varlen_round_trip : forall x s,
  0 <= x <= 2 ^ 28 - 1 -> ready s ->
  exists s',
    write_varlen x s = Ok tt s' /\
    varlen_decode (emitted s s') = Some (x, []) /\
    (List.length (emitted s s') <= 5)%nat /\
    cursor s' = cursor s + Z.of_nat (List.length (emitted s s')).
Proof.
  intros x s Hx Hr.
  assert (Hx32 : 0 <= x < 2 ^ 32) by lia.
  destruct (write_varlen_ready x s Hx32 Hr) as (s' & R & E & Hc).
  exists s'. split; [exact R |]. rewrite E.
  split.
  { rewrite <- (app_nil_r (varlen_bytes x)). now apply varlen_round_trip. }
  split; [now apply varlen_bytes_length | exact Hc].
Qed.

Lemma C7_varlen_round_trip_witness :
  0 <= 200000 <= 2 ^ 28 - 1 /\ ready fresh_stream /\
  exists s',
    write_varlen 200000 fresh_stream = Ok tt s' /\
    varlen_decode (emitted fresh_stream s') = Some (200000, []) /\
    (List.length (emitted fresh_stream s') <= 5)%nat.
Proof.
  split; [lia |]. split; [exact fresh_stream_ready |].
  destruct (C7_varlen_round_trip 200000 fresh_stream ltac:(lia)
              fresh_stream_ready) as (s' & R & D & L & _).
  exists s'. split; [exact R |]. split; [exact D | exact L].
Defined.

(** ** The header survives every call (C5) *)

Lemma preserves_ret {A : Type} (P : state -> Prop) (a : A) :
  preserves P (ret a).
Proof. intros s a' s' HP [= _ <-]. exact HP. Qed.

Lemma preserves_bind {A B : Type} (P : state -> Prop) (m : M A)
      (k : A -> M B) :
  preserves P m -> (forall a, preserves P (k a)) -> preserves P (bind m k).
Proof.
  intros Hm Hk s b s' HP H.
  apply bind_ok in H. destruct H as [a [s1 [H1 H2]]].
  eapply Hk; [| exact H2]. eapply Hm; eassumption.
Qed.

(** A computation that starts by reading the state. *)
Lemma preserves_get {B : Type} (P : state -> Prop) (k : state -> M B) :
  (forall s0, P s0 -> preserves P (k s0)) -> preserves P (bind get k).
Proof.
  intros Hk s b s' HP H. unfold bind, get in H.
  eapply Hk; eassumption.
Qed.

Lemma preserves_set_delayq fs d :
  preserves (header_kept fs) (modify (set_delayq d)).
Proof. intros s a s' HP [= _ <-]. exact HP. Qed.

Ltac keep_header c :=
  let k := fresh "k" in
  let Hk := fresh "Hk" in
  intros k Hk;
  match goal with
  | H : starts_with _ header_chunk |- _ => rewrite <- (H k Hk)
  end;
  change (List.length header_chunk) with 14%nat in Hk;
  unfold mem_keep, mem_set;
  repeat match goal with
  | |- context [if ?a <? ?b then _ else _] =>
      destruct (Z.ltb_spec a b); try lia
  | |- context [if ?a =? ?b then _ else _] =>
      destruct (Z.eqb_spec a b); try lia
  end; try reflexivity.

Lemma write_u8_keeps_header fs v : preserves (header_kept fs) (write_u8 v).
Proof.
  intros s a s'
    (b & c & m & Hv & Hd & Hh & Hc & Hb & (bt & Htl & Hbt & Hlive)
       & Hhdr & Hf) R.
  destruct s as [B dq vd d fn tl ts h n rp jk fs0]; st; subst.
  unfold write_u8, store, ptr_diff, realloc in R; st.
  rewrite Hh in R; st.
  destruct (Z.leb_spec 0 c); [| lia].
  destruct (Z.ltb_spec c B) as [HcB | HcB]; cbn [andb] in R; [| discriminate].
  destruct Hhdr as [Hhdr | Hsmall]; [| lia].
  st. rewrite Nat.eqb_refl in R; st.
  destruct (B - (c + 1 - 0) <? 1024); st.
  - rewrite heap_set_same in R.
    destruct (Z.eqb_spec (u32 (B * 2)) 0) as [Hz | Hz]; [discriminate |].
    pose proof (u32_range (B * 2)) as Hu.
    destruct (rp n) eqn:Hrp; st; rewrite ?Nat.eqb_refl in R;
      injection R as _ <-; unfold header_kept; st.
    + exists b, (c + 1), (mem_set m c v).
      rewrite heap_set_same. repeat split; try lia.
      * exists bt. repeat split; try lia.
        destruct Hlive as [-> | Hdead]; [now left |].
        destruct (Nat.eq_dec bt b) as [-> | Hne]; [now left | right].
        now rewrite !heap_set_other by assumption.
      * left. keep_header c.
    + exists b, (0 + (c + 1 - 0)),
        (mem_keep (mem_set m c v) (jk n) (Z.min B (u32 (B * 2)))).
      rewrite heap_set_same. repeat split; try lia.
      * exists bt. repeat split; try lia.
        destruct Hlive as [-> | Hdead]; [now left |].
        destruct (Nat.eq_dec bt b) as [-> | Hne]; [now left | right].
        now rewrite !heap_set_other by assumption.
      * destruct (Z.lt_ge_cases (u32 (B * 2)) 14); [now right | left].
        keep_header c.
    + exists n, (0 + (c + 1 - 0)),
        (mem_keep (mem_set m c v) (jk n) (Z.min B (u32 (B * 2)))).
      rewrite heap_set_same. repeat split; try lia.
      * exists bt. repeat split; try lia. right.
        rewrite heap_set_other by lia.
        destruct Hlive as [-> | Hdead]; [apply heap_set_same |].
        destruct (Nat.eq_dec bt b) as [-> | Hne]; [apply heap_set_same |].
        now rewrite !heap_set_other by assumption.
      * destruct (Z.lt_ge_cases (u32 (B * 2)) 14); [now right | left].
        keep_header c.
  - injection R as _ <-; unfold header_kept; st.
    exists b, (c + 1), (mem_set m c v).
    rewrite heap_set_same. repeat split; try lia.
    + exists bt. repeat split; try lia.
      destruct Hlive as [-> | Hdead]; [now left |].
      destruct (Nat.eq_dec bt b) as [-> | Hne]; [now left | right].
      now rewrite heap_set_other.
    + left. keep_header c.
Qed.

Ltac keep_header_copy c :=
  let k := fresh "k" in
  let Hk := fresh "Hk" in
  intros k Hk;
  match goal with
  | H : starts_with _ header_chunk |- _ => rewrite <- (H k Hk)
  end;
  change (List.length header_chunk) with 14%nat in Hk;
  unfold mem_keep;
  repeat match goal with
  | |- context [if ?a <? ?b then _ else _] =>
      destruct (Z.ltb_spec a b); try lia
  end; apply mem_write_outside; lia.

Lemma write_bytes_keeps_header fs l :
  preserves (header_kept fs) (write_bytes l).
Proof.
  intros s a s'
    (b & c & m & Hv & Hd & Hh & Hc & Hb & (bt & Htl & Hbt & Hlive)
       & Hhdr & Hf) R.
  destruct s as [B dq vd d fn tl ts h n rp jk fs0]; st; subst.
  unfold write_bytes, memcpy, ptr_diff, realloc in R; st.
  rewrite Hh in R; st.
  set (len := Z.of_nat (List.length l)) in *.
  assert (Hlen : 0 <= len) by apply Zle_0_nat.
  destruct (Z.leb_spec 0 c); [| lia].
  destruct (Z.leb_spec (c + len) B) as [HcB | HcB]; cbn [andb] in R;
    [| discriminate].
  destruct Hhdr as [Hhdr | Hsmall]; [| lia].
  st. rewrite Nat.eqb_refl in R; st.
  destruct (B - (c + len - 0) <? 1024); st.
  - rewrite heap_set_same in R.
    destruct (Z.eqb_spec (u32 (B * 2)) 0) as [Hz | Hz]; [discriminate |].
    pose proof (u32_range (B * 2)) as Hu.
    destruct (rp n) eqn:Hrp; st; rewrite ?Nat.eqb_refl in R;
      injection R as _ <-; unfold header_kept; st.
    + exists b, (c + len), (mem_write m c l).
      rewrite heap_set_same. repeat split; try lia.
      * exists bt. repeat split; try lia.
        destruct Hlive as [-> | Hdead]; [now left |].
        destruct (Nat.eq_dec bt b) as [-> | Hne]; [now left | right].
        now rewrite !heap_set_other by assumption.
      * left. keep_header_copy c.
    + exists b, (0 + (c + len - 0)),
        (mem_keep (mem_write m c l) (jk n) (Z.min B (u32 (B * 2)))).
      rewrite heap_set_same. repeat split; try lia.
      * exists bt. repeat split; try lia.
        destruct Hlive as [-> | Hdead]; [now left |].
        destruct (Nat.eq_dec bt b) as [-> | Hne]; [now left | right].
        now rewrite !heap_set_other by assumption.
      * destruct (Z.lt_ge_cases (u32 (B * 2)) 14); [now right | left].
        keep_header_copy c.
    + exists n, (0 + (c + len - 0)),
        (mem_keep (mem_write m c l) (jk n) (Z.min B (u32 (B * 2)))).
      rewrite heap_set_same. repeat split; try lia.
      * exists bt. repeat split; try lia. right.
        rewrite heap_set_other by lia.
        destruct Hlive as [-> | Hdead]; [apply heap_set_same |].
        destruct (Nat.eq_dec bt b) as [-> | Hne]; [apply heap_set_same |].
        now rewrite !heap_set_other by assumption.
      * destruct (Z.lt_ge_cases (u32 (B * 2)) 14); [now right | left].
        keep_header_copy c.
  - injection R as _ <-; unfold header_kept; st.
    exists b, (c + len), (mem_write m c l).
    rewrite heap_set_same. repeat split; try lia.
    + exists bt. repeat split; try lia.
      destruct Hlive as [-> | Hdead]; [now left |].
      destruct (Nat.eq_dec bt b) as [-> | Hne]; [now left | right].
      now rewrite !heap_set_other by assumption.
    + left. keep_header_copy c.
Qed.

Lemma write_down_keeps_header fs buffer idx :
  preserves (header_kept fs) (write_down buffer idx).
Proof.
  induction idx as [|i IH]; cbn [write_down].
  - apply preserves_ret.
  - apply preserves_bind; [apply write_u8_keeps_header | intros _; exact IH].
Qed.

Lemma write_varlen_keeps_header fs value :
  preserves (header_kept fs) (write_varlen value).
Proof.
  unfold write_varlen.
  destruct (varlen_loop 4 (Z.shiftr value 7) [Z.land value 127]).
  - apply write_down_keeps_header.
  - intros s a s' _ H. discriminate.
Qed.

Ltac keeps :=
  lazymatch goal with
  | |- preserves _ (ret _) => apply preserves_ret
  | |- preserves _ (write_u8 _) => apply write_u8_keeps_header
  | |- preserves _ (write_bytes _) => apply write_bytes_keeps_header
  | |- preserves _ (write_varlen _) => apply write_varlen_keeps_header
  | |- preserves _ (modify (set_delayq _)) => apply preserves_set_delayq
  | |- preserves _ flush_delay_get_ticks =>
      unfold flush_delay_get_ticks; keeps
  | |- preserves _ (bind get _) =>
      apply preserves_get; intros ? _; keeps
  | |- preserves _ (bind _ _) =>
      apply preserves_bind; [keeps | intros ?; keeps]
  | |- preserves _ (if ?c then _ else _) => destruct c; keeps
  end.

Lemma vgm_write_keeps_header fs command port reg value :
  preserves (header_kept fs) (vgm_write command port reg value).
Proof. unfold vgm_write. cbv zeta. keeps. Qed.

Lemma vgm_write_tag_keeps_header fs gamename songid ts :
  preserves (header_kept fs) (vgm_write_tag gamename songid ts).
Proof. unfold vgm_write_tag. cbv zeta. keeps. Qed.

Lemma vgm_delay_keeps_header fs delay :
  preserves (header_kept fs) (vgm_delay delay).
Proof. unfold vgm_delay. keeps. Qed.

(** Every call but [vgm_open] and [vgm_close], and so every sequence of
    them. *)
Lemma stream_call_keeps_header fs c :
  stream_call c -> preserves (header_kept fs) (exec c).
Proof.
  destruct c; cbn [stream_call exec]; intros Hc; try contradiction.
  - apply vgm_write_keeps_header.
  - apply vgm_delay_keeps_header.
  - apply vgm_write_tag_keeps_header.
  - apply preserves_ret.
  - apply preserves_ret.
  - apply preserves_ret.
  - apply preserves_ret.
Qed.

Lemma run_keeps_header fs cs :
  Forall stream_call cs -> preserves (header_kept fs) (run cs).
Proof.
  induction 1 as [|c cs Hc _ IH]; cbn [run].
  - apply preserves_ret.
  - apply preserves_bind; [now apply stream_call_keeps_header |].
    intros _; exact IH.
Qed.

Lemma header_kept_in_buffer fs s : header_kept fs s -> header_in_buffer fs s.
Proof.
  intros (b & c & m & Hv & Hd & Hh & Hc & _ & _ & Hhdr & Hf).
  now exists b, c, m.
Qed.

(** A store behind the header chunk keeps it. *)
Lemma store_keeps_header fs bt o v :
  14 <= o -> preserves (header_in_buffer fs) (store (Ptr bt o) v).
Proof.
  intros Ho s a s' (b & c & m & Hv & Hd & Hh & Hc & Hhdr & Hf) R.
  unfold store in R.
  destruct (heap s bt) as [blk |] eqn:Hbt; [| discriminate].
  destruct ((0 <=? o) && (o <? blk_size blk)); [| discriminate].
  injection R as _ <-.
  destruct (Nat.eq_dec bt b) as [-> | Hne].
  - rewrite Hh in Hbt. injection Hbt as <-. cbn [blk_size blk_bytes].
    exists b, c, (mem_set m o v). st.
    rewrite heap_set_same. repeat split; try assumption.
    destruct Hhdr as [Hhdr | Hsmall]; [left | now right].
    intros k Hk. rewrite <- (Hhdr k Hk).
    change (List.length header_chunk) with 14%nat in Hk.
    unfold mem_set. destruct (Z.eqb_spec (Z.of_nat k) o); [lia | reflexivity].
  - exists b, c, m. st.
    rewrite heap_set_other by congruence. repeat split; assumption.
Qed.

Lemma ptr_diff_keeps (P : state -> Prop) p q : preserves P (ptr_diff p q).
Proof.
  intros s a s' HP R. unfold ptr_diff in R.
  destruct p as [| b o]; [discriminate |].
  destruct q as [| b' o']; [discriminate |].
  destruct (Nat.eqb b b'); [| discriminate].
  now injection R as _ <-.
Qed.

Lemma header_read m c :
  starts_with m header_chunk -> 14 <= c ->
  firstn 14 (mem_read m 0 c) = header_chunk.
Proof.
  intros Hm Hc. apply list_eq_nth.
  - rewrite length_firstn, mem_read_length.
    change (List.length header_chunk) with 14%nat. lia.
  - intros k Hk. rewrite length_firstn, mem_read_length in Hk.
    rewrite nth_firstn.
    destruct (Nat.ltb_spec k 14); [| lia].
    rewrite mem_read_nth by lia. apply Hm.
    change (List.length header_chunk) with 14%nat. lia.
Qed.

(** When [vgm_close] returns, the file it has written starts with the
    header chunk. *)
Lemma vgm_close_keeps_header fs s s' :
  header_kept fs s -> vgm_close s = Ok tt s' ->
  exists name bytes,
    files s' = (name, bytes) :: fs /\ firstn 14 bytes = header_chunk.
Proof.
  intros HK H. unfold vgm_close in H.
  apply bind_ok in H. destruct H as (s0 & s1 & [= <- <-] & H).
  apply bind_ok in H. destruct H as ([] & s2 & H2 & H).
  assert (K2 : header_kept fs s2).
  { match type of H2 with
    | ?m _ = _ => assert (P2 : preserves (header_kept fs) m) by keeps
    end.
    exact (P2 _ _ _ HK H2). }
  apply bind_ok in H. destruct H as ([] & s3 & H3 & H).
  pose proof (write_u8_keeps_header fs _ _ _ _ K2 H3) as K3.
  apply bind_ok in H. destruct H as ([] & s4 & H4 & H).
  pose proof (write_u8_keeps_header fs _ _ _ _ K3 H4) as K4.
  apply bind_ok in H. destruct H as ([] & s5 & H5 & H).
  pose proof (write_u8_keeps_header fs _ _ _ _ K4 H5) as K5.
  apply bind_ok in H. destruct H as (s5' & s5'' & [= <- <-] & H).
  apply bind_ok in H. destruct H as ([] & s6 & H6 & H).
  assert (K6 : header_in_buffer fs s6).
  { destruct K5 as (b & c & m & Hv & Hd & Hh & Hc & Hb
                      & (bt & Htl & Hbt & Hlive) & Hhdr & Hf).
    assert (K5 : header_in_buffer fs s5) by (now exists b, c, m).
    rewrite Htl in H6.
    destruct (track_start_ptr s5) as [| bs os].
    - injection H6 as <-. exact K5.
    - match type of H6 with
      | ?m _ = _ => assert (P6 : preserves (header_in_buffer fs) m)
      end.
      { apply preserves_bind; [apply ptr_diff_keeps | intros d].
        cbn [ptr_add].
        repeat (apply preserves_bind;
                [apply store_keeps_header; lia | intros _]).
        apply store_keeps_header; lia. }
      exact (P6 _ _ _ K5 H6). }
  clear - K6 H.
  destruct K6 as (b & c & m & Hv & Hd & Hh & Hc & Hhdr & Hf).
  destruct s6 as [B dq vd d fn tl ts h n rp jk fs0]; st; subst.
  unfold ptr_diff, write_file, free in H; st.
  rewrite Nat.eqb_refl in H; st.
  destruct fn as [name |]; [| discriminate].
  rewrite Hh in H; st.
  destruct ((0 <=? 0) && (0 <=? c - 0) && (0 + (c - 0) <=? B)) eqn:Hin;
    [| discriminate].
  st. rewrite Hh in H.
  injection H as <-. st.
  exists name, (mem_read m 0 (c - 0)). split; [reflexivity |].
  apply andb_true_iff in Hin. destruct Hin as [_ Hin].
  apply Z.leb_le in Hin.
  destruct Hhdr as [Hhdr | Hsmall]; [| lia].
  apply header_read; [assumption | lia].
Qed.

(** ** Opening a stream *)

Ltac assoc_binds :=
  unfold bind;
  repeat match goal with
         | |- context [match ?m ?s with Ok _ _ => _ | Fault _ _ => _ end] =>
             destruct (m s) as [[] ? | ? ?]; try reflexivity
         end.

Lemma open_head_emits :
  emits (write_bytes (bytes_of_string "MThd") ;; write_be32 6 ;;
         write_be16 0 ;; write_be16 1 ;; write_be16 480 ;;
         write_bytes (bytes_of_string "MTrk"))
        (header_chunk ++ bytes_of_string "MTrk").
Proof.
  unfold header_chunk. rewrite <- !app_assoc.
  apply emits_bind; [apply write_bytes_emits |].
  apply emits_bind; [apply write_be32_emits |].
  apply emits_bind; [apply write_be16_emits |].
  apply emits_bind; [apply write_be16_emits |].
  apply emits_bind; [apply write_be16_emits |].
  apply write_bytes_emits.
Qed.

Lemma open_head_assoc (k : M unit) s :
  (write_bytes (bytes_of_string "MThd") ;; write_be32 6 ;;
   write_be16 0 ;; write_be16 1 ;; write_be16 480 ;;
   write_bytes (bytes_of_string "MTrk") ;; k) s
  = ((write_bytes (bytes_of_string "MThd") ;; write_be32 6 ;;
      write_be16 0 ;; write_be16 1 ;; write_be16 480 ;;
      write_bytes (bytes_of_string "MTrk")) ;; k) s.
Proof. assoc_binds. Qed.

(** When both allocations succeed, [vgm_open] leaves a stream that is
    ready for events: 22 bytes are in the buffer (the header chunk, "MTrk"
    and four zero bytes), the track pointers designate offsets 18 and 22,
    and the delay accumulator is empty. *)
Lemma vgm_open_opens fname s0 :
  alloc_reply s0 (allocs s0) <> AllocFail ->
  alloc_reply s0 (S (allocs s0)) <> AllocFail ->
  exists s1,
    vgm_open fname s0 = Ok tt s1 /\
    ready s1 /\ streaming s1 /\ stays_put s1 /\
    header_kept (files s0) s1 /\
    cursor s1 = 22 /\ delayq s1 = 0 /\
    filename s1 = Some (with_mid_extension fname) /\
    buffer_size s1 = MIDI_BUFFER /\
    alloc_reply s1 = alloc_reply s0 /\
    allocs s1 = S (S (allocs s0)) /\
    vgmdata s1 = Ptr (S (allocs s0)) 0 /\
    forall k, (k < 22)%nat -> contents s1 (Z.of_nat k) = nth k open_bytes 0.
Proof.
  intros Hr0 Hr1.
  destruct s0 as [B0 dq0 vd0 d0 fn0 tl0 ts0 h0 n rp jk fs]; st.
  set (sa := mkState MIDI_BUFFER 0 (Ptr (S n) 0) (Ptr (S n) 0)
               (Some (with_mid_extension fname)) tl0 ts0
               (heap_set
                  (heap_set
                     (heap_set h0 n
                        (Some (mkBlock (Z.of_nat (String.length fname) + 8)
                                       (jk n))))
                     (S n) (Some (mkBlock MIDI_BUFFER (jk (S n)))))
                  (S n)
                  (Some (mkBlock MIDI_BUFFER
                           (mem_fill (jk (S n)) 0 MIDI_BUFFER 0))))
               (S (S n)) rp jk fs).
  assert (Hstart : forall k : M unit,
            vgm_open fname
              (mkState B0 dq0 vd0 d0 fn0 tl0 ts0 h0 n rp jk fs)
            = (write_bytes (bytes_of_string "MThd") ;; write_be32 6 ;;
               write_be16 0 ;; write_be16 1 ;; write_be16 480 ;;
               write_bytes (bytes_of_string "MTrk") ;;
               s <- get ;; modify (set_track_len_ptr (data s)) ;;
               write_be32 0 ;;
               s <- get ;; modify (set_track_start_ptr (data s))) sa).
  { intros _. unfold vgm_open, malloc, memset; st.
    destruct (rp n); [contradiction | |];
      (st; destruct (rp (S n)); [contradiction | |];
       st; rewrite heap_set_same; reflexivity). }
  rewrite (Hstart (ret tt)). clear Hstart.
  rewrite open_head_assoc.
  assert (Ba : budget sa 1024).
  { split; [exists (S n), 0; unfold open_buffer, sa; st;
            rewrite heap_set_same; repeat split; try reflexivity;
            unfold MIDI_BUFFER; lia |].
    unfold headroom, cursor, sa; st. unfold MIDI_BUFFER. lia. }
  destruct (open_head_emits sa 1024 Ba) as [s18 [R18 [A18 B18]]];
    [cbn; lia |].
  unfold bind at 1. rewrite R18.
  change (Z.of_nat (List.length (header_chunk ++ bytes_of_string "MTrk")))
    with 18 in *.
  destruct (ap_quiet _ _ _ A18) as [Hv18 [Hn18 Hs18]];
    [unfold headroom, cursor, sa; st; unfold MIDI_BUFFER; cbn; lia |].
  pose proof (ap_cursor _ _ _ A18) as Hc18.
  change (cursor sa) with 0 in Hc18. cbn in Hc18.
  assert (Hd18 : data s18 = Ptr (S n) 18).
  { destruct B18 as [[b [c [Hv [Hd _]]]] _].
    rewrite Hv18 in Hv. change (vgmdata sa) with (Ptr (S n) 0) in Hv.
    injection Hv as <-. unfold cursor in Hc18. rewrite Hd in Hc18.
    now rewrite Hd, Hc18. }
  unfold bind at 1, get. unfold bind at 1, modify. rewrite Hd18.
  set (s18' := set_track_len_ptr (Ptr (S n) 18) s18).
  assert (B18' : budget s18' (1024 - 18)) by exact B18.
  destruct (write_be32_emits 0 s18' _ B18') as [s22 [R22 [A22 B22]]];
    [cbn; lia |].
  unfold bind at 1. rewrite R22. unfold bind, get, modify.
  change (Z.of_nat (List.length (be32_bytes 0))) with 4 in *.
  destruct (ap_quiet _ _ _ A22) as [Hv22 [Hn22 Hs22]].
  { change (headroom s18') with (headroom s18).
    unfold headroom. rewrite Hs18, Hc18.
    change (buffer_size sa) with MIDI_BUFFER. unfold MIDI_BUFFER. cbn. lia. }
  change (vgmdata s18') with (vgmdata s18) in Hv22.
  change (allocs s18') with (allocs s18) in Hn22.
  change (buffer_size s18') with (buffer_size s18) in Hs22.
  pose proof (ap_cursor _ _ _ A22) as Hc22.
  change (cursor s18') with (cursor s18) in Hc22.
  rewrite Hc18 in Hc22. cbn in Hc22.
  destruct B22 as [[b [c [Hv [Hd [Hsz [Hc H32]]]]]] [Hroom _]].
  rewrite Hv22, Hv18 in Hv. change (vgmdata sa) with (Ptr (S n) 0) in Hv.
  injection Hv as <-.
  assert (c = 22) as -> by (unfold cursor in Hc22; now rewrite Hd in Hc22).
  destruct (sized_block _ _ _ Hsz) as [m Hh].
  assert (Hsize : buffer_size s22 = MIDI_BUFFER) by (now rewrite Hs22, Hs18).
  assert (Hvd : vgmdata s22 = Ptr (S n) 0) by (now rewrite Hv22, Hv18).
  assert (Hcont : contents s22 = m).
  { unfold contents, buffer_block. now rewrite Hvd, Hh. }
  assert (Hbytes : forall k, (k < 22)%nat ->
            m (Z.of_nat k) = nth k open_bytes 0).
  { intros k Hk. rewrite <- Hcont.
    unfold open_bytes. rewrite app_assoc.
    destruct (Nat.lt_ge_cases k 18) as [Hlt | Hge].
    - rewrite app_nth1 by exact Hlt.
      rewrite (ap_old _ _ _ A22)
        by (change (cursor s18') with (cursor s18); lia).
      change (contents s18') with (contents s18).
      rewrite <- (ap_new _ _ _ A18) by exact Hlt.
      change (cursor sa) with 0. f_equal.
    - rewrite app_nth2 by exact Hge.
      change (List.length (header_chunk ++ bytes_of_string "MTrk"))
        with 18%nat.
      rewrite <- (ap_new _ _ _ A22) by (cbn; lia).
      change (cursor s18') with (cursor s18). rewrite Hc18. f_equal. lia. }
  pose proof (ap_delayq _ _ _ A22) as Hdq.
  change (delayq s18') with (delayq s18) in Hdq.
  rewrite (ap_delayq _ _ _ A18) in Hdq. change (delayq sa) with 0 in Hdq.
  pose proof (ap_filename _ _ _ A22) as Hfn.
  change (filename s18') with (filename s18) in Hfn.
  rewrite (ap_filename _ _ _ A18) in Hfn.
  change (filename sa) with (Some (with_mid_extension fname)) in Hfn.
  pose proof (ap_files _ _ _ A22) as Hfs.
  change (files s18') with (files s18) in Hfs.
  rewrite (ap_files _ _ _ A18) in Hfs. change (files sa) with fs in Hfs.
  pose proof (ap_track_len _ _ _ A22) as Htl.
  change (track_len_ptr s18') with (Ptr (S n) 18) in Htl.
  pose proof (ap_reply _ _ _ A22) as Hrp.
  change (alloc_reply s18') with (alloc_reply s18) in Hrp.
  rewrite (ap_reply _ _ _ A18) in Hrp. change (alloc_reply sa) with rp in Hrp.
  assert (Hn : allocs s22 = S (S n)) by (now rewrite Hn22, Hn18).
  rewrite Hd.
  set (s1 := set_track_start_ptr (Ptr (S n) 22) s22).
  assert (Ho : open_buffer s1 (S n) 22).
  { unfold open_buffer, s1; st. rewrite Hvd, Hd, Hh. cbn.
    repeat split; try lia. }
  assert (Hroom1 : headroom s1 = MIDI_BUFFER - 22).
  { unfold headroom, cursor, s1; st. now rewrite Hsize, Hd. }
  exists s1. split; [reflexivity |].
  split.
  { split; [now exists (S n), 22 |].
    change (delayq s1) with (delayq s22). rewrite Hdq.
    change (buffer_size s1) with (buffer_size s22).
    rewrite Hroom1, Hsize. unfold MIDI_BUFFER. repeat split; try lia. }
  split.
  { exists (S n), 22. split; [exact Ho |]. split; [lia |].
    change (track_len_ptr s1) with (track_len_ptr s22).
    change (filename s1) with (filename s22).
    rewrite Htl, Hfn. repeat split; try reflexivity. discriminate. }
  split; [left; rewrite Hroom1; unfold MIDI_BUFFER; lia |].
  split.
  { exists (S n), 22, m. unfold s1; st.
    rewrite Hvd, Hd, Hh, Hn, Htl, Hfs.
    repeat split; try lia.
    - exists (S n). repeat split; lia.
    - left. intros k Hk. rewrite Hbytes.
      + unfold open_bytes. now rewrite app_nth1.
      + change (List.length header_chunk) with 14%nat in Hk. lia. }
  split; [unfold cursor, s1; st; now rewrite Hd |].
  split; [exact Hdq |]. split; [exact Hfn |]. split; [exact Hsize |].
  split; [exact Hrp |]. split; [exact Hn |].
  split; [exact Hvd |].
  intros k Hk. transitivity (contents s22 (Z.of_nat k)); [reflexivity |].
  rewrite Hcont. now apply Hbytes.
Qed.

(** ** Long streams: growth of the buffer *)

Lemma times_zero m s : times 0 m s = Ok tt s.
Proof. reflexivity. Qed.

Lemma times_succ n m s :
  times (N.succ n) m s
  = match times n m s with
    | Ok _ s' => m s'
    | Fault f s' => Fault f s'
    end.
Proof. unfold times. now rewrite N.iter_succ. Qed.

Lemma times_add p q m s :
  times (p + q) m s
  = match times p m s with
    | Ok _ s' => times q m s'
    | Fault f s' => Fault f s'
    end.
Proof.
  unfold times at 1. rewrite N.add_comm, N.iter_add.
  fold (times p m s).
  destruct (times p m s) as [[] s' | f s'].
  - reflexivity.
  - induction q as [|q IH] using N.peano_ind; [reflexivity |].
    now rewrite N.iter_succ, IH.
Qed.

(** An event without message and with no tick pending is one byte. *)
Lemma vgm_write_one_byte s :
  0 <= delayq s < 10 -> vgm_write 0xA0 0 0 0 s = write_u8 0 s.
Proof.
  intros Hd. unfold vgm_write. unfold bind at 1, get.
  destruct (Z.leb_spec 10 (delayq s)); [lia |].
  change (bind (bind (write_u8 0) (fun _ => ret tt)) (fun _ => ret tt) s
          = write_u8 0 s).
  generalize (write_u8 0). intros m. unfold bind, ret.
  destruct (m s) as [[] s' | f s']; reflexivity.
Qed.

(** A byte appended while more than 1024 bytes are free. *)
Lemma quiet_step r s b c B a :
  filling r s b c B a -> c + 1 + 1024 <= B ->
  exists s', write_u8 0 s = Ok tt s' /\ filling r s' b (c + 1) B a.
Proof.
  intros (Ho & HB & Ha & Hd & Hr & Htl & Hts & Hfn) Hroom.
  pose proof (open_buffer_room _ _ _ Ho) as Hc.
  assert (Hb : budget s 1).
  { split; [now exists b, c |]. unfold headroom. rewrite HB, Hc.
    split; [lia | left; lia]. }
  destruct (write_u8_emits 0 s 1 Hb) as [s' [R [A B']]]; [cbn; lia |].
  exists s'. split; [exact R |].
  destruct (ap_quiet _ _ _ A) as [Hv [Hn Hs]];
    [unfold headroom; rewrite HB, Hc; cbn; lia |].
  destruct B' as [[b' [c' Ho']] _].
  pose proof (open_buffer_room _ _ _ Ho') as Hc'.
  rewrite (ap_cursor _ _ _ A), Hc in Hc'. cbn in Hc'. subst c'.
  assert (b' = b) as ->.
  { destruct Ho as [Hvs _]. destruct Ho' as [Hvs' _].
    rewrite Hv, Hvs in Hvs'. now injection Hvs'. }
  split; [exact Ho' |].
  split; [congruence |]. split; [congruence |].
  split; [now rewrite (ap_delayq _ _ _ A) |].
  split; [now rewrite (ap_reply _ _ _ A) |].
  split; [now rewrite (ap_track_len _ _ _ A) |].
  split; [now rewrite (ap_track_start _ _ _ A) |].
  now rewrite (ap_filename _ _ _ A).
Qed.

Lemma filling_one_byte r s b c B a :
  filling r s b c B a -> vgm_write 0xA0 0 0 0 s = write_u8 0 s.
Proof.
  intros (_ & _ & _ & Hd & _). apply vgm_write_one_byte. lia.
Qed.

(** [n] events appended while more than 1024 bytes stay free. *)
Lemma quiet_steps r b B a : forall n s c,
  filling r s b c B a -> c + Z.of_N n + 1024 <= B ->
  exists s',
    times n (vgm_write 0xA0 0 0 0) s = Ok tt s' /\
    filling r s' b (c + Z.of_N n) B a.
Proof.
  induction n as [|n IH] using N.peano_ind; intros s c Hf Hroom.
  - exists s. split; [reflexivity |].
    now replace (c + Z.of_N 0) with c by lia.
  - destruct (IH s c Hf) as [s1 [R1 F1]]; [lia |].
    rewrite times_succ, R1.
    rewrite (filling_one_byte _ _ _ _ _ _ F1).
    destruct (quiet_step _ _ _ _ _ _ F1) as [s2 [R2 F2]]; [lia |].
    exists s2. split; [exact R2 |].
    now replace (c + Z.of_N (N.succ n)) with (c + Z.of_N n + 1) by lia.
Qed.

(** The byte that leaves fewer than 1024 bytes free makes the buffer
    grow to [u32 (2 B)] bytes: in place ... *)
Lemma grow_step_same s b c B a :
  filling AllocSame s b c B a -> c < B -> B - (c + 1) < 1024 ->
  u32 (B * 2) <> 0 ->
  exists s',
    write_u8 0 s = Ok tt s' /\
    filling AllocSame s' b (c + 1) (u32 (B * 2)) (S a).
Proof.
  intros ((Hv & Hd & Hsz & Hc & H32) & HB & Ha & Hdq & Hr & Htl & Hts & Hfn)
         HcB Hlow Hnz.
  destruct (sized_block _ _ _ Hsz) as [m Hh]; clear Hsz.
  destruct s as [B0 dq vd d fn tl ts h n rp jk fs]; st; subst.
  unfold write_u8, store, ptr_diff, realloc; st.
  rewrite Hh; st.
  destruct (Z.leb_spec 0 c); [| lia].
  destruct (Z.ltb_spec c B); [| lia]. cbn [andb]; st.
  rewrite Nat.eqb_refl; st.
  destruct (Z.ltb_spec (B - (c + 1 - 0)) 1024); [| lia]. st.
  rewrite heap_set_same.
  destruct (Z.eqb_spec (u32 (B * 2)) 0); [contradiction |].
  unfold always; st. rewrite ?Nat.eqb_refl; st.
  eexists; split; [reflexivity |].
  pose proof (u32_range (B * 2)).
  unfold filling, open_buffer; st. rewrite heap_set_same.
  repeat split; try lia; try assumption; try reflexivity.
  f_equal; lia.
Qed.

(** ... or at a new address, the old block being freed. *)
Lemma grow_step_move s b c B a :
  filling AllocMove s b c B a -> c < B -> B - (c + 1) < 1024 ->
  u32 (B * 2) <> 0 ->
  exists s',
    write_u8 0 s = Ok tt s' /\
    filling AllocMove s' a (c + 1) (u32 (B * 2)) (S a) /\
    (b <> a -> heap s' b = None).
Proof.
  intros ((Hv & Hd & Hsz & Hc & H32) & HB & Ha & Hdq & Hr & Htl & Hts & Hfn)
         HcB Hlow Hnz.
  destruct (sized_block _ _ _ Hsz) as [m Hh]; clear Hsz.
  destruct s as [B0 dq vd d fn tl ts h n rp jk fs]; st; subst.
  unfold write_u8, store, ptr_diff, realloc; st.
  rewrite Hh; st.
  destruct (Z.leb_spec 0 c); [| lia].
  destruct (Z.ltb_spec c B); [| lia]. cbn [andb]; st.
  rewrite Nat.eqb_refl; st.
  destruct (Z.ltb_spec (B - (c + 1 - 0)) 1024); [| lia]. st.
  rewrite heap_set_same.
  destruct (Z.eqb_spec (u32 (B * 2)) 0); [contradiction |].
  unfold always; st. rewrite ?Nat.eqb_refl; st.
  eexists; split; [reflexivity |].
  pose proof (u32_range (B * 2)).
  unfold filling, open_buffer; st. rewrite heap_set_same.
  repeat split; try lia; try assumption; try reflexivity.
  - f_equal; lia.
  - intros Hne. rewrite heap_set_other by exact Hne. apply heap_set_same.
Qed.

(** From any cursor to the next growth: [B - 1023 - c] events. *)
Lemma fill_same s b c B a :
  filling AllocSame s b c B a -> c + 1024 <= B -> u32 (B * 2) <> 0 ->
  exists s',
    times (Z.to_N (B - 1023 - c)) (vgm_write 0xA0 0 0 0) s = Ok tt s' /\
    filling AllocSame s' b (B - 1023) (u32 (B * 2)) (S a).
Proof.
  intros Hf Hroom Hnz.
  replace (Z.to_N (B - 1023 - c)) with (Z.to_N (B - 1024 - c) + 1)%N by lia.
  rewrite times_add.
  destruct (quiet_steps AllocSame b B a (Z.to_N (B - 1024 - c)) s c Hf)
    as [s1 [R1 F1]]; [lia |].
  rewrite R1.
  replace (c + Z.of_N (Z.to_N (B - 1024 - c))) with (B - 1024) in F1 by lia.
  change 1%N with (N.succ 0). rewrite times_succ, times_zero.
  rewrite (filling_one_byte _ _ _ _ _ _ F1).
  destruct (grow_step_same _ _ _ _ _ F1 ltac:(lia) ltac:(lia) Hnz)
    as [s2 [R2 F2]].
  exists s2. split; [exact R2 |].
  now replace (B - 1023) with (B - 1024 + 1) by lia.
Qed.

(** ** The track length (C6) *)

Lemma be32_round_trip v :
  0 <= v < 2 ^ 32 -> be32_value (be32_bytes v) = v.
Proof.
  intros Hv. unfold be32_value, be32_bytes. cbn [nth].
  change 0xFF with (Z.ones 8).
  rewrite !Z.land_ones, !Z.shiftr_div_pow2 by lia.
  change (2 ^ 0) with 1. rewrite Z.div_1_r.
  change (2 ^ 32) with 4294967296 in Hv.
  change (2 ^ 24) with 16777216. change (2 ^ 16) with 65536.
  change (2 ^ 8) with 256.
  Z.div_mod_to_equations. lia.
Qed.

(** With the buffer in place, the length field of the file written by
    [vgm_close] counts the bytes from offset 22 to the end of the file,
    the closing FF 2F 00 included. *)
Lemma length_patched_in_place s :
  ready s -> streaming s -> stays_put s ->
  exists s' name bytes,
    vgm_close s = Ok tt s' /\
    files s' = (name, bytes) :: files s /\
    track_length_field bytes = Z.of_nat (List.length bytes) - 22 /\
    skipn (List.length bytes - 3) bytes = end_of_track.
Proof.
  intros Hr Hs Hp.
  destruct (vgm_close_runs s Hr Hs Hp)
    as (s' & name & bytes & R & _ & Hf & _ & _ & _ & _ & Hlen & Hnth).
  exists s', name, bytes. split; [exact R |]. split; [exact Hf |].
  destruct Hs as (b & c & Ho & Hc22 & _).
  pose proof (open_buffer_room _ _ _ Ho) as Hc. rewrite Hc in *.
  assert (Ht : 0 <= delayq s / 10 < 2 ^ 32).
  { destruct Hr as (_ & Hd & _).
    split; [apply Z.div_pos; lia | apply Z.div_lt_upper_bound; lia]. }
  pose proof (varlen_bytes_length _ Ht) as Hvl.
  rewrite length_app in Hlen. cbn [List.length end_of_track] in Hlen.
  set (tail := varlen_bytes (delayq s / 10) ++ end_of_track) in *.
  set (total := c + Z.of_nat (List.length tail)) in *.
  assert (Htot : total = Z.of_nat (List.length bytes)).
  { unfold total, tail. rewrite length_app. cbn [List.length end_of_track].
    lia. }
  split.
  - assert (Hfield : firstn 4 (skipn 18 bytes) = be32_bytes (total - 22)).
    { apply list_eq_nth.
      - rewrite length_firstn, length_skipn. cbn [List.length be32_bytes].
        lia.
      - intros k Hk. rewrite length_firstn, length_skipn in Hk.
        rewrite nth_firstn. destruct (Nat.ltb_spec k 4); [| lia].
        rewrite nth_skipn, Hnth by lia.
        replace ((18 <=? Z.of_nat (18 + k)) && (Z.of_nat (18 + k) <? 22))
          with true
          by (symmetry; apply andb_true_iff; split;
              [apply Z.leb_le | apply Z.ltb_lt]; lia).
        f_equal. lia. }
    unfold track_length_field. rewrite Hfield, be32_round_trip; [lia |].
    destruct Hr as ((b' & c' & Ho') & _ & Hroom & _).
    destruct Ho' as (_ & _ & _ & _ & H32).
    unfold headroom in Hroom. rewrite Hc in Hroom. lia.
  - apply skipn_by_nth.
    + cbn [List.length end_of_track]. lia.
    + intros k Hk. rewrite Hnth by lia.
      replace ((18 <=? Z.of_nat k) && (Z.of_nat k <? 22)) with false
        by (symmetry; apply andb_false_iff; right; apply Z.ltb_ge; lia).
      destruct (Z.ltb_spec (Z.of_nat k) c); [lia |].
      unfold tail. rewrite app_nth2 by lia. f_equal. lia.
Qed.

Lemma filling_after_open r :
  r <> AllocFail ->
  exists s1,
    vgm_open "song" (boot (always r) junk_AA) = Ok tt s1 /\
    filling r s1 1 22 MIDI_BUFFER 2 /\ files s1 = [].
Proof.
  intros Hr.
  destruct (vgm_open_opens "song" (boot (always r) junk_AA) Hr Hr)
    as (s1 & R & _ & (b & c & Ho & _ & Htl & Hts & Hfn) & _ & (_ & _ & _ & _
         & _ & _ & _ & _ & _ & _ & Hfs) & Hc & Hd & _ & HB & Hrp & Hn
         & Hv & _).
  exists s1. split; [exact R |].
  assert (b = 1%nat) as ->.
  { destruct Ho as (Hv' & _). rewrite Hv in Hv'. now injection Hv'. }
  assert (c = 22) as ->
    by (now rewrite <- (open_buffer_room _ _ _ Ho)).
  split; [| exact Hfs].
  repeat split; try assumption; apply Ho.
Qed.

(** Once the buffer is in another block than the one [track_start_ptr]
    points into, [vgm_close] appends its bytes and then subtracts two
    pointers into different objects. *)
Lemma vgm_close_after_move r s b c B a :
  filling r s b c B a -> b <> 1%nat -> c + 8 + 1024 <= B ->
  fault_of (vgm_close s) = Some PointerDifference /\
  files (final_state (vgm_close s)) = files s.
Proof.
  intros (Ho & HB & Ha & Hd & Hr & Htl & Hts & Hfn) Hb Hroom.
  pose proof (open_buffer_room _ _ _ Ho) as Hc.
  cut (exists s4, vgm_close s = Fault PointerDifference s4 /\
                  files s4 = files s).
  { intros (s4 & E & Hf). rewrite E. now split. }
  unfold vgm_close. rewrite flush_prologue by lia.
  rewrite close_head_assoc. rewrite Hd.
  change (delay_after_flush 0) with 0. change (0 / 10) with 0.
  assert (Hb8 : budget (set_delayq 0 s) 8).
  { split; [now exists b, c |]. change (headroom (set_delayq 0 s))
      with (headroom s). unfold headroom. rewrite HB, Hc.
    split; [lia | left; lia]. }
  destruct (close_head_emits 0 ltac:(lia) _ 8 Hb8) as [s4 [R [A B4]]];
    [cbn; lia |].
  unfold bind at 1. rewrite R.
  destruct (ap_quiet _ _ _ A) as [Hv4 _].
  { change (headroom (set_delayq 0 s)) with (headroom s).
    unfold headroom. rewrite HB, Hc. cbn. lia. }
  destruct B4 as [(b4 & c4 & Hv' & Hd4 & _) _].
  change (vgmdata (set_delayq 0 s)) with (vgmdata s) in Hv4.
  destruct Ho as (Hv & _). rewrite Hv4, Hv in Hv'. injection Hv' as <-.
  pose proof (ap_track_len _ _ _ A) as Htl4.
  pose proof (ap_track_start _ _ _ A) as Hts4.
  change (track_len_ptr (set_delayq 0 s)) with (track_len_ptr s) in Htl4.
  change (track_start_ptr (set_delayq 0 s)) with (track_start_ptr s) in Hts4.
  unfold bind, get. rewrite Htl4, Hts4, Htl, Hts, Hd4.
  unfold ptr_diff.
  destruct (Nat.eqb_spec b 1) as [E | _]; [contradiction |].
  unfold fail. exists s4.
  split; [reflexivity |]. apply (ap_files _ _ _ A).
Qed.

(** C6 fails when the allocator moves the buffer: after [vgm_open] and
    49998955 one-byte events the cursor reaches the low-water mark, the
    buffer is moved to a new block by [realloc] and the old one is freed,
    while [track_len_ptr] and [track_start_ptr] still point into the old
    block.  [vgm_close] then has no defined behaviour (it subtracts
    pointers into different objects before it stores through the stale
    [track_len_ptr]); in the model it stops there and writes no file. *)
Theorem C6_stale_track_pointers :
  exists s,
    long_stream 49998955 (boot (always AllocMove) junk_AA) = Ok tt s /\
    vgmdata s = Ptr 2 0 /\ cursor s = 49998977 /\
    track_len_ptr s = Ptr 1 18 /\ track_start_ptr s = Ptr 1 22 /\
    heap s 1 = None /\
    fault_of (vgm_close s) = Some PointerDifference /\
    files (final_state (vgm_close s)) = files s.
Proof.
  destruct (filling_after_open AllocMove ltac:(discriminate))
    as (s1 & R1 & F1 & Hfs1).
  unfold long_stream, bind. rewrite R1.
  change 49998955%N with (49998954 + 1)%N. rewrite times_add.
  destruct (quiet_steps AllocMove 1 MIDI_BUFFER 2 49998954 s1 22 F1)
    as (s2 & R2 & F2); [unfold MIDI_BUFFER; lia |].
  rewrite R2.
  change 1%N with (N.succ 0). rewrite times_succ, times_zero.
  rewrite (filling_one_byte _ _ _ _ _ _ F2).
  change (22 + Z.of_N 49998954) with 49998976 in F2.
  destruct (grow_step_move _ _ _ _ _ F2) as (s3 & R3 & F3 & Hdead);
    [unfold MIDI_BUFFER; lia | unfold MIDI_BUFFER; lia
     | vm_compute; discriminate |].
  change (u32 (MIDI_BUFFER * 2)) with 100000000 in F3.
  change (49998976 + 1) with 49998977 in F3.
  exists s3. split; [exact R3 |].
  destruct (vgm_close_after_move _ _ _ _ _ _ F3) as [Hfault Hfiles];
    [lia | lia |].
  destruct F3 as (Ho & _ & _ & _ & _ & Htl & Hts & _).
  split; [apply Ho |].
  split; [now apply open_buffer_room with 2%nat |].
  split; [exact Htl |]. split; [exact Hts |].
  split; [apply Hdead; lia |].
  split; [exact Hfault | exact Hfiles].
Qed.

(** ** Whole streams *)

Lemma run_app cs1 cs2 s : run (cs1 ++ cs2) s = (run cs1 ;; run cs2) s.
Proof.
  revert s. induction cs1 as [|c cs1 IH]; intros s; cbn [app run].
  - reflexivity.
  - unfold bind at 1 2 3. destruct (exec c s) as [[] s1 | f s1].
    + rewrite IH. reflexivity.
    + reflexivity.
Qed.

(** Whenever the program returns from [vgm_close], the file starts with
    the header chunk. *)
Lemma stream_keeps_header fname cs s0 s' :
  alloc_reply s0 (allocs s0) <> AllocFail ->
  alloc_reply s0 (S (allocs s0)) <> AllocFail ->
  Forall stream_call cs ->
  run (Open fname :: cs ++ [Close]) s0 = Ok tt s' ->
  exists name bytes,
    files s' = (name, bytes) :: files s0 /\
    firstn 14 bytes = header_chunk.
Proof.
  intros H0 H1 Hcs H.
  destruct (vgm_open_opens fname s0 H0 H1) as (s1 & R1 & _ & _ & _ & K1 & _).
  cbn [run exec] in H. unfold bind at 1 in H. rewrite R1 in H.
  rewrite run_app in H.
  apply bind_ok in H. destruct H as ([] & s2 & R2 & H).
  pose proof (run_keeps_header _ _ Hcs _ _ _ K1 R2) as K2.
  cbn [run exec] in H.
  apply bind_ok in H. destruct H as ([] & s3 & R3 & H).
  injection H as <-.
  exact (vgm_close_keeps_header _ _ _ K2 R3).
Qed.

Lemma scenario_returns :
  run scenario (boot (always AllocSame) junk_AA)
  = Ok tt (started scenario).
Proof. apply ok_final. vm_compute. reflexivity. Qed.


(** *** Streams that fit in the first allocation *)

(** A call that appended at most 523 bytes without touching the
    allocator leaves room for one call less. *)
Lemma within_appended n name fs l d s s' :
  within (n + 1) name fs s -> 0 <= n -> 0 <= d < 2 ^ 32 ->
  appended l (set_delayq d s) s' ->
  (exists b c, open_buffer s' b c) ->
  Z.of_nat (List.length l) <= 523 ->
  within n name fs s'.
Proof.
  intros (Hr & (b & c & Ho & Hc22 & Htl & Hts & Hfn) & H32 & Hroom & Hhdr
          & Hname & Hfs) Hn Hd A (b' & c' & Ho') Hlen.
  pose proof (open_buffer_room _ _ _ Ho) as Hc.
  pose proof (open_buffer_room _ _ _ Ho') as Hc'.
  pose proof (ap_cursor _ _ _ A) as Hcur.
  change (cursor (set_delayq d s)) with (cursor s) in Hcur.
  destruct (ap_quiet _ _ _ A) as (Hv & _ & HB).
  { change (headroom (set_delayq d s)) with (headroom s). lia. }
  change (vgmdata (set_delayq d s)) with (vgmdata s) in Hv.
  change (buffer_size (set_delayq d s)) with (buffer_size s) in HB.
  assert (b' = b) as ->.
  { destruct Ho as (Hvs & _). destruct Ho' as (Hvs' & _).
    rewrite Hv, Hvs in Hvs'. now injection Hvs'. }
  assert (Hh : headroom s' = headroom s - Z.of_nat (List.length l))
    by (unfold headroom; lia).
  pose proof (Zle_0_nat (List.length l)) as Hpos.
  split.
  { split; [now exists b, c' |].
    split; [rewrite (ap_delayq _ _ _ A); exact Hd |].
    split; [lia | left; lia]. }
  split.
  { exists b, c'. split; [exact Ho' |]. split; [lia |].
    split; [rewrite (ap_track_len _ _ _ A); exact Htl |].
    split; [rewrite (ap_track_start _ _ _ A); exact Hts |].
    rewrite (ap_filename _ _ _ A). exact Hfn. }
  split; [lia |]. split; [lia |].
  split.
  { intros k Hk. rewrite (ap_old _ _ _ A).
    - now apply Hhdr.
    - change (cursor (set_delayq d s)) with (cursor s). lia. }
  split.
  - rewrite (ap_filename _ _ _ A). exact Hname.
  - rewrite (ap_files _ _ _ A). exact Hfs.
Qed.

Lemma within_step n name fs c s :
  stream_call c -> 0 <= n -> within (n + 1) name fs s ->
  exists s', exec c s = Ok tt s' /\ within n name fs s'.
Proof.
  intros Hc Hn W.
  assert (Hr : ready s) by apply W.
  assert (Hd : 0 <= delayq s < 2 ^ 32) by apply Hr.
  assert (Ht : 0 <= delayq s / 10 < 2 ^ 32).
  { split; [apply Z.div_pos; lia | apply Z.div_lt_upper_bound; lia]. }
  pose proof (varlen_bytes_length _ Ht) as Hvl.
  pose proof (delay_after_flush_range _ Hd) as Hdf.
  assert (Hidle : within n name fs s).
  { destruct W as (W1 & W2 & W3 & W4 & W5 & W6 & W7).
    split; [exact W1 |]. split; [exact W2 |]. split; [exact W3 |].
    split; [lia |]. split; [exact W5 |]. split; assumption. }
  destruct c; cbn [stream_call exec] in *; try contradiction.
  - destruct (vgm_write_appends command port reg value s Hr)
      as (s' & R & A & B).
    exists s'. split; [exact R |].
    apply (within_appended n name fs _ _ s s' W Hn Hdf A); [apply B |].
    rewrite length_app.
    pose proof (event_bytes_length command port reg value). lia.
  - eexists. split; [reflexivity |].
    destruct Hidle as (Hr' & Hs' & H32 & Hroom & Hhdr & Hname & Hfs).
    pose proof (u32_range (delayq s + delay)) as Hu.
    split.
    { destruct Hr' as (Ho & _ & Hrest). split; [exact Ho |].
      split; [exact Hu | exact Hrest]. }
    split; [exact Hs' |]. split; [exact H32 |]. split; [exact Hroom |].
    split; [exact Hhdr |]. split; assumption.
  - destruct (vgm_write_tag_appends gamename songid ts s Hr)
      as (s' & R & A & B).
    exists s'. split; [exact R |].
    apply (within_appended n name fs _ _ s s' W Hn Hdf A); [apply B |].
    rewrite length_app.
    pose proof (tag_bytes_length gamename songid ts). lia.
  - exists s. split; [reflexivity | exact Hidle].
  - exists s. split; [reflexivity | exact Hidle].
  - exists s. split; [reflexivity | exact Hidle].
  - exists s. split; [reflexivity | exact Hidle].
Qed.

Lemma within_run name fs cs : forall s,
  Forall stream_call cs ->
  within (Z.of_nat (List.length cs)) name fs s ->
  exists s', run cs s = Ok tt s' /\ within 0 name fs s'.
Proof.
  induction cs as [|c cs IH]; intros s Hcs W; cbn [run].
  - exists s. split; [reflexivity | exact W].
  - inversion Hcs as [| c' cs' Hc Hcs' E]; subst.
    cbn [List.length] in W.
    replace (Z.of_nat (S (List.length cs)))
      with (Z.of_nat (List.length cs) + 1) in W by lia.
    destruct (within_step (Z.of_nat (List.length cs)) name fs c s Hc
                (Zle_0_nat _) W) as (s1 & R1 & W1).
    destruct (IH s1 Hcs' W1) as (s2 & R2 & W2).
    exists s2. split; [| exact W2].
    unfold bind. rewrite R1. exact R2.
Qed.

(** A stream that fits in the first allocation: every call returns and
    [vgm_close] writes a complete file. *)
Lemma bounded_stream_runs fname cs s0 :
  alloc_reply s0 (allocs s0) <> AllocFail ->
  alloc_reply s0 (S (allocs s0)) <> AllocFail ->
  Forall stream_call cs ->
  523 * Z.of_nat (List.length cs) + 1054 <= 50000000 ->
  exists s' bytes,
    run (Open fname :: cs ++ [Close]) s0 = Ok tt s' /\
    files s' = (with_mid_extension fname, bytes) :: files s0 /\
    firstn 18 bytes
    = [0x4D; 0x54; 0x68; 0x64; 0; 0; 0; 6; 0; 0; 0; 1; 0x01; 0xE0;
       0x4D; 0x54; 0x72; 0x6B] /\
    track_length_field bytes = Z.of_nat (List.length bytes) - 22 /\
    skipn (List.length bytes - 3) bytes = [0xFF; 0x2F; 0x00].
Proof.
  intros H0 H1 Hcs Hfit.
  destruct (vgm_open_opens fname s0 H0 H1)
    as (s1 & R1 & Hr1 & Hs1 & _ & K1 & Hc1 & _ & Hfn1 & HB1 & _ & _ & _
        & Hb1).
  assert (Hfs1 : files s1 = files s0).
  { destruct K1 as (_ & _ & _ & _ & _ & _ & _ & _ & _ & _ & Hf).
    exact Hf. }
  assert (W1 : within (Z.of_nat (List.length cs))
                 (with_mid_extension fname) (files s0) s1).
  { split; [exact Hr1 |]. split; [exact Hs1 |].
    unfold headroom. rewrite HB1, Hc1. unfold MIDI_BUFFER.
    split; [lia |]. split; [lia |].
    split; [intros k Hk; apply Hb1; lia |].
    split; [exact Hfn1 | exact Hfs1]. }
  destruct (within_run _ _ cs s1 Hcs W1) as (s2 & R2 & W2).
  destruct W2 as (Hr2 & Hs2 & _ & Hroom2 & Hhdr2 & Hfn2 & Hfs2).
  assert (Hp2 : stays_put s2) by (left; lia).
  destruct (vgm_close_runs_freeing s2 Hr2 Hs2 Hp2)
    as (s3 & name & bytes & R3 & Hn3 & Hf3 & _ & _ & _ & _ & _ & Hlen3
        & Hnth3).
  destruct (length_patched_in_place s2 Hr2 Hs2 Hp2)
    as (s3' & name' & bytes' & R3' & Hf3' & Hfield & Htail).
  rewrite R3 in R3'. injection R3' as <-.
  rewrite Hf3 in Hf3'. injection Hf3' as <- <-.
  rewrite Hfn2 in Hn3. injection Hn3 as <-.
  exists s3, bytes.
  split.
  { cbn [run exec]. unfold bind at 1. rewrite R1.
    rewrite run_app. unfold bind at 1. rewrite R2.
    cbn [run exec]. unfold bind, ret. rewrite R3. reflexivity. }
  split; [rewrite Hf3, Hfs2; reflexivity |].
  split; [| split; [exact Hfield | exact Htail]].
  destruct Hs2 as (b & c & Ho & Hc22 & _).
  rewrite (open_buffer_room _ _ _ Ho) in *.
  assert (Hl : (22 <= List.length bytes)%nat).
  { rewrite length_app in Hlen3. lia. }
  apply list_eq_nth.
  - rewrite length_firstn. cbn [List.length]. lia.
  - intros k Hk. rewrite length_firstn in Hk.
    rewrite nth_firstn.
    destruct (Nat.ltb_spec k 18) as [Hk18 | ]; [| lia].
    rewrite (Hnth3 k) by lia.
    destruct (Z.leb_spec 18 (Z.of_nat k)); [lia |]. cbn [andb].
    destruct (Z.ltb_spec (Z.of_nat k) c); [| lia].
    rewrite (Hhdr2 k Hk18).
    do 18 (destruct k as [|k]; [reflexivity |]). lia.
Qed.

(** ** The header of every stream (C5) *)

(** C5: when the allocations of [vgm_open] succeed, whatever calls of
    [vgm_write], [vgm_write_tag], [vgm_delay] (and of the stubs) are made
    between [vgm_open] and [vgm_close], however many and whatever the
    allocator answers in between, the file written when [vgm_close]
    returns begins with the 14 bytes "MThd", big-endian 6 on 32 bits and
    big-endian 0, 1 and 480 on 16 bits each, that is 4D 54 68 64 00 00 00
    06 00 00 00 01 01 E0; and the program does return, with that file
    written, as long as the calls fit in the buffer allocated by
    [vgm_open] (523 bytes at most per call). *)
Theorem C5_header_invariant : forall fname cs s0,
  alloc_reply s0 (allocs s0) <> AllocFail ->
  alloc_reply s0 (S (allocs s0)) <> AllocFail ->
  Forall stream_call cs ->
  header_chunk
  = [0x4D; 0x54; 0x68; 0x64; 0; 0; 0; 6; 0; 0; 0; 1; 0x01; 0xE0] /\
  (forall s',
     run (Open fname :: cs ++ [Close]) s0 = Ok tt s' ->
     exists name bytes,
       files s' = (name, bytes) :: files s0 /\
       firstn 14 bytes = header_chunk) /\
  (523 * Z.of_nat (List.length cs) + 1054 <= 50000000 ->
   exists s' bytes,
     run (Open fname :: cs ++ [Close]) s0 = Ok tt s' /\
     files s' = (with_mid_extension fname, bytes) :: files s0 /\
     firstn 14 bytes = header_chunk).
Proof.
  intros fname cs s0 H0 H1 Hcs.
  split; [reflexivity |]. split.
  - intros s' R. exact (stream_keeps_header fname cs s0 s' H0 H1 Hcs R).
  - intros Hfit.
    destruct (bounded_stream_runs fname cs s0 H0 H1 Hcs Hfit)
      as (s' & bytes & R & Hf & _).
    exists s', bytes. split; [exact R |]. split; [exact Hf |].
    destruct (stream_keeps_header fname cs s0 s' H0 H1 Hcs R)
      as (name & bytes' & Hf' & Hh).
    rewrite Hf in Hf'. injection Hf' as _ <-. exact Hh.
Qed.

Lemma C5_header_invariant_witness :
  exists s' bytes,
    run scenario (boot (always AllocSame) junk_AA) = Ok tt s' /\
    files s' = [("song.mid"%string, bytes)] /\
    firstn 14 bytes
    = [0x4D; 0x54; 0x68; 0x64; 0; 0; 0; 6; 0; 0; 0; 1; 0x01; 0xE0].
Proof.
  destruct (C5_header_invariant "song"
              [Write 0x90 0 60 100; Delay 50; Write 0x80 0 60 0]
              (boot (always AllocSame) junk_AA))
    as (_ & _ & H).
  - discriminate.
  - discriminate.
  - repeat (apply Forall_cons; [exact I |]). apply Forall_nil.
  - destruct H as (s' & bytes & R & Hf & Hh); [cbn; lia |].
    exists s', bytes. split; [exact R |]. split; [exact Hf | exact Hh].
Defined.

(** ** The capacity after six doublings (C9) *)

(** A byte stored at or beyond the recorded size of the buffer is out of
    its block. *)
Lemma write_u8_outside v s b c :
  open_buffer s b c -> buffer_size s <= c ->
  write_u8 v s = Fault OutOfBounds s.
Proof.
  intros (Hv & Hd & Hsz & Hc & H32) Hout.
  destruct (sized_block _ _ _ Hsz) as [m Hh]; clear Hsz.
  unfold write_u8, bind, get, store. rewrite Hd, Hh. cbn [blk_size].
  destruct (Z.ltb_spec c (buffer_size s)); [lia |].
  rewrite andb_false_r. reflexivity.
Qed.

Ltac fill_to_growth F :=
  match type of F with
  | filling AllocSame ?s ?b ?c ?B ?a =>
      let s' := fresh "s" in
      let R := fresh "R" in
      let F' := fresh "F" in
      destruct (fill_same s b c B a F) as (s' & R & F');
      [lia | vm_compute; discriminate |];
      let n := eval vm_compute in (Z.to_N (B - 1023 - c)) in
      change (Z.to_N (B - 1023 - c)) with n in R;
      let c' := eval vm_compute in (B - 1023) in
      let B' := eval vm_compute in (u32 (B * 2)) in
      change (B - 1023) with c' in F';
      change (u32 (B * 2)) with B' in F';
      rewrite ?times_add; rewrite R; clear R F
  end.

(** C9 fails once the buffer has been doubled six times: after
    [vgm_open] and 3199998955 one-byte events, every [realloc] having
    succeeded, the size to double is 3200000000 and [buffer_size * 2] is
    computed in 32 bits: [realloc] is asked for 2105032704 bytes, less than
    the buffer holds, and [buffer_size] records that.  The cursor, at
    3199998977, is then beyond the capacity, and the next event stores its
    first byte outside the buffer. *)
Theorem C9_capacity_wraps :
  exists s,
    long_stream 3199998955 (boot (always AllocSame) junk_AA) = Ok tt s /\
    buffer_size s = 2105032704 /\ capacity s = 2105032704 /\
    cursor s = 3199998977 /\ capacity s < cursor s /\
    fault_of (vgm_write 0xA0 0 0 0 s) = Some OutOfBounds.
Proof.
  destruct (filling_after_open AllocSame ltac:(discriminate))
    as (s1 & R1 & F1 & _).
  unfold long_stream, bind. rewrite R1. clear R1.
  unfold MIDI_BUFFER in F1.
  change 3199998955%N
    with (49998955 + (50000000 + (100000000 + (200000000 + (400000000
          + (800000000 + 1600000000))))))%N.
  do 6 (match goal with
        | F : filling _ _ _ _ _ _ |- _ => fill_to_growth F
        end).
  match goal with
  | F : filling AllocSame ?s ?b ?c ?B ?a |- _ =>
      destruct (fill_same s b c B a F) as (s8 & R8 & F8);
        [lia | vm_compute; discriminate |]
  end.
  change (Z.to_N (3200000000 - 1023 - 1599998977)) with 1600000000%N in R8.
  change (3200000000 - 1023) with 3199998977 in F8.
  change (u32 (3200000000 * 2)) with 2105032704 in F8.
  exists s8. split; [exact R8 |].
  pose proof (filling_one_byte _ _ _ _ _ _ F8) as E.
  destruct F8 as (Ho & HB & _).
  pose proof (open_buffer_room _ _ _ Ho) as Hc.
  assert (Hcap : capacity s8 = 2105032704).
  { destruct Ho as (Hv & _ & Hsz & _).
    unfold capacity, buffer_block. rewrite Hv.
    destruct (heap s8 1) as [blk |]; cbn [option_map] in Hsz;
      [| discriminate].
    injection Hsz as ->. exact HB. }
  split; [exact HB |]. split; [exact Hcap |]. split; [exact Hc |].
  split; [lia |].
  rewrite E, (write_u8_outside 0 s8 1 3199998977 Ho) by lia.
  reflexivity.
Qed.

(** * Further properties of the code *)

(** ** Bytes *)

Lemma land_255_byte x : is_byte (Z.land x 0xFF).
Proof.
  unfold is_byte. change 0xFF with (Z.ones 8).
  rewrite Z.land_ones by lia. apply Z.mod_pos_bound. lia.
Qed.

Lemma land_127_data x : is_data (Z.land x 0x7F).
Proof.
  unfold is_data. change (Z.land x 0x7F) with (Z.land x (Z.ones 7)).
  rewrite Z.land_ones by lia. change (2 ^ 7) with 128.
  pose proof (Z.mod_pos_bound x 128 ltac:(lia)). lia.
Qed.

(** Setting bits above the ones of [y] adds. *)
Lemma lor_disjoint a y : Z.land a y = 0 -> Z.lor a y = a + y.
Proof. intros H. pose proof (Z.add_lor_land a y). lia. Qed.

Lemma land_nibble p : Z.land p 0x0F = p mod 16.
Proof. change 0x0F with (Z.ones 4). now rewrite Z.land_ones by lia. Qed.

(** A status with a clear low nibble, combined with a channel. *)
Lemma status_channel st p :
  Z.land st 0x0F = 0 -> Z.lor st (Z.land p 0x0F) = st + p mod 16.
Proof.
  intros Hst. rewrite lor_disjoint; [now rewrite land_nibble |].
  rewrite Z.land_assoc, (Z.land_comm st p), <- Z.land_assoc, Hst.
  apply Z.land_0_r.
Qed.

Lemma continuation_byte x :
  Z.lor 0x80 (Z.land x 0x7F) = 0x80 + x mod 128.
Proof.
  rewrite lor_disjoint.
  - change 0x7F with (Z.ones 7). now rewrite Z.land_ones by lia.
  - rewrite (Z.land_comm x), Z.land_assoc. reflexivity.
Qed.

(** ** Big-endian scalars (write_be32, write_be16) *)

Lemma be16_round_trip v :
  0 <= v < 2 ^ 16 -> be16_value (be16_bytes v) = v.
Proof.
  intros Hv. unfold be16_value, be16_bytes. cbn [nth].
  change 0xFF with (Z.ones 8).
  rewrite !Z.land_ones, !Z.shiftr_div_pow2 by lia.
  change (2 ^ 0) with 1. rewrite Z.div_1_r.
  change (2 ^ 16) with 65536 in Hv. change (2 ^ 8) with 256.
  Z.div_mod_to_equations. lia.
Qed.

(** X1: in a stream that is ready, [write_be32] returns after appending
    four bytes (each a [uint8_t]) whose big-endian value is its argument,
    most significant byte first; the bytes before the cursor are kept. *)
Theorem write_be32_big_endian : forall v s,
  0 <= v < 2 ^ 32 -> ready s ->
  exists s',
    write_be32 v s = Ok tt s' /\
    cursor s' = cursor s + 4 /\
    be32_value (emitted s s') = v /\
    Forall is_byte (emitted s s') /\
    forall i, i < cursor s -> contents s' i = contents s i.
Proof.
  intros v s Hv Hr.
  destruct (write_be32_emits v s 1024 (ready_budget s Hr)) as [s' [R [A _]]];
    [cbn; lia |].
  exists s'. split; [exact R |].
  split; [apply (ap_cursor _ _ _ A) |].
  rewrite (appended_emitted _ _ _ A).
  split; [now apply be32_round_trip |].
  split; [repeat (apply Forall_cons; [apply land_255_byte |]);
          apply Forall_nil |].
  apply (ap_old _ _ _ A).
Qed.

Lemma write_be32_big_endian_witness :
  0 <= 480 < 2 ^ 32 /\ ready fresh_stream /\
  exists s', write_be32 480 fresh_stream = Ok tt s' /\
             be32_value (emitted fresh_stream s') = 480.
Proof.
  split; [lia |]. split; [exact fresh_stream_ready |].
  destruct (write_be32_big_endian 480 fresh_stream ltac:(lia)
              fresh_stream_ready) as (s' & R & _ & E & _).
  exists s'. split; assumption.
Defined.

(** X2: in a stream that is ready, [write_be16] returns after appending
    two bytes whose big-endian value is its argument; the bytes before
    the cursor are kept. *)
Theorem write_be16_big_endian : forall v s,
  0 <= v < 2 ^ 16 -> ready s ->
  exists s',
    write_be16 v s = Ok tt s' /\
    cursor s' = cursor s + 2 /\
    be16_value (emitted s s') = v /\
    Forall is_byte (emitted s s') /\
    forall i, i < cursor s -> contents s' i = contents s i.
Proof.
  intros v s Hv Hr.
  destruct (write_be16_emits v s 1024 (ready_budget s Hr)) as [s' [R [A _]]];
    [cbn; lia |].
  exists s'. split; [exact R |].
  split; [apply (ap_cursor _ _ _ A) |].
  rewrite (appended_emitted _ _ _ A).
  split; [now apply be16_round_trip |].
  split; [repeat (apply Forall_cons; [apply land_255_byte |]);
          apply Forall_nil |].
  apply (ap_old _ _ _ A).
Qed.

Lemma write_be16_big_endian_witness :
  0 <= 480 < 2 ^ 16 /\ ready fresh_stream /\
  exists s', write_be16 480 fresh_stream = Ok tt s' /\
             be16_value (emitted fresh_stream s') = 480.
Proof.
  split; [lia |]. split; [exact fresh_stream_ready |].
  destruct (write_be16_big_endian 480 fresh_stream ltac:(lia)
              fresh_stream_ready) as (s' & R & _ & E & _).
  exists s'. split; assumption.
Defined.

(** ** The shape of a variable-length quantity (write_varlen) *)

Lemma shiftr_zero_iff x n :
  0 <= x -> 0 <= n -> (Z.shiftr x n = 0 <-> x < 2 ^ n).
Proof.
  intros Hx Hn. rewrite Z.shiftr_div_pow2 by exact Hn.
  assert (Hp : 0 < 2 ^ n) by (apply Z.pow_pos_nonneg; lia).
  rewrite Z.div_small_iff by lia. lia.
Qed.

Lemma shiftr_nonneg x n : 0 <= x -> 0 <= Z.shiftr x n.
Proof. intros Hx. now apply Z.shiftr_nonneg. Qed.

Lemma hd_rev (l : list Z) d : hd d (rev l) = last l d.
Proof.
  induction l as [|a l IH]; [reflexivity |].
  cbn [rev]. destruct l as [|b l]; [reflexivity |].
  change (last (a :: b :: l) d) with (last (b :: l) d).
  rewrite <- IH. cbn [rev].
  destruct (rev l ++ [b]) eqn:E; [| reflexivity].
  destruct (rev l); discriminate.
Qed.

(** What the loop adds to [buffer]: bytes with the continuation bit, the
    last of which (the first on the wire) carries a non-zero group. *)
Lemma varlen_loop_shape : forall slots value buffer res,
  0 <= value ->
  varlen_loop slots value buffer = Some res ->
  exists ext,
    res = buffer ++ ext /\ Forall is_status ext /\ last ext 0 <> 0x80.
Proof.
  induction slots as [|n IH]; intros value buffer res Hv;
    cbn [varlen_loop]; destruct (Z.eqb_spec value 0) as [-> | Hnz];
    try discriminate.
  - intros [= <-]. exists []. rewrite app_nil_r.
    repeat split; [constructor | cbn; lia].
  - intros [= <-]. exists []. rewrite app_nil_r.
    repeat split; [constructor | cbn; lia].
  - intros H.
    destruct (IH _ _ _ (shiftr_nonneg value 7 Hv) H) as (ext & E & Hst & Hl).
    exists (Z.lor 0x80 (Z.land value 0x7F) :: ext).
    split; [now rewrite E, <- app_assoc |].
    pose proof (Z.mod_pos_bound value 128 ltac:(lia)) as Hm.
    split.
    + constructor; [| exact Hst].
      unfold is_status. rewrite continuation_byte. lia.
    + destruct ext as [|b ext]; [| exact Hl].
      cbn [last]. rewrite continuation_byte.
      (* nothing followed: the value had a single group left *)
      assert (Hz : Z.shiftr value 7 = 0).
      { destruct n as [|n]; cbn [varlen_loop] in H;
          destruct (Z.eqb_spec (Z.shiftr value 7) 0) as [Hz | Hz];
          try assumption; try discriminate.
        apply varlen_loop_length in H. rewrite E in H.
        rewrite !length_app in H. cbn [List.length] in H. lia. }
      apply shiftr_zero_iff in Hz; try lia.
      change (2 ^ 7) with 128 in Hz. rewrite Z.mod_small by lia. lia.
Qed.

(** The bytes of a 32-bit value are in canonical form. *)
Lemma varlen_bytes_shape x :
  0 <= x < 2 ^ 32 ->
  exists init,
    varlen_bytes x = init ++ [Z.land x 0x7F] /\
    Forall is_status init /\ is_data (Z.land x 0x7F) /\
    hd 0 (varlen_bytes x) <> 0x80.
Proof.
  intros Hx. destruct (varlen_start_some x Hx) as [res Hres].
  destruct (varlen_loop_shape _ _ _ _ (shiftr_nonneg x 7 ltac:(lia)) Hres)
    as (ext & E & Hst & Hl).
  unfold varlen_bytes. rewrite Hres, E, rev_app_distr. cbn [rev app].
  exists (rev ext). split; [reflexivity |].
  split; [now apply Forall_rev |].
  pose proof (land_127_data x) as Hd. split; [exact Hd |].
  destruct ext as [|b ext].
  - cbn [rev app hd]. unfold is_data in Hd. lia.
  - assert (Hne : rev (b :: ext) <> []).
    { cbn [rev]. destruct (rev ext); discriminate. }
    destruct (rev (b :: ext)) as [|h t] eqn:Er; [contradiction |].
    cbn [app hd]. change h with (hd 0 (h :: t)).
    rewrite <- Er, hd_rev. exact Hl.
Qed.

(** Their number is the number of 7-bit groups of the value. *)
Lemma varlen_bytes_size x :
  0 <= x < 2 ^ 32 -> List.length (varlen_bytes x) = varlen_size x.
Proof.
  intros Hx. unfold varlen_bytes, varlen_size.
  assert (H7 := shiftr_zero_iff x 7 ltac:(lia) ltac:(lia)).
  assert (H14 := shiftr_zero_iff x 14 ltac:(lia) ltac:(lia)).
  assert (H21 := shiftr_zero_iff x 21 ltac:(lia) ltac:(lia)).
  assert (H28 := shiftr_zero_iff x 28 ltac:(lia) ltac:(lia)).
  assert (H35 := shiftr_zero_iff x 35 ltac:(lia) ltac:(lia)).
  cbn [varlen_loop]. rewrite !Z.shiftr_shiftr by lia.
  change (7 + 7) with 14. change (14 + 7) with 21.
  change (21 + 7) with 28. change (28 + 7) with 35.
  change (2 ^ 32) with 4294967296 in Hx.
  change (2 ^ 35) with 34359738368 in H35.
  destruct (Z.ltb_spec x (2 ^ 7)); destruct (Z.ltb_spec x (2 ^ 14));
    destruct (Z.ltb_spec x (2 ^ 21)); destruct (Z.ltb_spec x (2 ^ 28));
    try lia;
    repeat match goal with
           | |- context [Z.shiftr x ?n =? 0] =>
               destruct (Z.eqb_spec (Z.shiftr x n) 0)
           end;
    try reflexivity; lia.
Qed.

(** X3: in a stream that is ready, the bytes [write_varlen] appends for a
    32-bit value are in canonical form: every byte but the last has bit 7
    set, the last one is the low seven bits of the value with bit 7 clear,
    and the first byte is never a bare 0x80 (no leading zero group: the
    encoding is the shortest one). *)
Theorem write_varlen_canonical : forall x s,
  0 <= x < 2 ^ 32 -> ready s ->
  exists s' init,
    write_varlen x s = Ok tt s' /\
    emitted s s' = init ++ [Z.land x 0x7F] /\
    Forall is_status init /\ is_data (Z.land x 0x7F) /\
    hd 0 (emitted s s') <> 0x80.
Proof.
  intros x s Hx Hr.
  destruct (write_varlen_ready x s Hx Hr) as (s' & R & E & _).
  destruct (varlen_bytes_shape x Hx) as (init & Hi & Hst & Hd & Hh).
  exists s', init. rewrite E.
  split; [exact R |]. split; [exact Hi |]. split; [exact Hst |].
  split; [exact Hd | exact Hh].
Qed.

Lemma write_varlen_canonical_witness :
  0 <= 200000 < 2 ^ 32 /\ ready fresh_stream /\
  exists s' init,
    write_varlen 200000 fresh_stream = Ok tt s' /\
    emitted fresh_stream s' = init ++ [Z.land 200000 0x7F] /\
    Forall is_status init.
Proof.
  split; [lia |]. split; [exact fresh_stream_ready |].
  destruct (write_varlen_canonical 200000 fresh_stream ltac:(lia)
              fresh_stream_ready) as (s' & init & R & E & Hst & _).
  exists s', init. split; [exact R |]. split; assumption.
Defined.

(** X4: in a stream that is ready, [write_varlen] moves the cursor by the
    number of 7-bit groups of the value: 1 byte below 2^7, 2 below 2^14,
    3 below 2^21, 4 below 2^28 and 5 from there to 2^32 - 1; the bytes
    below the old cursor are not touched. *)
Theorem write_varlen_length_exact : forall x s,
  0 <= x < 2 ^ 32 -> ready s ->
  exists s',
    write_varlen x s = Ok tt s' /\
    cursor s' = cursor s + Z.of_nat (varlen_size x) /\
    List.length (emitted s s') = varlen_size x /\
    forall i, i < cursor s -> contents s' i = contents s i.
Proof.
  intros x s Hx Hr.
  pose proof (varlen_bytes_length _ Hx) as Hl.
  destruct (write_varlen_emits x Hx s 1024 (ready_budget s Hr))
    as (s' & R & A & _); [lia |].
  exists s'. split; [exact R |].
  split; [rewrite (ap_cursor _ _ _ A), varlen_bytes_size by exact Hx;
          reflexivity |].
  split; [rewrite (appended_emitted _ _ _ A); now apply varlen_bytes_size |].
  apply (ap_old _ _ _ A).
Qed.

Lemma write_varlen_length_exact_witness :
  0 <= 16384 < 2 ^ 32 /\ ready fresh_stream /\
  exists s',
    write_varlen 16384 fresh_stream = Ok tt s' /\
    cursor s' = cursor fresh_stream + 3.
Proof.
  split; [lia |]. split; [exact fresh_stream_ready |].
  destruct (write_varlen_length_exact 16384 fresh_stream ltac:(lia)
              fresh_stream_ready) as (s' & R & Hc & _).
  exists s'. split; [exact R | exact Hc].
Defined.

(** X5: the encoding is self-delimiting.  Whatever bytes follow in the
    track what [write_varlen] has appended, the decoder of the spec reads
    the value back and stops at the first byte after it; hence if the
    bytes appended for two values, each followed by any bytes, form the
    same sequence, the values are equal and so are the bytes that
    follow. *)
Theorem write_varlen_prefix_free : forall x y s t rest rest',
  0 <= x < 2 ^ 32 -> 0 <= y < 2 ^ 32 -> ready s -> ready t ->
  exists s' t',
    write_varlen x s = Ok tt s' /\ write_varlen y t = Ok tt t' /\
    varlen_decode (emitted s s' ++ rest) = Some (x, rest) /\
    (emitted s s' ++ rest = emitted t t' ++ rest' ->
     x = y /\ rest = rest').
Proof.
  intros x y s t rest rest' Hx Hy Hs Ht.
  destruct (write_varlen_ready x s Hx Hs) as (s' & Rs & Es & _).
  destruct (write_varlen_ready y t Hy Ht) as (t' & Rt & Et & _).
  exists s', t'. rewrite Es, Et.
  split; [exact Rs |]. split; [exact Rt |].
  split; [now apply varlen_round_trip |].
  intros E. apply (f_equal varlen_decode) in E.
  rewrite !varlen_round_trip in E by assumption.
  now injection E.
Qed.

Lemma write_varlen_prefix_free_witness :
  0 <= 300 < 2 ^ 32 /\ ready fresh_stream /\
  exists s',
    write_varlen 300 fresh_stream = Ok tt s' /\
    varlen_decode (emitted fresh_stream s' ++ [0x90; 0x3C; 0x64])
    = Some (300, [0x90; 0x3C; 0x64]).
Proof.
  split; [lia |]. split; [exact fresh_stream_ready |].
  destruct (write_varlen_prefix_free 300 300 fresh_stream fresh_stream
              [0x90; 0x3C; 0x64] [0x90; 0x3C; 0x64] ltac:(lia) ltac:(lia)
              fresh_stream_ready fresh_stream_ready)
    as (s' & _ & R & _ & D & _).
  exists s'. split; [exact R | exact D].
Defined.

(** ** The framing of the messages (vgm_write) *)

Lemma mod16_bound p : 0 <= p mod 16 < 16.
Proof. apply Z.mod_pos_bound. lia. Qed.

Lemma event_bytes_framed command port reg value :
  framed (event_bytes command port reg value).
Proof.
  pose proof (mod16_bound port) as Hp.
  pose proof (land_127_data reg) as Hr.
  pose proof (land_127_data value) as Hv.
  pose proof (land_127_data (Z.land value 0x3FFF)) as Hl.
  pose proof (land_127_data (Z.shiftr (Z.land value 0x3FFF) 7)) as Hm.
  unfold event_bytes, end_of_track.
  repeat match goal with
         | |- context [if ?c then _ else _] => destruct c
         end;
    try (now left);
    right; eexists; eexists; (split; [reflexivity |]);
    rewrite ?status_channel by reflexivity;
    (split; [unfold is_status; lia |]);
    (split; [repeat (apply Forall_cons;
                     [try assumption; unfold is_data; lia |]);
             apply Forall_nil
            | cbn [List.length]; lia]).
Qed.

(** X6: whatever its arguments, the message [vgm_write] appends after the
    delta time is well framed: nothing at all, or one status byte (bit 7
    set) followed by at most two data bytes (bit 7 clear); the masks
    [& 0x0F], [& 0x7F] and [& 0x3FFF] keep out-of-range channels and data
    from corrupting the stream. *)
Theorem vgm_write_framed : forall command port reg value s,
  ready s ->
  exists s' message,
    vgm_write command port reg value s = Ok tt s' /\
    emitted s s' = varlen_bytes (delayq s / 10) ++ message /\
    framed message /\
    (List.length (emitted s s') <= 8)%nat.
Proof.
  intros command port reg value s Hr.
  destruct (vgm_write_appends command port reg value s Hr) as [s' [R [A _]]].
  exists s', (event_bytes command port reg value).
  split; [exact R |].
  rewrite <- (emitted_set_delayq (delay_after_flush (delayq s))).
  rewrite (appended_emitted _ _ _ A).
  split; [reflexivity |].
  pose proof (event_bytes_framed command port reg value) as Hf.
  split; [exact Hf |].
  assert (Ht : 0 <= delayq s / 10 < 2 ^ 32).
  { destruct Hr as (_ & Hd & _).
    split; [apply Z.div_pos; lia | apply Z.div_lt_upper_bound; lia]. }
  pose proof (varlen_bytes_length _ Ht) as Hl.
  rewrite length_app.
  destruct Hf as [-> | (st & ops & -> & _ & _ & Hn)]; cbn [List.length]; lia.
Qed.

Lemma vgm_write_framed_witness :
  ready fresh_stream /\
  exists s' message,
    vgm_write 0x9F 0x1F 0x1FF 0xFFFF fresh_stream = Ok tt s' /\
    framed message.
Proof.
  split; [exact fresh_stream_ready |].
  destruct (vgm_write_framed 0x9F 0x1F 0x1FF 0xFFFF fresh_stream
              fresh_stream_ready) as (s' & message & R & _ & F & _).
  exists s', message. split; assumption.
Defined.

(** ** The file name (vgm_open) *)

Lemma string_length_app (a b : string) :
  String.length (a ++ b) = (String.length a + String.length b)%nat.
Proof. induction a as [|c a IH]; cbn; [reflexivity | now rewrite IH]. Qed.

Lemma substring_all (b : string) : substring 0 (String.length b) b = b.
Proof. induction b as [|c b IH]; cbn; [reflexivity | now rewrite IH]. Qed.

Lemma substring_tail (a b : string) :
  substring (String.length a) (String.length b) (a ++ b) = b.
Proof. induction a as [|c a IH]; cbn; [apply substring_all | exact IH]. Qed.

Lemma mid_appended (f : string) : has_mid_extension (f ++ ".mid") = true.
Proof.
  unfold has_mid_extension. rewrite string_length_app.
  change (String.length ".mid") with 4%nat.
  replace (String.length f + 4 - 4)%nat with (String.length f) by lia.
  pose proof (substring_tail f ".mid") as Ht.
  change (String.length ".mid") with 4%nat in Ht. rewrite Ht.
  destruct (Nat.ltb_spec (String.length f + 4) 4); [lia | reflexivity].
Qed.

(** Normalising a name: what the test and the [strcat] do together. *)
Lemma with_mid_extension_cases fname :
  has_mid_extension (with_mid_extension fname) = true /\
  (has_mid_extension fname = true -> with_mid_extension fname = fname) /\
  (has_mid_extension fname = false ->
   with_mid_extension fname = (fname ++ ".mid")%string).
Proof.
  assert (Hkeep : has_mid_extension fname = true ->
                  with_mid_extension fname = fname).
  { unfold has_mid_extension, with_mid_extension.
    destruct (Nat.ltb (String.length fname) 4
              || negb (String.eqb
                         (substring (String.length fname - 4) 4 fname)
                         ".mid"))%bool;
      [discriminate | reflexivity]. }
  assert (Hadd : has_mid_extension fname = false ->
                 with_mid_extension fname = (fname ++ ".mid")%string).
  { unfold has_mid_extension, with_mid_extension.
    destruct (Nat.ltb (String.length fname) 4
              || negb (String.eqb
                         (substring (String.length fname - 4) 4 fname)
                         ".mid"))%bool;
      [reflexivity | discriminate]. }
  split; [| split; assumption].
  destruct (has_mid_extension fname) eqn:E.
  - now rewrite Hkeep.
  - rewrite Hadd by reflexivity. apply mid_appended.
Qed.

(** X7: the name under which the file will be written always ends in
    ".mid".  When its allocations succeed, [vgm_open] returns with a file
    name that has at least four characters and ends in ".mid": the
    argument itself when it already ends so, and the argument followed by
    ".mid" otherwise (also when it ends in ".MID": the test is case
    sensitive). *)
Theorem vgm_open_stores_mid_name : forall fname s0,
  alloc_reply s0 (allocs s0) <> AllocFail ->
  alloc_reply s0 (S (allocs s0)) <> AllocFail ->
  exists s1 name,
    vgm_open fname s0 = Ok tt s1 /\
    filename s1 = Some name /\
    has_mid_extension name = true /\
    (has_mid_extension fname = true -> name = fname) /\
    (has_mid_extension fname = false -> name = (fname ++ ".mid")%string).
Proof.
  intros fname s0 H0 H1.
  destruct (vgm_open_opens fname s0 H0 H1)
    as (s1 & R & _ & _ & _ & _ & _ & _ & Hfn & _).
  destruct (with_mid_extension_cases fname) as (Hn & Hk & Ha).
  exists s1, (with_mid_extension fname).
  split; [exact R |]. split; [exact Hfn |]. split; [exact Hn |].
  split; assumption.
Qed.

Lemma vgm_open_stores_mid_name_witness :
  has_mid_extension "a.MID" = false /\
  exists s1,
    vgm_open "a.MID" (boot (always AllocSame) junk_AA) = Ok tt s1 /\
    filename s1 = Some "a.MID.mid"%string.
Proof.
  split; [reflexivity |].
  destruct (vgm_open_stores_mid_name "a.MID"
              (boot (always AllocSame) junk_AA))
    as (s1 & name & R & Hfn & _ & _ & Ha); [discriminate | discriminate |].
  exists s1. split; [exact R |].
  rewrite Hfn, (Ha eq_refl). reflexivity.
Defined.

(** ** The delay accumulator (vgm_delay) *)

Lemma u32_add_l a b : u32 (u32 a + b) = u32 (a + b).
Proof. unfold u32. apply Z.add_mod_idemp_l. lia. Qed.

(** X8: a run of [vgm_delay] calls only changes [delayq], which ends up
    as the sum of the old value and of all the delays, reduced modulo
    2^32; buffer, cursor, file name and files are untouched. *)
Theorem vgm_delay_accumulates : forall ds s,
  0 <= delayq s < 2 ^ 32 ->
  run (map Delay ds) s
  = Ok tt (set_delayq (u32 (delayq s + total_delay ds)) s).
Proof.
  induction ds as [|d ds IH]; intros s Hd.
  - cbn [map run total_delay fold_right]. unfold ret.
    rewrite Z.add_0_r, u32_small by exact Hd.
    now rewrite set_delayq_same.
  - cbn [map run exec total_delay fold_right].
    unfold bind at 1, vgm_delay, bind, get, modify.
    rewrite IH by apply u32_range.
    change (Ok tt (set_delayq
                     (u32 (u32 (delayq s + d) + total_delay ds)) s)
            = Ok tt (set_delayq
                       (u32 (delayq s + (d + total_delay ds))) s)).
    now rewrite u32_add_l, Z.add_assoc.
Qed.

Lemma vgm_delay_accumulates_witness :
  0 <= delayq fresh_stream < 2 ^ 32 /\
  run (map Delay [4294967295; 7]) fresh_stream
  = Ok tt (set_delayq (u32 (delayq fresh_stream
                             + total_delay [4294967295; 7])) fresh_stream).
Proof.
  assert (H : 0 <= delayq fresh_stream < 2 ^ 32)
    by (vm_compute; intuition congruence).
  split; [exact H |].
  apply (vgm_delay_accumulates [4294967295; 7] fresh_stream H).
Defined.

(** ** The text event (vgm_write_tag) *)

Lemma firstn_strlen_nonzero l :
  Forall (fun b => b <> 0) (firstn (strlen l) l).
Proof.
  induction l as [|c l IH]; cbn [strlen]; [constructor |].
  destruct (Z.eqb_spec c 0); cbn [firstn]; constructor; assumption.
Qed.

Lemma strlen_all l : Forall (fun b => b <> 0) l -> strlen l = List.length l.
Proof.
  induction 1 as [|c l Hc _ IH]; cbn [strlen List.length]; [reflexivity |].
  destruct (Z.eqb_spec c 0); [contradiction | now rewrite IH].
Qed.

(** X9: in a stream that is ready, [vgm_write_tag] returns after
    appending the delta time and one well-formed text meta event: FF 01,
    the variable-length encoding of the number of text bytes, and the text
    itself.  The text is the formatted line up to its first zero byte (the
    whole line when it has none), never more than 511 bytes however long
    the game name is, so that at most 523 bytes are appended. *)
Theorem vgm_write_tag_well_formed : forall gamename songid ts s,
  ready s ->
  exists s' text,
    vgm_write_tag gamename songid ts s = Ok tt s' /\
    emitted s s'
    = varlen_bytes (delayq s / 10) ++ [0xFF; 0x01]
        ++ varlen_bytes (Z.of_nat (List.length text)) ++ text /\
    text = firstn (List.length text) (tag_text gamename songid ts) /\
    (List.length text <= 511)%nat /\
    Forall (fun b => b <> 0) text /\
    (Forall (fun b => b <> 0) (tag_text gamename songid ts) ->
     text = tag_text gamename songid ts) /\
    (List.length (emitted s s') <= 523)%nat.
Proof.
  intros gamename songid ts s Hr.
  destruct (vgm_write_tag_appends gamename songid ts s Hr) as [s' [R [A _]]].
  set (buf := tag_text gamename songid ts) in *.
  pose proof (tag_text_length gamename songid ts) as Hbuf. fold buf in Hbuf.
  pose proof (strlen_le buf) as Hs.
  assert (Hlen : List.length (firstn (strlen buf) buf) = strlen buf)
    by (rewrite length_firstn; lia).
  exists s', (firstn (strlen buf) buf).
  split; [exact R |].
  rewrite <- (emitted_set_delayq (delay_after_flush (delayq s))).
  rewrite (appended_emitted _ _ _ A).
  rewrite Hlen.
  split.
  { unfold tag_bytes. fold buf. rewrite u32_small; [reflexivity |].
    change (2 ^ 32) with 4294967296. lia. }
  split; [reflexivity |]. split; [lia |].
  split; [apply firstn_strlen_nonzero |].
  split.
  { intros Hnz. rewrite (strlen_all _ Hnz). apply firstn_all. }
  assert (Ht : 0 <= delayq s / 10 < 2 ^ 32).
  { destruct Hr as (_ & Hd & _).
    split; [apply Z.div_pos; lia | apply Z.div_lt_upper_bound; lia]. }
  pose proof (varlen_bytes_length _ Ht).
  pose proof (tag_bytes_length gamename songid ts).
  rewrite length_app. lia.
Qed.

Lemma vgm_write_tag_well_formed_witness :
  ready fresh_stream /\
  exists s' (text : list Z),
    vgm_write_tag (Some "Game"%string) 0x123 "2024-01-01 00:00:00"
                  fresh_stream = Ok tt s' /\
    (List.length text <= 511)%nat.
Proof.
  split; [exact fresh_stream_ready |].
  destruct (vgm_write_tag_well_formed (Some "Game"%string) 0x123
              "2024-01-01 00:00:00" fresh_stream fresh_stream_ready)
    as (s' & text & R & _ & _ & L & _).
  exists s', text. split; assumption.
Defined.

(** ** Opening (vgm_open) *)

Lemma open_bytes_literal :
  open_bytes = [0x4D; 0x54; 0x68; 0x64; 0; 0; 0; 6; 0; 0; 0; 1; 0x01; 0xE0;
                0x4D; 0x54; 0x72; 0x6B; 0; 0; 0; 0].
Proof. reflexivity. Qed.

(** X10: whatever state it is called in, when both of its allocations
    succeed [vgm_open] returns with a stream that is ready for events: the
    buffer has 50000000 bytes and holds exactly 22 of them, "MThd" 00 00 00
    06 00 00 00 01 01 E0 "MTrk" 00 00 00 00; the track pointers designate
    offsets 18 and 22; the delay accumulator is reset to 0; the file name
    is the argument with ".mid" appended if it did not end so; no file is
    written. *)
Theorem vgm_open_success : forall fname s0,
  alloc_reply s0 (allocs s0) <> AllocFail ->
  alloc_reply s0 (S (allocs s0)) <> AllocFail ->
  exists s1,
    vgm_open fname s0 = Ok tt s1 /\
    ready s1 /\ streaming s1 /\
    cursor s1 = 22 /\ buffer_size s1 = 50000000 /\ delayq s1 = 0 /\
    mem_read (contents s1) 0 22
    = [0x4D; 0x54; 0x68; 0x64; 0; 0; 0; 6; 0; 0; 0; 1; 0x01; 0xE0;
       0x4D; 0x54; 0x72; 0x6B; 0; 0; 0; 0] /\
    filename s1 = Some (with_mid_extension fname) /\
    files s1 = files s0.
Proof.
  intros fname s0 H0 H1.
  destruct (vgm_open_opens fname s0 H0 H1)
    as (s1 & R & Hr & Hs & _ & Hk & Hc & Hd & Hfn & HB & _ & _ & _ & Hb).
  exists s1. split; [exact R |]. split; [exact Hr |]. split; [exact Hs |].
  split; [exact Hc |]. split; [exact HB |]. split; [exact Hd |].
  split.
  { rewrite <- open_bytes_literal. apply list_eq_nth.
    - now rewrite mem_read_length.
    - intros k Hk'. rewrite mem_read_length in Hk'.
      rewrite mem_read_nth by exact Hk'. apply Hb.
      change (Z.to_nat 22) with 22%nat in Hk'. exact Hk'. }
  split; [exact Hfn |].
  destruct Hk as (_ & _ & _ & _ & _ & _ & _ & _ & _ & _ & Hf). exact Hf.
Qed.

Lemma vgm_open_success_witness :
  alloc_reply (started [Open "a"; Close])
              (allocs (started [Open "a"; Close])) <> AllocFail /\
  alloc_reply (started [Open "a"; Close])
              (S (allocs (started [Open "a"; Close]))) <> AllocFail /\
  exists s1,
    vgm_open "b.mid" (started [Open "a"; Close]) = Ok tt s1 /\
    cursor s1 = 22 /\ delayq s1 = 0.
Proof.
  assert (H0 : alloc_reply (started [Open "a"; Close])
                 (allocs (started [Open "a"; Close])) <> AllocFail)
    by (vm_compute; discriminate).
  assert (H1 : alloc_reply (started [Open "a"; Close])
                 (S (allocs (started [Open "a"; Close]))) <> AllocFail)
    by (vm_compute; discriminate).
  split; [exact H0 |]. split; [exact H1 |].
  destruct (vgm_open_success "b.mid" (started [Open "a"; Close]) H0 H1)
    as (s1 & R & _ & _ & Hc & _ & Hd & _).
  exists s1. repeat split; assumption.
Defined.

(** A write without a buffer does not return. *)
Lemma write_u8_no_buffer v s :
  vgmdata s = Null -> is_ok (write_u8 v s) = false.
Proof.
  intros Hv. unfold write_u8, bind, get, modify.
  destruct (store (data s) v s) as [[] s1 |] eqn:E; [| reflexivity].
  assert (Hv1 : vgmdata s1 = Null).
  { unfold store in E. destruct (data s) as [| b o]; [discriminate |].
    destruct (heap s b) as [blk |]; [| discriminate].
    destruct ((0 <=? o) && (o <? blk_size blk)); [| discriminate].
    injection E as <-. exact Hv. }
  cbn [vgmdata set_data]. rewrite Hv1.
  unfold ptr_diff. cbn [data set_data].
  destruct (ptr_add (data s) 1); reflexivity.
Qed.

Lemma write_varlen_no_buffer t s :
  0 <= t < 2 ^ 32 -> vgmdata s = Null -> is_ok (write_varlen t s) = false.
Proof.
  intros Ht Hv. destruct (varlen_start_some t Ht) as [res Hres].
  unfold write_varlen. rewrite Hres.
  apply varlen_loop_length in Hres. cbn [List.length] in Hres.
  destruct (List.length res) as [|i]; [lia |].
  cbn [write_down]. unfold bind.
  pose proof (write_u8_no_buffer (nth i res 0) s Hv) as H.
  destruct (write_u8 (nth i res 0) s); [discriminate | reflexivity].
Qed.

Lemma vgm_write_no_buffer command port reg value s :
  0 <= delayq s < 2 ^ 32 -> vgmdata s = Null ->
  is_ok (vgm_write command port reg value s) = false.
Proof.
  intros Hd Hv.
  assert (Ht : 0 <= delayq s / 10 < 2 ^ 32).
  { split; [apply Z.div_pos; lia | apply Z.div_lt_upper_bound; lia]. }
  unfold vgm_write. rewrite flush_prologue by lia.
  unfold bind at 1.
  pose proof (write_varlen_no_buffer (delayq s / 10)
                (set_delayq (delay_after_flush (delayq s)) s) Ht Hv) as H.
  destruct (write_varlen (delayq s / 10)
              (set_delayq (delay_after_flush (delayq s)) s));
    [discriminate | reflexivity].
Qed.

(** X11: when the allocation of the file name fails, [vgm_open] returns
    without a word: [filename] is null and nothing else has changed, not
    even the delay accumulator, which is not reset; no buffer exists, and
    if none existed before ([vgmdata] null) a [vgm_write] that follows does
    not return. *)
Theorem vgm_open_without_name : forall fname s,
  alloc_reply s (allocs s) = AllocFail ->
  vgm_open fname s
  = Ok tt (set_filename None (set_allocs (S (allocs s)) s)) /\
  (0 <= delayq s < 2 ^ 32 -> vgmdata s = Null ->
   forall command port reg value,
     is_ok (vgm_write command port reg value
              (set_filename None (set_allocs (S (allocs s)) s))) = false).
Proof.
  intros fname s Hr. split.
  - unfold vgm_open, bind, malloc. rewrite Hr. reflexivity.
  - intros Hd Hv command port reg value.
    now apply vgm_write_no_buffer.
Qed.

Lemma vgm_open_without_name_witness :
  alloc_reply boot_no_memory (allocs boot_no_memory) = AllocFail /\
  0 <= delayq boot_no_memory < 2 ^ 32 /\ vgmdata boot_no_memory = Null /\
  is_ok (run [Open "song"; Write 0x90 0 60 100] boot_no_memory) = false.
Proof.
  split; [reflexivity |]. split; [vm_compute; intuition congruence |].
  split; [reflexivity |].
  destruct (vgm_open_without_name "song" boot_no_memory eq_refl) as [R H].
  cbn [run exec]. unfold bind at 1. rewrite R.
  pose proof (H ltac:(vm_compute; intuition congruence) eq_refl
                0x90 0 60 100) as E.
  destruct (vgm_write 0x90 0 60 100
              (set_filename None
                 (set_allocs (S (allocs boot_no_memory)) boot_no_memory)));
    [discriminate | reflexivity].
Defined.

(** X12: when the file name is allocated but the buffer is not,
    [vgm_open] returns without a word with [vgmdata] null: the name is
    stored and the delay accumulator reset, [data] is left as it was, and
    no event can be written: every [vgm_write] that follows fails to
    return. *)
Theorem vgm_open_without_buffer : forall fname s,
  alloc_reply s (allocs s) <> AllocFail ->
  alloc_reply s (S (allocs s)) = AllocFail ->
  exists s',
    vgm_open fname s = Ok tt s' /\
    vgmdata s' = Null /\ data s' = data s /\ delayq s' = 0 /\
    filename s' = Some (with_mid_extension fname) /\
    files s' = files s /\
    forall command port reg value,
      is_ok (vgm_write command port reg value s') = false.
Proof.
  intros fname s H0 H1.
  assert (E : exists s', vgm_open fname s = Ok tt s' /\
              vgmdata s' = Null /\ data s' = data s /\ delayq s' = 0 /\
              filename s' = Some (with_mid_extension fname) /\
              files s' = files s).
  { unfold vgm_open, bind, malloc, modify.
    destruct (alloc_reply s (allocs s)); [contradiction | |];
      cbn [alloc_reply allocs set_allocs set_heap set_filename set_delayq];
      rewrite H1; eexists; (split; [reflexivity |]); repeat split. }
  destruct E as (s' & R & Hv & Hd & Hq & Hf & Hfs).
  exists s'. repeat split; try assumption.
  intros command port reg value.
  apply vgm_write_no_buffer; [rewrite Hq; lia | exact Hv].
Qed.

Lemma vgm_open_without_buffer_witness :
  alloc_reply boot_name_only (allocs boot_name_only) <> AllocFail /\
  alloc_reply boot_name_only (S (allocs boot_name_only)) = AllocFail /\
  exists s', vgm_open "song" boot_name_only = Ok tt s' /\
             vgmdata s' = Null /\
             is_ok (vgm_write 0x90 0 60 100 s') = false.
Proof.
  assert (H0 : alloc_reply boot_name_only (allocs boot_name_only)
               <> AllocFail) by (vm_compute; discriminate).
  split; [exact H0 |]. split; [reflexivity |].
  destruct (vgm_open_without_buffer "song" boot_name_only H0 eq_refl)
    as (s' & R & Hv & _ & _ & _ & _ & Hw).
  exists s'. split; [exact R |]. split; [exact Hv | apply Hw].
Defined.

(** ** After the close (vgm_write, vgm_write_tag) *)

Lemma bind_fault {A B : Type} (m : M A) (k : A -> M B) s f s' :
  m s = Fault f s' -> bind m k s = Fault f s'.
Proof. intros H. unfold bind. now rewrite H. Qed.

(** X13: a stream that has been closed cannot be written to.  After a
    [vgm_close] that returned, [vgm_write] and [vgm_write_tag] do not
    return: the first byte of the delta time is stored through the null
    [data]; in the model the call stops there and no file is touched. *)
Theorem write_after_close_faults : forall s s1,
  vgm_close s = Ok tt s1 ->
  0 <= delayq s1 < 2 ^ 32 ->
  (forall command port reg value,
     fault_of (vgm_write command port reg value s1) = Some NullPointer /\
     files (final_state (vgm_write command port reg value s1)) = files s1) /\
  (forall gamename songid ts,
     fault_of (vgm_write_tag gamename songid ts s1) = Some NullPointer /\
     files (final_state (vgm_write_tag gamename songid ts s1)) = files s1).
Proof.
  intros s s1 H Hd.
  destruct (vgm_close_nulls _ _ H) as [_ [Hdata _]].
  assert (Ht : 0 <= delayq s1 / 10 < 2 ^ 32).
  { split; [apply Z.div_pos; lia | apply Z.div_lt_upper_bound; lia]. }
  assert (Hn : write_varlen (delayq s1 / 10)
                 (set_delayq (delay_after_flush (delayq s1)) s1)
               = Fault NullPointer
                   (set_delayq (delay_after_flush (delayq s1)) s1))
    by (apply write_varlen_null; [exact Ht | exact Hdata]).
  split.
  - intros command port reg value.
    unfold vgm_write. rewrite flush_prologue by lia.
    rewrite (bind_fault _ _ _ _ _ Hn). split; reflexivity.
  - intros gamename songid ts.
    unfold vgm_write_tag. rewrite flush_prologue by lia.
    rewrite (bind_fault _ _ _ _ _ Hn). split; reflexivity.
Qed.

Lemma write_after_close_faults_witness :
  vgm_close fresh_stream = Ok tt (final_state (vgm_close fresh_stream)) /\
  0 <= delayq (final_state (vgm_close fresh_stream)) < 2 ^ 32 /\
  fault_of (vgm_write 0x90 0 60 100 (final_state (vgm_close fresh_stream)))
  = Some NullPointer.
Proof.
  assert (H1 : vgm_close fresh_stream
               = Ok tt (final_state (vgm_close fresh_stream)))
    by (apply ok_final; vm_compute; reflexivity).
  assert (H2 : 0 <= delayq (final_state (vgm_close fresh_stream)) < 2 ^ 32)
    by (vm_compute; intuition congruence).
  split; [exact H1 |]. split; [exact H2 |].
  apply (write_after_close_faults _ _ H1 H2).
Defined.

(** ** The sink without memory (write_u8) *)

Lemma starved_step v s b c B :
  starved s b c B -> c < B -> u32 (B * 2) <> 0 ->
  exists s', write_u8 v s = Ok tt s' /\ starved s' b (c + 1) B /\
             files s' = files s.
Proof.
  intros ((Hv & Hd & Hsz & Hc & H32) & HB & Hfail) HcB Hnz.
  destruct (sized_block _ _ _ Hsz) as [m Hh]; clear Hsz.
  destruct s as [B0 dq vd d fn tl ts h n rp jk fs]; st; subst.
  unfold write_u8, store, ptr_diff, realloc; st.
  rewrite Hh; st.
  in_bounds; st. rewrite Nat.eqb_refl; st.
  destruct (Z.ltb_spec (B - (c + 1 - 0)) 1024).
  - st. rewrite heap_set_same.
    destruct (Z.eqb_spec (u32 (B * 2)) 0); [contradiction |].
    rewrite (Hfail n) by lia. st.
    eexists; split; [reflexivity |]. split; [| reflexivity].
    unfold starved, open_buffer; st. rewrite heap_set_same.
    cbn [option_map blk_size].
    repeat split; try lia; try reflexivity.
    intros k Hk. apply Hfail. lia.
  - eexists; split; [reflexivity |]. split; [| reflexivity].
    unfold starved, open_buffer; st. rewrite heap_set_same.
    cbn [option_map blk_size].
    repeat split; try lia; try reflexivity.
    exact Hfail.
Qed.

Lemma starved_run v b B : forall n s c,
  starved s b c B -> c + Z.of_N n <= B -> u32 (B * 2) <> 0 ->
  exists s', times n (write_u8 v) s = Ok tt s' /\
             starved s' b (c + Z.of_N n) B /\ files s' = files s.
Proof.
  induction n as [|n IH] using N.peano_ind; intros s c Hs Hle Hnz.
  - exists s. rewrite times_zero.
    replace (c + Z.of_N 0) with c by lia.
    split; [reflexivity |]. split; [exact Hs | reflexivity].
  - rewrite times_succ.
    destruct (IH s c Hs) as (s1 & R & S1 & F1); [lia | exact Hnz |].
    rewrite R.
    destruct (starved_step v _ _ _ _ S1) as (s2 & R2 & S2 & F2);
      [lia | exact Hnz |].
    exists s2. split; [exact R2 |]. split; [| congruence].
    replace (c + Z.of_N (N.succ n)) with (c + Z.of_N n + 1) by lia.
    exact S2.
Qed.

Lemma starved_overrun v s b B :
  starved s b B B -> write_u8 v s = Fault OutOfBounds s.
Proof.
  intros ((Hv & Hd & Hsz & Hc & H32) & HB & Hfail).
  destruct (sized_block _ _ _ Hsz) as [m Hh]; clear Hsz.
  unfold write_u8, bind, get, store. rewrite Hd, Hh. cbn [blk_size].
  rewrite HB. rewrite Z.ltb_irrefl, andb_false_r. reflexivity.
Qed.

(** X14: [write_u8] does not report a failed [realloc], and nothing checks
    the bounds of the buffer.  When the allocator has no memory left, the
    bytes go on being stored up to the very end of the buffer ([B - c]
    calls return, the cursor reaching the size [B]), and the next call
    stores one byte past the end of the buffer: the behaviour is
    undefined. *)
Theorem write_u8_overruns_when_starved : forall v s b c B,
  starved s b c B -> c <= B -> u32 (B * 2) <> 0 ->
  exists s',
    times (Z.to_N (B - c)) (write_u8 v) s = Ok tt s' /\
    cursor s' = B /\ buffer_size s' = B /\ files s' = files s /\
    fault_of (write_u8 v s') = Some OutOfBounds.
Proof.
  intros v s b c B Hs Hle Hnz.
  destruct (starved_run v b B (Z.to_N (B - c)) s c Hs) as (s' & R & S' & F);
    [lia | exact Hnz |].
  replace (c + Z.of_N (Z.to_N (B - c))) with B in S' by lia.
  exists s'. split; [exact R |].
  split; [apply open_buffer_room with b, S' |].
  split; [apply S' |]. split; [exact F |].
  now rewrite (starved_overrun v s' b B S').
Qed.

Lemma starved_stream_starved : starved starved_stream 0 2040 2048.
Proof.
  unfold starved, open_buffer, starved_stream; st.
  repeat split; try reflexivity; lia.
Qed.

Lemma write_u8_overruns_when_starved_witness :
  starved starved_stream 0 2040 2048 /\ 2040 <= 2048 /\
  u32 (2048 * 2) <> 0 /\
  exists s',
    times 8 (write_u8 0x90) starved_stream = Ok tt s' /\
    cursor s' = 2048 /\
    fault_of (write_u8 0x90 s') = Some OutOfBounds.
Proof.
  assert (Hnz : u32 (2048 * 2) <> 0) by (vm_compute; discriminate).
  split; [exact starved_stream_starved |]. split; [lia |].
  split; [exact Hnz |].
  destruct (write_u8_overruns_when_starved 0x90 starved_stream 0 2040 2048
              starved_stream_starved ltac:(lia) Hnz)
    as (s' & R & Hc & _ & _ & Hf).
  exists s'. split; [exact R |]. split; [exact Hc | exact Hf].
Defined.

(** ** The low-water mark (write_bytes) *)

(** X15: the low-water mark of 1024 free bytes is kept by [write_bytes]
    whenever the allocator answers: from a buffer with at least 1024 free
    bytes whose size can be doubled in 32 bits, copying up to 1024 bytes
    returns, the bytes stand in the buffer between the old and the new
    cursor, and at least 1024 bytes are free again, so the cursor is
    inside the buffer. *)
Theorem write_bytes_keeps_low_water : forall l s,
  (exists b c, open_buffer s b c) ->
  1024 <= headroom s -> 2 * buffer_size s < 2 ^ 32 ->
  Z.of_nat (List.length l) <= 1024 ->
  (forall k, (allocs s <= k)%nat -> alloc_reply s k <> AllocFail) ->
  exists s',
    write_bytes l s = Ok tt s' /\
    emitted s s' = l /\
    1024 <= headroom s' /\ cursor s' <= buffer_size s'.
Proof.
  intros l s (b & c & Ho) Hroom H32 Hlen Hmem.
  pose proof (open_buffer_room _ _ _ Ho) as Hc.
  assert (Hpos : 0 <= c) by apply Ho.
  assert (Hb : budget s (Z.of_nat (List.length l))).
  { split; [now exists b, c |].
    unfold headroom in *. rewrite Hc in *.
    split; [lia | right; lia]. }
  destruct (write_bytes_emits l s _ Hb) as (s' & R & A & _); [lia |].
  exists s'. split; [exact R |].
  split; [now apply appended_emitted |].
  assert (Hh : 1024 <= headroom s').
  { destruct (Z.lt_ge_cases (headroom s') 1024) as [Hlow | Hok];
      [| exact Hok].
    destruct (ap_low _ _ _ A Hlow) as [Hl | (k & Hk & Hf)]; [lia |].
    exfalso. apply (Hmem k); [lia | exact Hf]. }
  split; [exact Hh |]. unfold headroom in Hh. lia.
Qed.

Lemma write_bytes_keeps_low_water_witness :
  exists s',
    write_bytes [0x4D; 0x54] fresh_stream = Ok tt s' /\
    emitted fresh_stream s' = [0x4D; 0x54] /\
    1024 <= headroom s' /\ cursor s' <= buffer_size s'.
Proof.
  apply (write_bytes_keeps_low_water [0x4D; 0x54] fresh_stream).
  - apply fresh_stream_ready.
  - apply fresh_stream_ready.
  - vm_compute. reflexivity.
  - cbn. lia.
  - intros k _. vm_compute. discriminate.
Defined.

(** ** The file written by vgm_close *)

(** X16: the file [vgm_close] writes.  With the buffer in place,
    [vgm_close] returns and writes one file, under the name stored by
    [vgm_open]: the bytes the buffer held below the cursor, with the four
    bytes at offsets 18 to 21 replaced by the big-endian count of the bytes
    that follow offset 22, then the pending delay in ticks as a
    variable-length quantity and FF 2F 00.  The buffer is freed and the
    three globals [vgmdata], [data] and [filename] are null afterwards. *)
Theorem vgm_close_file_layout : forall s,
  ready s -> streaming s -> stays_put s ->
  exists s' name bytes,
    vgm_close s = Ok tt s' /\
    filename s = Some name /\
    files s' = (name, bytes) :: files s /\
    bytes = firstn 18 (mem_read (contents s) 0 (cursor s))
            ++ be32_bytes (Z.of_nat (List.length bytes) - 22)
            ++ skipn 22 (mem_read (contents s) 0 (cursor s))
            ++ varlen_bytes (delayq s / 10) ++ end_of_track /\
    vgmdata s' = Null /\ data s' = Null /\ filename s' = None /\
    (forall b o, vgmdata s = Ptr b o -> heap s' b = None).
Proof.
  intros s Hr Hs Hp.
  destruct (vgm_close_runs_freeing s Hr Hs Hp)
    as (s' & name & bytes & R & Hn & Hf & _ & Hv & Hd & Hfn & Hfree
        & Hlen & Hnth).
  exists s', name, bytes.
  split; [exact R |]. split; [exact Hn |]. split; [exact Hf |].
  split; [| now repeat split].
  destruct Hs as (b & c & Ho & Hc22 & _).
  rewrite (open_buffer_room _ _ _ Ho) in *.
  set (tail := varlen_bytes (delayq s / 10) ++ end_of_track) in *.
  set (old := mem_read (contents s) 0 c).
  assert (Hold : List.length old = Z.to_nat c) by apply mem_read_length.
  assert (H18 : List.length (firstn 18 old) = 18%nat)
    by (rewrite length_firstn; lia).
  assert (H4 : forall v, List.length (be32_bytes v) = 4%nat)
    by reflexivity.
  assert (Hsk : List.length (skipn 22 old) = (Z.to_nat c - 22)%nat)
    by (rewrite length_skipn; lia).
  apply list_eq_nth.
  - rewrite !length_app, H18, H4, Hsk. lia.
  - intros k Hk. rewrite (Hnth k Hk).
    destruct (Z.leb_spec 18 (Z.of_nat k)) as [Hge18 | Hlt18];
      cbn [andb].
    + rewrite app_nth2 by lia. rewrite H18.
      destruct (Z.ltb_spec (Z.of_nat k) 22) as [Hlt22 | Hge22].
      * rewrite app_nth1 by (rewrite H4; lia).
        rewrite Hlen. reflexivity.
      * rewrite app_nth2 by (rewrite H4; lia). rewrite H4.
        destruct (Z.ltb_spec (Z.of_nat k) c) as [Hlt | Hge].
        -- rewrite app_nth1 by lia.
           rewrite nth_skipn. unfold old.
           rewrite mem_read_nth by lia. f_equal. lia.
        -- rewrite app_nth2 by lia. rewrite Hsk. f_equal. lia.
    + destruct (Z.ltb_spec (Z.of_nat k) c) as [Hlt | Hge]; [| lia].
      rewrite app_nth1 by lia.
      rewrite nth_firstn.
      destruct (Nat.ltb_spec k 18); [| lia].
      unfold old. now rewrite mem_read_nth by lia.
Qed.

Lemma vgm_close_file_layout_witness :
  exists s' name bytes,
    vgm_close fresh_stream = Ok tt s' /\
    files s' = (name, bytes) :: files fresh_stream /\
    vgmdata s' = Null.
Proof.
  destruct (vgm_close_file_layout fresh_stream fresh_stream_ready
              fresh_stream_streaming fresh_stream_stays_put)
    as (s' & name & bytes & R & _ & Hf & _ & Hv & _).
  exists s', name, bytes. split; [exact R |]. split; [exact Hf | exact Hv].
Defined.

(** ** Track pointers outside the buffer (vgm_close) *)




(** ** Streams that fit in the first allocation *)

(** X19: a stream that fits in the first allocation always yields a
    complete file.  When the two allocations of [vgm_open] succeed, the
    calls in between are any [n] calls of [vgm_write], [vgm_delay],
    [vgm_write_tag] and the stubs with [523 * n + 1054 <= 50000000], then
    [vgm_open], the calls and [vgm_close] all return, and one file has
    been written, under the name given to [vgm_open] with ".mid" appended
    if it was missing: it starts with the header chunk and "MTrk", its
    length field at offset 18 counts the bytes that follow offset 22, and
    it ends with FF 2F 00. *)
Theorem bounded_stream_writes_file : forall fname cs s0,
  alloc_reply s0 (allocs s0) <> AllocFail ->
  alloc_reply s0 (S (allocs s0)) <> AllocFail ->
  Forall stream_call cs ->
  523 * Z.of_nat (List.length cs) + 1054 <= 50000000 ->
  exists s' bytes,
    run (Open fname :: cs ++ [Close]) s0 = Ok tt s' /\
    files s' = (with_mid_extension fname, bytes) :: files s0 /\
    firstn 18 bytes
    = [0x4D; 0x54; 0x68; 0x64; 0; 0; 0; 6; 0; 0; 0; 1; 0x01; 0xE0;
       0x4D; 0x54; 0x72; 0x6B] /\
    track_length_field bytes = Z.of_nat (List.length bytes) - 22 /\
    skipn (List.length bytes - 3) bytes = [0xFF; 0x2F; 0x00].
Proof.
  intros fname cs s0. apply bounded_stream_runs.
Qed.


Lemma bounded_stream_writes_file_witness :
  exists s' bytes,
    run scenario (boot (always AllocSame) junk_AA) = Ok tt s' /\
    files s' = [("song.mid"%string, bytes)] /\
    track_length_field bytes = Z.of_nat (List.length bytes) - 22.
Proof.
  destruct (bounded_stream_writes_file "song"
              [Write 0x90 0 60 100; Delay 50; Write 0x80 0 60 0]
              (boot (always AllocSame) junk_AA))
    as (s' & bytes & R & Hf & _ & Hl & _).
  - discriminate.
  - discriminate.
  - repeat (apply Forall_cons; [exact I |]). apply Forall_nil.
  - cbn. lia.
  - exists s', bytes. split; [exact R |]. split; [exact Hf | exact Hl].
Defined.
